(** * missing_bids: the multistage metrics, the refined environment generator
      and the asymptotic moment constraint

    A shallow embedding of [rebidding.py], [mb_api/asymptotics.py] and
    [auction_data.py].

    Conventions of the embedding.
    - A Python float is an exact rational ([Q]); numeric equality of floats is
      [Qeq] ([==]), so rounding is idealised away and every bound below is a
      bound of real arithmetic.
    - A one-dimensional numpy array is a [list Q], a two-dimensional one is a
      list of rows.
    - Code that raises returns [inl] of the exception; code that reads or
      writes the process-wide numpy generator threads a [World]. *)

From Stdlib Require Import ZArith QArith Qabs Lia Lqa List Bool.
From Stdlib Require Import Sorting.Sorted Sorting.Permutation SetoidList.
From stdpp Require Import base list.
Import ListNotations.
Local Open Scope Q_scope.

(** ** Python values and exceptions *)

Inductive exception : Type :=
| ValueError
| IndexError.

(** [int(x)] on a number: truncation toward zero. *)
Definition py_int (x : Q) : Z := Z.quot (Qnum x) (Zpos (Qden x)).

Abbreviation vector := (list Q).
Abbreviation matrix := (list (list Q)).

(** Reading one entry; the callers below only read inside the shape. *)
Definition item (v : vector) (i : nat) : Q := default 0 (v !! i).

(** [arr[:, c]] *)
Definition column (c : nat) (arr : matrix) : vector :=
  map (fun row => item row c) arr.

(** [arr[:, c] = vals], for [vals] with one entry per row. *)
Definition assign_column (c : nat) (arr : matrix) (vals : vector) : matrix :=
  zip_with (fun row x => <[c:=x]> row) arr vals.

(** [arr[:, cols] = vals], for [vals] with one row per row of [arr] and one
    entry per listed column. *)
Definition assign_row (cols : list nat) (row : vector) (vals : vector)
  : vector :=
  foldl (fun r cx => <[fst cx:=snd cx]> r) row (zip cols vals).

Definition assign_columns (cols : list nat) (arr vals : matrix) : matrix :=
  zip_with (assign_row cols) arr vals.

(** ** The numpy generator

    [np.random] is a Mersenne Twister owned by the process.  Its stream is
    taken as an interface: the state [np.random.seed] installs for a seed and
    the function that draws one double and advances the state. *)

Class BitGenerator : Type := {
  RandomState : Type;
  init_by_seed : Z -> RandomState;
  random_sample : RandomState -> Q * RandomState
}.

Section Numpy.
Context {G : BitGenerator}.

(** What a call can observe of the process: the generator's state and the
    contents of memory that [np.empty] hands out without initialising. *)
Record World : Type := {
  np_random : RandomState;
  uninitialised : nat -> nat -> Q
}.

Definition Py (A : Type) : Type := World -> exception + (A * World).

Definition ret {A} (a : A) : Py A := fun w => inr (a, w).

Definition bind {A B} (m : Py A) (k : A -> Py B) : Py B :=
  fun w => match m w with
           | inl e => inl e
           | inr (a, w') => k a w'
           end.

(** [np.random.seed(seed)]: legacy seeding accepts 0 .. 2**32 - 1. *)
Definition np_random_seed (seed : Z) : Py unit :=
  fun w =>
    if ((0 <=? seed)%Z && (seed <? 2 ^ 32)%Z)%bool
    then inr (tt, {| np_random := init_by_seed seed;
                     uninitialised := uninitialised w |})
    else inl ValueError.

Fixpoint draws (n : nat) (s : RandomState) : vector * RandomState :=
  match n with
  | O => ([], s)
  | S n' =>
      let (x, s1) := random_sample s in
      let (xs, s2) := draws n' s1 in
      (x :: xs, s2)
  end.

Fixpoint draw_rows (n m : nat) (s : RandomState) : matrix * RandomState :=
  match n with
  | O => ([], s)
  | S n' =>
      let (r, s1) := draws m s in
      let (rs, s2) := draw_rows n' m s1 in
      (r :: rs, s2)
  end.

(** [np.random.rand(n)]: a negative dimension is a [ValueError]. *)
Definition np_random_rand (n : Z) : Py vector :=
  fun w =>
    if (n <? 0)%Z then inl ValueError
    else let (xs, s) := draws (Z.to_nat n) (np_random w) in
         inr (xs, {| np_random := s; uninitialised := uninitialised w |}).

(** [np.random.rand(n, m)]: filled in row-major order. *)
Definition np_random_rand2 (n : Z) (m : nat) : Py matrix :=
  fun w =>
    if (n <? 0)%Z then inl ValueError
    else let (xs, s) := draw_rows (Z.to_nat n) m (np_random w) in
         inr (xs, {| np_random := s; uninitialised := uninitialised w |}).

(** [np.empty((n, m))]: whatever the memory holds. *)
Definition np_empty (n : Z) (m : nat) : Py matrix :=
  fun w =>
    if (n <? 0)%Z then inl ValueError
    else inr (map (fun i => map (uninitialised w i) (seq 0 m))
                  (seq 0 (Z.to_nat n)), w).
End Numpy.

Declare Scope py_scope.
Delimit Scope py_scope with py.
Notation "x <- m ;; k" := (bind m (fun x => k))
  (at level 100, m at next level, right associativity) : py_scope.
Notation "m ;;; k" := (bind m (fun _ => k))
  (at level 100, right associativity) : py_scope.

(** ** [environments.descending_sort] *)

Fixpoint insert_desc (x : Q) (l : vector) : vector :=
  match l with
  | [] => [x]
  | y :: l' => if Qle_bool y x then x :: l else y :: insert_desc x l'
  end.

Definition sort_desc (l : vector) : vector := foldr insert_desc [] l.

(** Modelled from the spec: [descending_sort] of [environments.py], which is
    not among the sources.  The spec has the generator impose the ordering
    "by sorting the relevant sub-vector in descending order per sample". *)
Definition descending_sort (arr : matrix) : matrix := map sort_desc arr.

(** ** [RefinedMultistageEnvironment] *)

Section RefinedMultistageEnvironment.
Context {G : BitGenerator}.
Local Open Scope py_scope.

Definition _generate_raw_environments (num : Q) (seed : Z) : Py matrix :=
  let '(win_down, marg_cont, marg_info, reserve, win0, win_up, cost) :=
    (0, 1, 2, 3, 4, 5, 6)%nat in
  np_random_seed seed ;;;
  let num := py_int num in
  env <- np_empty num 7 ;;
  r <- np_random_rand2 num 3 ;;
  let env := assign_columns [win_down; win0; win_up] env
               (descending_sort r) in
  r <- np_random_rand num ;;
  let env := assign_column reserve env r in
  r <- np_random_rand num ;;
  let env := assign_column marg_cont env
               (zip_with Qmult r
                  (zip_with Qminus (column win_down env) (column win0 env)))
  in
  r <- np_random_rand num ;;
  let env := assign_column marg_info env
               (zip_with Qmult r
                  (map (fun x => 1 - x) (column win_down env))) in
  r <- np_random_rand num ;;
  let env := assign_column cost env r in
  ret env.
End RefinedMultistageEnvironment.

(** A small linear congruential stream, used to run the generator on
    concrete inputs. *)
Definition lcg_next (s : Z) : Z := ((1103515245 * s + 12345) mod 2 ^ 31)%Z.

Definition lcg : BitGenerator := {|
  RandomState := Z;
  init_by_seed := fun seed => seed;
  random_sample := fun s =>
    let s' := lcg_next s in (Qmake s' (2 ^ 31), s')
|}.

Definition zero_memory : nat -> nat -> Q := fun _ _ => 0.

Definition lcg_world (s : Z) : @World lcg :=
  {| np_random := s : @RandomState lcg; uninitialised := zero_memory |}.

(** ** Pure code that may raise *)

Definition result (A : Type) : Type := (exception + A)%type.

Definition and_then {A B} (r : result A) (k : A -> result B) : result B :=
  match r with
  | inl e => inl e
  | inr a => k a
  end.

Declare Scope result_scope.
Delimit Scope result_scope with result.
Notation "'let*' x := r 'in' k" := (and_then r (fun x => k))
  (at level 10, x pattern, r at level 100, k at level 200) : result_scope.

Definition Qlt_bool (x y : Q) : bool := negb (Qle_bool y x).

(** [a[i]] *)
Definition getitem (a : vector) (i : nat) : result Q :=
  match a !! i with
  | Some x => inr x
  | None => inl IndexError
  end.

(** [np.max(a)]: the empty array has no maximum. *)
Definition np_max (a : vector) : result Q :=
  match a with
  | [] => inl ValueError
  | x :: a' => inr (foldl (fun m y => if Qlt_bool m y then y else m) x a')
  end.

(** Element-wise binary operations on one-dimensional arrays, with numpy's
    broadcasting of a length-one operand. *)
Definition broadcast (f : Q -> Q -> Q) (a b : vector) : result vector :=
  if (length a =? length b)%nat then inr (zip_with f a b)
  else match a, b with
       | [x], _ => inr (map (f x) b)
       | _, [y] => inr (map (fun x => f x y) a)
       | _, _ => inl ValueError
       end.

Definition np_add : vector -> vector -> result vector := broadcast Qplus.
Definition np_multiply : vector -> vector -> result vector := broadcast Qmult.

(** ** [analytics._ordered_deviations] and the metric base class *)

(** [set(l)]: one representative of each numeric value. *)
Fixpoint py_set (l : vector) : vector :=
  match l with
  | [] => []
  | x :: l' => x :: List.filter (fun y => negb (Qeq_bool x y)) (py_set l')
  end.

Fixpoint insert_asc (x : Q) (l : vector) : vector :=
  match l with
  | [] => [x]
  | y :: l' => if Qle_bool x y then x :: l else y :: insert_asc x l'
  end.

(** [np.sort(a)] *)
Definition np_sort (l : vector) : vector := foldr insert_asc [] l.

(** Modelled from the spec: [_ordered_deviations] of [analytics.py], which is
    not among the sources.  The spec speaks of "an ordered deviation set" and
    of "the equilibrium (zero-deviation) payoff": the profile together with
    the zero deviation, as a set, in increasing order.  [rebidding.py] relies
    on this when it unpacks a one-down/one-up profile into three entries. *)
Definition _ordered_deviations (deviations : vector) : vector :=
  np_sort (py_set (0 :: deviations)).

(** Modelled from the spec: [equilibrium_index] of the metric base class in
    [analytics.py]: the position of the zero deviation among the ordered
    deviations. *)
Fixpoint equilibrium_index (devs : vector) : nat :=
  match devs with
  | [] => 0
  | d :: devs' => if Qeq_bool d 0 then 0 else S (equilibrium_index devs')
  end.

(** [sum(dev < 0)] and [sum(dev > 0)] *)
Definition count_negative (dev : vector) : nat :=
  length (List.filter (fun d => Qlt_bool d 0) dev).
Definition count_positive (dev : vector) : nat :=
  length (List.filter (fun d => Qlt_bool 0 d) dev).

(** ** [MultistageIsNonCompetitive] *)

Module MultistageIsNonCompetitive.
Section Metric.
Local Open Scope result_scope.

(** [_get_payoffs] is inherited from [DimensionlessCollusionMetrics]
    ([analytics.py], not among the sources): it is a parameter, given the
    ordered deviations and the environment. *)
Variable _get_payoffs : vector -> vector -> result vector.

(** The object: [__init__] is inherited and stores the ordered profile. *)
Record t : Type := { _deviations : vector }.

Definition __init__ (deviations : vector) : t :=
  {| _deviations := _ordered_deviations deviations |}.

Definition max_win_prob : Q := 1.

Definition all_upward_dev (self : t) : bool :=
  forallb (fun d => Qle_bool 0 d) (_deviations self).

Definition _get_penalty (self : t) (env : vector) : result vector :=
  let k := equilibrium_index (_deviations self) in
  let downward_beliefs := take k env in
  np_multiply (map (fun b => max_win_prob - b) downward_beliefs)
              (take k (_deviations self)).

Definition _upward_non_ic (self : t) (env : vector) : result bool :=
  let k := equilibrium_index (_deviations self) in
  let* payoffs := _get_payoffs (_deviations self) env in
  let upward_payoffs := drop k payoffs in
  let* m := np_max upward_payoffs in
  let* p0 := getitem upward_payoffs 0 in
  inr (Qlt_bool p0 m).

Definition _downward_non_ic (self : t) (env : vector) : result bool :=
  let k := equilibrium_index (_deviations self) in
  if all_upward_dev self then inr false
  else
    let* payoffs := _get_payoffs (_deviations self) env in
    let* penalty := _get_penalty self env in
    let* adjusted := np_add (take k payoffs) penalty in
    let* m := np_max adjusted in
    let* p0 := getitem payoffs k in
    inr (Qlt_bool p0 m).

(** [__call__]: [|] evaluates both operands. *)
Definition __call__ (self : t) (env : vector) : result bool :=
  let* down := _downward_non_ic self env in
  let* up := _upward_non_ic self env in
  inr (down || up).
End Metric.
End MultistageIsNonCompetitive.

(** ** [_check_up_down_deviations] and [RefinedMultistageIsNonCompetitive] *)

Definition _check_up_down_deviations (deviations : vector) : result unit :=
  let dev := _ordered_deviations deviations in
  if negb (count_negative dev =? 1)%nat || negb (count_positive dev =? 1)%nat
  then inl ValueError
  else inr tt.

Module RefinedMultistageIsNonCompetitive.
Local Open Scope result_scope.

Record t : Type := {
  _deviations : vector;
  rho_down : Q;
  rho_up : Q
}.

Definition coeff_marginal_cont : Q := 1.
Definition coeff_marginal_info : Q := 1 # 2.

(** [super().__init__] stores the ordered profile; the unpacking of it into
    three names raises [ValueError] on any other length. *)
Definition __init__ (deviations : vector) : result t :=
  let* _ := _check_up_down_deviations deviations in
  let devs := _ordered_deviations deviations in
  match devs with
  | [down; _; up] =>
      inr {| _deviations := devs; rho_down := down; rho_up := up |}
  | _ => inl ValueError
  end.

Definition _get_payoffs (self : t) (env : vector) : result vector :=
  match env with
  | [win_down; marg_cont; marg_info; reserve; win0; win_up; cost] =>
      let v := reserve - cost in
      let payoff_down :=
        win_down * (1 + rho_down self - cost)
        + marg_cont * coeff_marginal_cont * v
        + marg_info * coeff_marginal_info * coeff_marginal_cont * v in
      inr [payoff_down;
           win0 * (1 - cost);
           win_up * (1 + rho_up self - cost)]
  | _ => inl ValueError
  end.
End RefinedMultistageIsNonCompetitive.

(** ** [AsymptoticProblem]: the moment constraint *)

Definition np_sum (a : vector) : Q := foldr Qplus 0 a.

Definition dot (u v : vector) : Q := np_sum (zip_with Qmult u v).

(** [cvxpy.matmul(m, v)] for a matrix and a column. *)
Definition matmul (m : matrix) (v : vector) : vector :=
  map (fun row => dot row v) m.

(** [m.T], for a matrix of [ncols] columns. *)
Definition transpose (ncols : nat) (m : matrix) : matrix :=
  map (fun j => column j m) (seq 0 ncols).

(** A cvxpy expression is read as its value at a value of the problem's
    variable, a constraint as the pair of expressions it compares. *)
Definition expression : Type := vector -> vector.

Inductive constraint : Type :=
| Leq (lhs rhs : expression).

Definition satisfied (c : constraint) (w : vector) : Prop :=
  match c with
  | Leq lhs rhs => Forall2 Qle (lhs w) (rhs w)
  end.

Module AsymptoticProblem.
Record t : Type := {
  _beliefs : matrix;          (* one row per environment *)
  num_beliefs : nat;          (* the number of columns of [_beliefs] *)
  _moment_matrix : matrix;
  _tolerance : vector
}.

Definition _moment_constraint (self : t) : list constraint :=
  let rationalizing_demands : expression :=
    fun variable =>
      matmul (transpose (num_beliefs self) (_beliefs self)) variable in
  let moment : expression :=
    fun variable =>
      map (Qmult 100)
          (matmul (_moment_matrix self) (rationalizing_demands variable)) in
  [Leq moment (fun _ => map (Qmult 100) (_tolerance self))].
End AsymptoticProblem.

(** The constraint in the words of the specification: the two-sided bound
    around the empirical moment vector, both sides scaled by 100. *)
Definition two_sided_moment_bound
    (moment_matrix beliefs : matrix) (num_beliefs : nat)
    (empirical tolerance w : vector) : Prop :=
  Forall2 (fun d tol => 100 * Qabs d <= 100 * tol)
          (zip_with Qminus
             (matmul moment_matrix (matmul (transpose num_beliefs beliefs) w))
             empirical)
          tolerance.

(** ** [ParallelSolver] *)

Module ParallelSolver.
Section Grid.
(** A parameter point and the solver run on one point.  The run returns
    the objective value and the tie flag, or fails: the spec names "a
    per-point failure (infeasibility)" and "one point's infeasibility or
    solver error". *)
Variable point : Type.

Inductive failure : Type :=
| Infeasible
| SolverError.

Variable solve_point : point -> failure + (Q * bool).

(** An entry of the result array: the objective value and the tie flag,
    or the flagged entry. *)
Inductive entry : Type :=
| Entry (objective : Q) (tie : bool)
| Flagged.

(** The worker of a point: a failure of the run is captured, not raised. *)
Definition entry_of (p : point) : entry :=
  match solve_point p with
  | inr (v, tie) => Entry v tie
  | inl _ => Flagged
  end.

(** A finished worker stores its point's entry at the point's index. *)
Definition store (points : list point) (out : list entry) (i : nat)
  : list entry :=
  match points !! i with
  | Some p => <[i:=entry_of p]> out
  | None => out
  end.

(** Modelled from the spec: [ParallelSolver] of [solvers.py], which is not
    among the sources.  The spec: an "embarrassingly parallel map,
    order-preserving — the n-th output corresponds to the n-th input
    regardless of completion order", in which "a per-point failure
    (infeasibility) is captured and represented as a missing/flagged value
    in the output array".  The workers finish in the order [completion];
    each result is stored at the index of its point. *)
Definition solve_grid (points : list point) (completion : list nat)
  : list entry :=
  foldl (store points) (replicate (length points) Flagged) completion.
End Grid.
End ParallelSolver.

(** ** [PIDMeanAuctionData] *)

Module PIDMeanAuctionData.
Local Open Scope result_scope.

(** A row of [df_bids]. *)
Record bid : Type := {
  pid : Z;
  norm_bid : Q;
  most_competitive : Q
}.

(** The data object: the bids and the number of rows of [df_auctions]. *)
Record t : Type := {
  df_bids : list bid;
  df_auctions_rows : nat
}.

(** [np.sqrt] and [scipy.stats.norm.ppf] are taken as an interface. *)
Class Numerics : Type := {
  np_sqrt : Q -> Q;
  norm_ppf : Q -> Q
}.

(** The mean of a column.  Rational division by zero is zero: the mean of
    no rows (NaN in pandas) and a floor over zero auctions (inf in numpy)
    are outside the model, and the statements below assume the counts
    positive. *)
Definition mean (a : vector) : Q := np_sum a / inject_Z (Z.of_nat (length a)).

(** [set(...)] on auction identifiers. *)
Fixpoint distinct (l : list Z) : list Z :=
  match l with
  | [] => []
  | x :: l' => x :: List.filter (fun y => negb (x =? y)%Z) (distinct l')
  end.

(** [frame.groupby('pid')[col].mean()], as the list of the groups' means. *)
Definition groupby_mean (rows : list (Z * Q)) : vector :=
  map (fun p =>
         mean (map snd (List.filter (fun r => (fst r =? p)%Z) rows)))
      (distinct (map fst rows)).

Definition _get_new_wins_row (b : bid) (rho : Q) : Q :=
  let new_bid := norm_bid b * (1 + rho) in
  1 * (if Qlt_bool new_bid (most_competitive b) then 1 else 0)
  + (1 # 2) * (if Qeq_bool new_bid (most_competitive b) then 1 else 0).

Definition _get_new_wins (bids : list bid) (rho : Q) : vector :=
  map (fun b => _get_new_wins_row b rho) bids.

(** [_win_vector]: per bid, its auction and one column per deviation. *)
Definition _win_vector (bids : list bid) (deviations : vector)
  : list (Z * vector) :=
  map (fun b => (pid b, map (_get_new_wins_row b) deviations)) bids.

(** [_demand_vector]: per column, the mean over auctions of the auction's
    mean. *)
Definition _demand_vector (win_vector : list (Z * vector))
    (deviations : vector) : vector :=
  imap (fun j _ =>
          mean (groupby_mean
                  (map (fun r => (fst r, item (snd r) j)) win_vector)))
       deviations.

Definition demand_vector (self : t) (deviations : vector) : vector :=
  _demand_vector (_win_vector (df_bids self) deviations) deviations.

(** [np.dot] of operands whose inner dimensions are [n] and [length v]. *)
Definition check_aligned (n : nat) (v : vector) : result unit :=
  if (n =? length v)%nat then inr tt else inl ValueError.

Definition _square_residual_to_variance (rows : list (Z * Q)) : Q :=
  mean (groupby_mean rows).

Definition num_auctions (self : t) : nat :=
  length (distinct (map pid (df_bids self))).

Section WithNumerics.
Context {N : Numerics}.

Definition min_std (self : t) : Q :=
  (1 # 100) / np_sqrt (inject_Z (Z.of_nat (df_auctions_rows self))).

(** The built-in [max(a, b)]: [b] when it is greater, [a] otherwise. *)
Definition py_max (a b : Q) : Q := if Qlt_bool a b then b else a.

Definition variance (self : t) (deviations weights : vector) : Q :=
  let win_vector := _win_vector (df_bids self) deviations in
  let demand := _demand_vector win_vector deviations in
  let centered_wins :=
    map (fun r => (fst r, zip_with Qminus (snd r) demand)) win_vector in
  let square_residual :=
    map (fun r => (fst r, dot (snd r) weights * dot (snd r) weights))
        centered_wins in
  _square_residual_to_variance square_residual.

Definition standard_deviation (self : t) (deviations weights : vector)
  : result Q :=
  let* _ := check_aligned (length deviations) weights in
  inr (py_max (min_std self)
              (np_sqrt (variance self deviations weights))).

Definition confidence_threshold (self : t) (weights deviations : vector)
    (pvalue : Q) : result Q :=
  let x := norm_ppf (1 - pvalue) in
  let demand := demand_vector self deviations in
  let* _ := check_aligned (length demand) weights in
  let* sd := standard_deviation self deviations weights in
  inr (dot demand weights
       + x * sd / np_sqrt (inject_Z (Z.of_nat (num_auctions self)))).
End WithNumerics.
End PIDMeanAuctionData.

(** ** Vocabulary of the statements *)

(** A draw of [np.random.rand] lies in the unit interval. *)
Definition in_unit (x : Q) : Prop := 0 <= x /\ x < 1.

Definition valid_seed (seed : Z) : Prop := (0 <= seed < 2 ^ 32)%Z.

(** The value a call returns, the world left aside. *)
Definition returned {G : BitGenerator} {A} (r : exception + (A * World))
  : exception + A :=
  match r with
  | inl e => inl e
  | inr (a, _) => inr a
  end.

(** Descending order, as [descending_sort] leaves a row. *)
Definition descending : vector -> Prop := Sorted (fun a b => b <= a).

(** The array the generator assembles from the memory it was handed and
    from the five batches of draws, in the order they are taken. *)
Definition assembled (g r : matrix) (u1 u2 u3 u4 : vector) : matrix :=
  let e1 := assign_columns [0; 4; 5]%nat g (descending_sort r) in
  let e2 := assign_column 3 e1 u1 in
  let e3 := assign_column 1 e2
              (zip_with Qmult u2
                 (zip_with Qminus (column 0 e2) (column 4 e2))) in
  let e4 := assign_column 2 e3
              (zip_with Qmult u3 (map (fun x => 1 - x) (column 0 e3))) in
  assign_column 6 e4 u4.

(** The seven fields of a generated row, by name. *)
Definition environment (e : vector)
    (P : Q -> Q -> Q -> Q -> Q -> Q -> Q -> Prop) : Prop :=
  exists win_down marg_cont marg_info reserve win0 win_up cost,
    e = [win_down; marg_cont; marg_info; reserve; win0; win_up; cost] /\
    P win_down marg_cont marg_info reserve win0 win_up cost.

(** A profile has one deviation of a kind when some entry is of that kind
    and every entry of that kind has its value. *)
Definition one_deviation (P : Q -> Prop) (deviations : vector) : Prop :=
  exists d, In d deviations /\ P d /\
            forall d', In d' deviations -> P d' -> d' == d.

(** ** Inputs to run the code on *)

(** A payoff rule to run the metric on: each win probability of a
    seven-field environment times (1 + deviation - cost). *)
Definition win_payoffs (devs env : vector) : result vector :=
  inr (zip_with (fun belief d => belief * (1 + d - item env 6))
         [item env 0; item env 4; item env 5] devs).

(** Numerics to run the data code on: a square root that is exact on ratios
    of perfect squares, and a quantile that is exact at the median of the
    normal law, where [norm.ppf] is zero. *)
Definition sqrt_of_squares (x : Q) : Q :=
  inject_Z (Z.sqrt (Qnum x)) / inject_Z (Z.sqrt (Zpos (Qden x))).

Definition exact_numerics : PIDMeanAuctionData.Numerics := {|
  PIDMeanAuctionData.np_sqrt := sqrt_of_squares;
  PIDMeanAuctionData.norm_ppf := fun p => p - (1 # 2)
|}.

Definition one_bid_data : PIDMeanAuctionData.t := {|
  PIDMeanAuctionData.df_bids :=
    [ {| PIDMeanAuctionData.pid := 1;
         PIDMeanAuctionData.norm_bid := 1;
         PIDMeanAuctionData.most_competitive := 2 |} ];
  PIDMeanAuctionData.df_auctions_rows := 1
|}.


(** ** The generator's position *)

(** The state of the generator after [n] draws. *)
Definition advance {G : BitGenerator} (n : nat) (s : RandomState)
  : RandomState :=
  snd (draws n s).

(** A payoff rule in the shape the metric expects of its environments:
    the beliefs, then the cost, and each belief times
    (1 + deviation - cost). *)
Definition belief_payoffs (devs env : vector) : result vector :=
  let beliefs := take (length env - 1) env in
  let cost := item env (length env - 1) in
  inr (zip_with (fun belief d => belief * (1 + d - cost)) beliefs devs).

(** ** [MultistageAuctionData] *)

Module MultistageAuctionData.

(** A row of [df_bids]: the normalised bid and the lowest bid of its
    auction. *)
Record bid : Type := {
  norm_bid : Q;
  lowest : Q
}.

Inductive error : Type :=
| NotImplementedError.

(** The mean of a boolean series. *)
Definition share (flags : list bool) : Q :=
  PIDMeanAuctionData.mean (map (fun f : bool => if f then 1 else 0) flags).

Definition _truncated_lowest_bid (df_bids : list bid) : vector :=
  map lowest df_bids.

(** [share_second_round], on the [lowest] column of [df_auctions]. *)
Definition share_second_round (df_auctions_lowest : vector) : Q :=
  share (map (fun l => Qlt_bool 1 l) df_auctions_lowest).

Definition bids_after_deviation (df_bids : list bid) (rho : Q) : vector :=
  map (fun b => norm_bid b * (1 + rho)) df_bids.

Definition share_marginal_info (df_bids : list bid) (rho : Q) : Q :=
  let new_bids := bids_after_deviation df_bids rho in
  let marginal_info :=
    zip_with (fun new b => Qlt_bool 1 new && Qlt_bool new (lowest b))
             new_bids df_bids in
  share marginal_info.

Definition share_marginal_cont (df_bids : list bid) (rho : Q) : Q :=
  let new_bids := bids_after_deviation df_bids rho in
  let marginal_cont :=
    zip_with (fun new b => Qlt_bool 1 (lowest b) && Qle_bool new 1)
             new_bids df_bids in
  share marginal_cont.

Definition _raise_error_if_neg (rho : Q) : error + unit :=
  if Qle_bool 0 rho then inl NotImplementedError else inr tt.

Definition get_share_marginal (df_bids : list bid) (rho : Q) : error + Q :=
  match _raise_error_if_neg rho with
  | inl e => inl e
  | inr _ =>
      inr (share_marginal_info df_bids rho + share_marginal_cont df_bids rho)
  end.

End MultistageAuctionData.

(** Two profiles hold the same values: each value of one is, as a number,
    a value of the other. *)
Definition same_values (a b : vector) : Prop :=
  forall x, InA Qeq x a <-> InA Qeq x b.

(** ** [PIDMeanAuctionData._get_counterfactual_demand] and
       [AsymptoticAuctionData] *)

Module PIDMeanDemand.
Import PIDMeanAuctionData.

(** The demand at one deviation: the mean over auctions of the auction's
    mean of [new_wins]. *)
Definition _get_counterfactual_demand (df_bids : list bid) (rho : Q) : Q :=
  let this_df_bids :=
    zip_with (fun b w => (pid b, w)) df_bids (_get_new_wins df_bids rho) in
  let pid_counterfactual_demand := groupby_mean this_df_bids in
  mean pid_counterfactual_demand.
End PIDMeanDemand.

Module AsymptoticAuctionData.
Import PIDMeanAuctionData.

Definition _get_counterfactual_demand (df_bids : list bid) (rho : Q) : Q :=
  mean (_get_new_wins df_bids rho).

(** [win_vector[list_moments].mean(axis=0)]: per column, the mean over the
    bids. *)
Definition _demand_vector (win_vector : list (Z * vector))
    (deviations : vector) : vector :=
  imap (fun j _ => mean (map (fun r => item (snd r) j) win_vector))
       deviations.

Definition num_bids (self : t) : nat := length (df_bids self).

(** [frame.groupby('pid')[col].count()], in the order of [groupby_mean]. *)
Definition groupby_count (rows : list (Z * Q)) : list nat :=
  map (fun p => length (List.filter (fun r => (fst r =? p)%Z) rows))
      (distinct (map fst rows)).

Definition _square_residual_to_variance (self : t) (rows : list (Z * Q))
  : Q :=
  let mean_var_by_auc := groupby_mean rows in
  let n_bids_by_auction := groupby_count rows in
  let scaled :=
    zip_with (fun v n =>
                let f := inject_Z (Z.of_nat n)
                         * inject_Z (Z.of_nat (num_auctions self))
                         / inject_Z (Z.of_nat (num_bids self)) in
                v * (f * f))
             mean_var_by_auc n_bids_by_auction in
  mean scaled.
End AsymptoticAuctionData.

(** ** [MultistageDataMixin] *)

Module MultistageDataMixin.

(** A row of [df_bids] of the multistage data: the columns of the
    single-stage frame and the lowest bid of the auction. *)
Record bid : Type := {
  pid : Z;
  norm_bid : Q;
  most_competitive : Q;
  lowest : Q
}.

Inductive error : Type :=
| Raised (e : exception)
| KeyError.

Definition _get_new_wins_row (b : bid) (rho : Q) : Q :=
  let new_bid := norm_bid b * (1 + rho) in
  1 * (if Qlt_bool new_bid (most_competitive b) then 1 else 0)
  + (1 # 2) * (if Qeq_bool new_bid (most_competitive b) then 1 else 0).

Definition bids_after_deviation_row (b : bid) (rho : Q) : Q :=
  norm_bid b * (1 + rho).

Definition is_marginal_info_row (b : bid) (rho : Q) : Q :=
  let new_bid := bids_after_deviation_row b rho in
  1 * (if Qlt_bool 1 new_bid && Qlt_bool new_bid (lowest b) then 1 else 0).

Definition is_marginal_cont_row (b : bid) (rho : Q) : Q :=
  let new_bid := bids_after_deviation_row b rho in
  1 * (if Qlt_bool 1 (lowest b) && Qle_bool new_bid 1 then 1 else 0).

(** [_win_vector]: the three win columns are filled from the first three
    deviations in the order given ([zip] stops at the shorter list); the
    frame is then restricted to [pid] and the five moments, in the order
    win_down, marg_cont, marg_info, win0, win_up, which raises [KeyError]
    when a win column was not filled. *)
Definition _win_vector (df_bids : list bid) (deviations : vector)
  : error + list (Z * vector) :=
  match _check_up_down_deviations deviations with
  | inl e => inl (Raised e)
  | inr _ =>
      match deviations with
      | [] => inl (Raised IndexError)
      | down_dev :: _ =>
          match deviations with
          | r_down :: r0 :: r_up :: _ =>
              inr (map (fun b =>
                          (pid b,
                           [_get_new_wins_row b r_down;
                            is_marginal_cont_row b down_dev;
                            is_marginal_info_row b down_dev;
                            _get_new_wins_row b r0;
                            _get_new_wins_row b r_up]))
                       df_bids)
          | _ => inl KeyError
          end
      end
  end.
End MultistageDataMixin.

(** ** [AsymptoticMinCollusionSolver] and [AsymptoticMultistageSolver] *)

Module AsymptoticMinCollusionSolver.

(** [confidence_level]: a float, or a sequence of levels. *)
Inductive confidence_level : Type :=
| Level (c : Q)
| Levels (cs : vector).

Section Solver.
Context {N : PIDMeanAuctionData.Numerics}.

(** The attributes the methods read; they are set by the base class
    [MinCollusionSolver], which is not among the sources. *)
Record t : Type := {
  _moment_matrix : matrix;
  _confidence_level : confidence_level;
  filtered_data : PIDMeanAuctionData.t;
  deviations : vector
}.

Definition _get_pvalues (self : t) (level : confidence_level) : vector :=
  match level with
  | Level c =>
      let num_moments := length (_moment_matrix self) in
      map (fun p => p / inject_Z (Z.of_nat num_moments))
          (replicate num_moments (1 - c))
  | Levels cs => map (fun c => 1 - c) cs
  end.

Definition pvalues (self : t) : vector :=
  _get_pvalues self (_confidence_level self).

Fixpoint thresholds (data : PIDMeanAuctionData.t) (devs : vector)
    (rows : list (vector * Q)) : result vector :=
  match rows with
  | [] => inr []
  | (weights, p) :: rows' =>
      match PIDMeanAuctionData.confidence_threshold data weights devs p with
      | inl e => inl e
      | inr tol =>
          match thresholds data devs rows' with
          | inl e => inl e
          | inr tols => inr (tol :: tols)
          end
      end
  end.

Definition _get_tolerance (self : t) (pvalues : vector) : result vector :=
  thresholds (filtered_data self) (deviations self)
             (zip (_moment_matrix self) pvalues).

Definition tolerance (self : t) : result vector :=
  _get_tolerance self (pvalues self).
End Solver.
End AsymptoticMinCollusionSolver.

Module AsymptoticMultistageSolver.
Import AsymptoticMinCollusionSolver.

Definition _get_pvalues (level : confidence_level) : vector :=
  match level with
  | Level c => map (fun p => p / 5) (replicate 5 (1 - c))
  | Levels cs => map (fun c => 1 - c) cs
  end.

(** The inherited [pvalues] and [tolerance], which reach the overriding
    [_get_pvalues] through [self]. *)
Definition pvalues (self : t) : vector :=
  _get_pvalues (_confidence_level self).

Definition tolerance {N : PIDMeanAuctionData.Numerics} (self : t)
  : result vector :=
  _get_tolerance self (pvalues self).

(** [np.diag([-1, 1, 1, 1, -1])] *)
Definition default_moment_matrix : matrix :=
  [[-1; 0; 0; 0; 0];
   [0; 1; 0; 0; 0];
   [0; 0; 1; 0; 0];
   [0; 0; 0; 1; 0];
   [0; 0; 0; 0; -1]].
End AsymptoticMultistageSolver.

(** Two auctions of two bids each, to run the data code on. *)
Definition two_auction_data : PIDMeanAuctionData.t := {|
  PIDMeanAuctionData.df_bids :=
    [ {| PIDMeanAuctionData.pid := 1;
         PIDMeanAuctionData.norm_bid := 90 # 100;
         PIDMeanAuctionData.most_competitive := 95 # 100 |};
      {| PIDMeanAuctionData.pid := 1;
         PIDMeanAuctionData.norm_bid := 95 # 100;
         PIDMeanAuctionData.most_competitive := 90 # 100 |};
      {| PIDMeanAuctionData.pid := 2;
         PIDMeanAuctionData.norm_bid := 1;
         PIDMeanAuctionData.most_competitive := 12 # 10 |};
      {| PIDMeanAuctionData.pid := 2;
         PIDMeanAuctionData.norm_bid := 12 # 10;
         PIDMeanAuctionData.most_competitive := 1 |} ];
  PIDMeanAuctionData.df_auctions_rows := 2
|}.

(** ** [AuctionData] *)

Module AuctionData.

(** A row of the bid-level frame as read: the auction and the normalised
    bid, which may be missing. *)
Record raw_bid : Type := {
  raw_pid : Z;
  raw_norm_bid : option Q
}.

(** A row of [df_auctions]. *)
Record auction : Type := {
  auction_pid : Z;
  lowest : Q;
  second_lowest : Q
}.

(** A row of [df_bids] after [set_bid_data]. *)
Record bid : Type := {
  pid : Z;
  norm_bid : Q;
  most_competitive : Q
}.

Inductive error : Type :=
| KeyError.

Fixpoint insert_pid (x : Z) (l : list Z) : list Z :=
  match l with
  | [] => [x]
  | y :: l' => if (x <=? y)%Z then x :: l else y :: insert_pid x l'
  end.

(** [sorted(set(pids))] *)
Definition sorted_pids (pids : list Z) : list Z :=
  foldr insert_pid [] (PIDMeanAuctionData.distinct pids).

(** The non-missing bids of one auction, sorted. *)
Definition sorted_bids (df_bids : list raw_bid) (a : Z) : vector :=
  let this_df := List.filter (fun b => (raw_pid b =? a)%Z) df_bids in
  let bids := omap raw_norm_bid this_df in
  np_sort bids.

Definition generate_auction_data (df_bids : list raw_bid) : list auction :=
  let list_auctions := sorted_pids (map raw_pid df_bids) in
  omap (fun a =>
          match sorted_bids df_bids a with
          | low :: second :: _ =>
              Some {| auction_pid := a; lowest := low;
                      second_lowest := second |}
          | _ => None
          end)
       list_auctions.

(** [self.df_auctions.ix[u]], for [u] among the available auctions. *)
Definition find_auction (df_auctions : list auction) (u : Z)
  : option auction :=
  List.find (fun a => (auction_pid a =? u)%Z) df_auctions.

(** The integer [z] as a float64: the nearest integer with 53 significant
    bits, a tie going to the even one. *)
Definition np_float64 (z : Z) : Z :=
  let a := Z.abs z in
  if (a <? 2 ^ 53)%Z then z
  else
    let e := (Z.log2 a - 52)%Z in
    let q := Z.shiftr a e in
    let r := Z.land a (Z.ones e) in
    let half := Z.shiftl 1 (e - 1) in
    let q' :=
      if (half <? r)%Z || ((r =? half)%Z && Z.odd q) then (q + 1)%Z
      else q in
    (Z.sgn z * Z.shiftl q' e)%Z.

(** [_add_most_competitive]: [None] is NaN.  [apply(..., axis=1)] hands
    the row (pid, norm_bid) over as one float64 series, so the auction is
    looked up under the pid as a float64. *)
Definition _add_most_competitive (df_auctions : list auction) (x : raw_bid)
  : option Q :=
  match find_auction df_auctions (np_float64 (raw_pid x)) with
  | Some a =>
      let is_lowest :=
        match raw_norm_bid x with
        | Some v => Qeq_bool v (lowest a)
        | None => false
        end in
      if is_lowest then Some (second_lowest a) else Some (lowest a)
  | None => None
  end.

(** [set_bid_data]: the auction frame, and the bids that have both a bid
    and a most competitive rival bid. *)
Definition set_bid_data (df_bids : list raw_bid)
  : list bid * list auction :=
  let df_auctions := generate_auction_data df_bids in
  let kept :=
    omap (fun x =>
            match raw_norm_bid x, _add_most_competitive df_auctions x with
            | Some v, Some m =>
                Some {| pid := raw_pid x; norm_bid := v;
                        most_competitive := m |}
            | _, _ => None
            end)
         df_bids in
  (kept, df_auctions).

Definition _encode (x y z : Q) : Q := 1000 + 100 * x + 10 * y + 1 * z.

Definition indicator (c : bool) : Q := if c then 1 else 0.

(** The columns [compute_demand_moments] adds to a row. *)
Record sample : Type := {
  sample_D : Q;
  sample_Pp : Q;
  sample_Pm : Q;
  category : Q
}.

Definition compute_demand_moments_row (rho_p rho_m : Q) (b : bid)
  : sample :=
  let D := 1 * indicator (Qlt_bool (norm_bid b) (most_competitive b)) in
  let bid_up := (1 + rho_p) * norm_bid b in
  let bid_down := (1 - rho_m) * norm_bid b in
  let Pp := 1 * indicator (Qlt_bool (most_competitive b) bid_up)
            * indicator (Qlt_bool (norm_bid b) (most_competitive b)) in
  let Pm := 1 * indicator (Qle_bool bid_down (most_competitive b))
            * indicator (Qle_bool (most_competitive b) (norm_bid b)) in
  {| sample_D := D; sample_Pp := Pp; sample_Pm := Pm;
     category := _encode D Pm Pp |}.

Definition compute_demand_moments (rho_p rho_m : Q) (df_bids : list bid)
  : list sample :=
  map (compute_demand_moments_row rho_p rho_m) df_bids.

(** [_demand_outcomes]: by convention y = (D, Pm, Pp). *)
Definition demand_outcomes : list (nat * (Z * Z * Z)) :=
  [(0%nat, (0, 0, 0)%Z); (1%nat, (1, 0, 0)%Z);
   (2%nat, (0, 1, 0)%Z); (3%nat, (1, 0, 1)%Z)].

Definition encode_outcome (v : Z * Z * Z) : Q :=
  let '(x, y, z) := v in _encode (inject_Z x) (inject_Z y) (inject_Z z).

Definition outcome_eqb (u v : Z * Z * Z) : bool :=
  let '(a, b, c) := u in
  let '(x, y, z) := v in
  ((a =? x) && (b =? y) && (c =? z))%Z.

(** [categorize_histories]: the number of rows of each category, and their
    total. *)
Definition categorize_histories (samples : list sample)
  : list (Z * Z * Z * nat) * nat :=
  let enum_categories :=
    map (fun kv =>
           let v := snd kv in
           (v, length (List.filter
                         (fun s => Qeq_bool (category s) (encode_outcome v))
                         samples)))
        demand_outcomes in
  (enum_categories, foldr Nat.add 0%nat (map snd enum_categories)).

Definition lookup_outcome (i : nat) : error + (Z * Z * Z) :=
  match List.find (fun kv => (fst kv =? i)%nat) demand_outcomes with
  | Some kv => inr (snd kv)
  | None => inl KeyError
  end.

Definition lookup_count (enum_categories : list (Z * Z * Z * nat))
    (v : Z * Z * Z) : error + nat :=
  match List.find (fun kv => outcome_eqb (fst kv) v) enum_categories with
  | Some kv => inr (snd kv)
  | None => inl KeyError
  end.

(** [get_competitive_share]: the loop over [enumerate(p_c)], from index
    [i] with the running total [c]. *)
Fixpoint competitive_share_from (enum_categories : list (Z * Z * Z * nat))
    (num_histories : nat) (i : nat) (p_c : vector) (c : Q) : error + Q :=
  match p_c with
  | [] => inr c
  | z :: p_c' =>
      match lookup_outcome i with
      | inl e => inl e
      | inr v =>
          match lookup_count enum_categories v with
          | inl e => inl e
          | inr n =>
              competitive_share_from enum_categories num_histories (S i)
                p_c'
                (c + z * inject_Z (Z.of_nat n)
                     / inject_Z (Z.of_nat num_histories))
          end
      end
  end.

Definition get_competitive_share
    (categorized : list (Z * Z * Z * nat) * nat) (p_c : vector)
  : error + Q :=
  competitive_share_from (fst categorized) (snd categorized) 0 p_c 0.

(** [get_demand]: the loop over [enumerate(p_c)], from index [i] with the
    running array [mean] of the three moments (D, Pm, Pp). *)
Fixpoint demand_from (enum_categories : list (Z * Z * Z * nat))
    (num_histories : nat) (i : nat) (p_c : vector) (mean : Q * Q * Q)
  : error + (Q * Q * Q) :=
  match p_c with
  | [] => inr mean
  | z :: p_c' =>
      match lookup_outcome i with
      | inl e => inl e
      | inr v =>
          match lookup_count enum_categories v with
          | inl e => inl e
          | inr n =>
              let '(x, y, w) := v in
              let '(d, pm, pp) := mean in
              let term (c : Z) :=
                z * inject_Z c * inject_Z (Z.of_nat n)
                / inject_Z (Z.of_nat num_histories) in
              demand_from enum_categories num_histories (S i) p_c'
                (d + term x, pm + term y, pp + term w)
          end
      end
  end.

Definition get_demand (categorized : list (Z * Z * Z * nat) * nat)
    (p_c : vector) : error + (Q * Q * Q) :=
  demand_from (fst categorized) (snd categorized) 0 p_c (0, 0, 0).
End AuctionData.

(** A raw frame to run the auction code on: an auction with a missing bid,
    an auction with a single bid, and an auction tied at the bottom. *)
Definition raw_frame : list AuctionData.raw_bid :=
  [ {| AuctionData.raw_pid := 17; AuctionData.raw_norm_bid := Some 1 |};
    {| AuctionData.raw_pid := 15;
       AuctionData.raw_norm_bid := Some (95 # 100) |};
    {| AuctionData.raw_pid := 15; AuctionData.raw_norm_bid := None |};
    {| AuctionData.raw_pid := 16;
       AuctionData.raw_norm_bid := Some (8 # 10) |};
    {| AuctionData.raw_pid := 15;
       AuctionData.raw_norm_bid := Some (9 # 10) |};
    {| AuctionData.raw_pid := 17; AuctionData.raw_norm_bid := Some 1 |};
    {| AuctionData.raw_pid := 17;
       AuctionData.raw_norm_bid := Some (11 # 10) |} ].

(** A sample has exactly one of the four enumerated categories. *)
Definition one_hot_category (s : AuctionData.sample) : Prop :=
  ((if Qeq_bool (AuctionData.category s)
                (AuctionData.encode_outcome (0, 0, 0)%Z) then 1 else 0)
   + (if Qeq_bool (AuctionData.category s)
                  (AuctionData.encode_outcome (1, 0, 0)%Z) then 1 else 0)
   + (if Qeq_bool (AuctionData.category s)
                  (AuctionData.encode_outcome (0, 1, 0)%Z) then 1 else 0)
   + (if Qeq_bool (AuctionData.category s)
                  (AuctionData.encode_outcome (1, 0, 1)%Z) then 1 else 0)
   = 1)%nat.

(** The bids of one auction after cleaning, to run the demand code on. *)
Definition clean_frame : list AuctionData.bid :=
  [ {| AuctionData.pid := 15; AuctionData.norm_bid := 9 # 10;
       AuctionData.most_competitive := 95 # 100 |};
    {| AuctionData.pid := 15; AuctionData.norm_bid := 95 # 100;
       AuctionData.most_competitive := 9 # 10 |} ].

(** * Properties *)

(** ** Sorting *)

Lemma insert_desc_perm (x : Q) (l : vector) :
  Permutation (insert_desc x l) (x :: l).
Proof.
  induction l as [|y l IH]; simpl; [reflexivity|].
  destruct (Qle_bool y x); [reflexivity|].
  rewrite IH. apply perm_swap.
Qed.

Lemma sort_desc_perm (l : vector) : Permutation (sort_desc l) l.
Proof.
  induction l as [|x l IH]; simpl; [reflexivity|].
  rewrite insert_desc_perm. by constructor.
Qed.

Lemma insert_desc_sorted (x : Q) (l : vector) :
  descending l -> descending (insert_desc x l).
Proof.
  unfold descending.
  induction l as [|y l IH]; simpl; intros Hs.
  - repeat constructor.
  - destruct (Qle_bool y x) eqn:E.
    + constructor; [done|]. constructor. by apply Qle_bool_iff.
    + assert (Hxy : x <= y).
      { apply Qlt_le_weak, Qnot_le_lt. intros H.
        apply Qle_bool_iff in H. congruence. }
      inversion Hs as [|? ? Hs' Hhd]; subst.
      constructor; [by apply IH|].
      destruct l as [|z l]; simpl.
      * by constructor.
      * destruct (Qle_bool z x); constructor; [done|].
        by inversion Hhd.
Qed.

Lemma sort_desc_sorted (l : vector) : descending (sort_desc l).
Proof.
  induction l as [|x l IH]; simpl.
  - constructor.
  - by apply insert_desc_sorted.
Qed.

(** A sorted triple, spelled out. *)
Lemma sort_desc_triple (t : vector) :
  length t = 3%nat ->
  exists s0 s1 s2,
    sort_desc t = [s0; s1; s2] /\ s2 <= s1 /\ s1 <= s0 /\
    Permutation [s0; s1; s2] t.
Proof.
  intros Hlen.
  pose proof (sort_desc_perm t) as Hp.
  pose proof (sort_desc_sorted t) as Hs.
  pose proof (Permutation_length Hp) as Hl. rewrite Hlen in Hl.
  destruct (sort_desc t) as [|s0 [|s1 [|s2 [|? ?]]]]; simpl in Hl; try lia.
  exists s0, s1, s2. split; [done|].
  inversion Hs as [|? ? Hs1 Hh1]; subst.
  inversion Hs1 as [|? ? Hs2 Hh2]; subst.
  inversion Hh1; subst. inversion Hh2; subst. done.
Qed.

(** ** The environment generator *)

Section GeneratorFacts.
Context {G : BitGenerator}.

Lemma draws_length (n : nat) (s : RandomState) :
  length (fst (draws n s)) = n.
Proof.
  revert s. induction n as [|n IH]; intros s; simpl; [done|].
  destruct (random_sample s) as [x s1].
  specialize (IH s1). destruct (draws n s1) as [xs s2]. simpl in *. lia.
Qed.

Lemma draw_rows_length (n m : nat) (s : RandomState) :
  length (fst (draw_rows n m s)) = n.
Proof.
  revert s. induction n as [|n IH]; intros s; simpl; [done|].
  destruct (draws m s) as [r s1].
  specialize (IH s1). destruct (draw_rows n m s1) as [rs s2].
  simpl in *. lia.
Qed.

Lemma draw_rows_width (n m : nat) (s : RandomState) :
  Forall (fun r => length r = m) (fst (draw_rows n m s)).
Proof.
  revert s. induction n as [|n IH]; intros s; simpl; [constructor|].
  pose proof (draws_length m s) as Hm.
  destruct (draws m s) as [r s1].
  specialize (IH s1). destruct (draw_rows n m s1) as [rs s2].
  simpl in *. by constructor.
Qed.

Section Range.
Hypothesis random_sample_unit :
  forall s, in_unit (fst (random_sample s)).

Lemma draws_unit (n : nat) (s : RandomState) :
  Forall in_unit (fst (draws n s)).
Proof.
  revert s. induction n as [|n IH]; intros s; simpl; [constructor|].
  pose proof (random_sample_unit s) as Hx.
  destruct (random_sample s) as [x s1].
  specialize (IH s1). destruct (draws n s1) as [xs s2].
  simpl in *. by constructor.
Qed.

Lemma draw_rows_unit (n m : nat) (s : RandomState) :
  Forall (Forall in_unit) (fst (draw_rows n m s)).
Proof.
  revert s. induction n as [|n IH]; intros s; simpl; [constructor|].
  pose proof (draws_unit m s) as Hr.
  destruct (draws m s) as [r s1].
  specialize (IH s1). destruct (draw_rows n m s1) as [rs s2].
  simpl in *. by constructor.
Qed.
End Range.

(** One run, unfolded: a valid seed and a nonnegative size give the
    assembled array; nothing of the world before the call reaches it but
    the uninitialised memory. *)
Lemma generate_run (num : Q) (seed : Z) (w : World) :
  valid_seed seed -> (0 <= py_int num)%Z ->
  let n := Z.to_nat (py_int num) in
  let s0 := init_by_seed seed in
  let r := draw_rows n 3 s0 in
  let u1 := draws n (snd r) in
  let u2 := draws n (snd u1) in
  let u3 := draws n (snd u2) in
  let u4 := draws n (snd u3) in
  _generate_raw_environments num seed w =
    inr (assembled
           (map (fun i => map (uninitialised w i) (seq 0 7)) (seq 0 n))
           (fst r) (fst u1) (fst u2) (fst u3) (fst u4),
         {| np_random := snd u4; uninitialised := uninitialised w |}).
Proof.
  intros [Hs1 Hs2] Hn. cbv zeta.
  unfold _generate_raw_environments, bind, np_random_seed, np_empty,
    np_random_rand2, np_random_rand, ret.
  assert (Hv : ((0 <=? seed)%Z && (seed <? 2 ^ 32)%Z)%bool = true).
  { apply andb_true_iff. split; [by apply Z.leb_le|by apply Z.ltb_lt]. }
  assert (Hn' : (py_int num <? 0)%Z = false) by by apply Z.ltb_ge.
  rewrite Hv, Hn'. cbn [np_random uninitialised].
  destruct (draw_rows _ 3 _) as [r s1]. cbn [np_random uninitialised fst snd].
  rewrite ?Hn'.
  destruct (draws _ s1) as [u1 s2]. cbn [np_random uninitialised fst snd].
  rewrite ?Hn'.
  destruct (draws _ s2) as [u2 s3]. cbn [np_random uninitialised fst snd].
  rewrite ?Hn'.
  destruct (draws _ s3) as [u3 s4]. cbn [np_random uninitialised fst snd].
  rewrite ?Hn'.
  destruct (draws _ s4) as [u4 s5]. cbn [np_random uninitialised fst snd].
  reflexivity.
Qed.
End GeneratorFacts.

Section Assembled.
Variables (g r : matrix) (u1 u2 u3 u4 : vector) (n : nat).
Hypothesis g_rows : length g = n.
Hypothesis g_width : Forall (fun row => length row = 7%nat) g.
Hypothesis r_rows : length r = n.
Hypothesis r_width : Forall (fun row => length row = 3%nat) r.
Hypothesis u1_rows : length u1 = n.
Hypothesis u2_rows : length u2 = n.
Hypothesis u3_rows : length u3 = n.
Hypothesis u4_rows : length u4 = n.

Lemma assembled_length : length (assembled g r u1 u2 u3 u4) = n.
Proof.
  unfold assembled, assign_column, assign_columns, column, descending_sort.
  repeat (rewrite ?length_zip_with, ?length_map). lia.
Qed.

(** Row by row: the sorted triple lands in columns 0, 4 and 5, and each
    dependent field is its own draw times the gap it is scaled by. *)
Lemma assembled_row (i : nat) (row : vector) :
  assembled g r u1 u2 u3 u4 !! i = Some row ->
  exists t s0 s1 s2 x1 x2 x3 x4,
    r !! i = Some t /\ sort_desc t = [s0; s1; s2] /\
    u1 !! i = Some x1 /\ u2 !! i = Some x2 /\
    u3 !! i = Some x3 /\ u4 !! i = Some x4 /\
    row = [s0; x2 * (s0 - s1); x3 * (1 - s0); x1; s1; s2; x4].
Proof.
  unfold assembled, assign_column, assign_columns, column, descending_sort.
  intros H.
  apply lookup_zip_with_Some in H as (e4 & x4 & -> & H & Hx4).
  apply lookup_zip_with_Some in H as (e3 & m3 & -> & H & Hm3).
  apply lookup_zip_with_Some in Hm3 as (x3 & d3 & -> & Hx3 & Hd3).
  rewrite list_lookup_fmap in Hd3. rewrite list_lookup_fmap in Hd3.
  rewrite H in Hd3. simpl in Hd3. injection Hd3 as <-.
  apply lookup_zip_with_Some in H as (e2 & m2 & -> & H & Hm2).
  apply lookup_zip_with_Some in Hm2 as (x2 & d2 & -> & Hx2 & Hd2).
  apply lookup_zip_with_Some in Hd2 as (a & b & -> & Ha & Hb).
  rewrite list_lookup_fmap, H in Ha. simpl in Ha. injection Ha as <-.
  rewrite list_lookup_fmap, H in Hb. simpl in Hb. injection Hb as <-.
  apply lookup_zip_with_Some in H as (e1 & x1 & -> & H & Hx1).
  apply lookup_zip_with_Some in H as (g0 & s & -> & Hg & Hs).
  rewrite list_lookup_fmap in Hs.
  destruct (r !! i) as [t|] eqn:Ht; [|done]. simpl in Hs. injection Hs as <-.
  assert (Hlt : length t = 3%nat).
  { eapply (proj1 (Forall_lookup _ _) r_width); eauto. }
  assert (Hlg : length g0 = 7%nat).
  { eapply (proj1 (Forall_lookup _ _) g_width); eauto. }
  destruct (sort_desc_triple t Hlt) as (s0 & s1 & s2 & Hsort & _).
  exists t, s0, s1, s2, x1, x2, x3, x4.
  rewrite Hsort.
  destruct g0 as [|g0 [|g1 [|g2 [|g3 [|g4 [|g5 [|g6 [|? ?]]]]]]]];
    simpl in Hlg; try lia.
  repeat split; try done.
Qed.
End Assembled.

Lemma py_int_ge_1 (num : Q) : 1 <= num -> (1 <= py_int num)%Z.
Proof.
  unfold Qle, py_int. simpl. intros H.
  apply Z.quot_le_lower_bound; lia.
Qed.

Lemma lcg_unit (s : Z) : in_unit (fst (@random_sample lcg s)).
Proof.
  unfold in_unit, Qle, Qlt. cbn [fst random_sample lcg Qnum Qden].
  unfold lcg_next.
  pose proof (Z.mod_pos_bound (1103515245 * s + 12345) (2 ^ 31)) as H.
  change (Z.pos (2 ^ 31)) with (2 ^ 31)%Z.
  lia.
Qed.

Section Generator.
Context {G : BitGenerator}.

Lemma generate_total (num : Q) (seed : Z) (w : World) :
  valid_seed seed -> (0 <= py_int num)%Z ->
  exists g r u1 u2 u3 u4 w',
    let n := Z.to_nat (py_int num) in
    _generate_raw_environments num seed w
      = inr (assembled g r u1 u2 u3 u4, w') /\
    r = fst (draw_rows n 3 (init_by_seed seed)) /\
    u1 = fst (draws n (snd (draw_rows n 3 (init_by_seed seed)))) /\
    length g = n /\ Forall (fun row => length row = 7%nat) g /\
    length r = n /\ Forall (fun row => length row = 3%nat) r /\
    length u1 = n /\ length u2 = n /\ length u3 = n /\ length u4 = n /\
    ((forall s, in_unit (fst (random_sample s))) ->
     Forall (Forall in_unit) r /\ Forall in_unit u1 /\ Forall in_unit u2 /\
     Forall in_unit u3 /\ Forall in_unit u4).
Proof.
  intros Hs Hn. do 7 eexists. cbv zeta.
  split; [apply generate_run; assumption|].
  split; [reflexivity|]. split; [reflexivity|].
  split; [by rewrite length_map, length_seq|].
  split.
  { apply List.Forall_map, List.Forall_forall. intros i _.
    by rewrite length_map, length_seq. }
  split; [apply draw_rows_length|].
  split; [apply draw_rows_width|].
  repeat (split; [apply draws_length|]).
  intros Hu. split; [by apply draw_rows_unit|].
  repeat split; by apply draws_unit.
Qed.
End Generator.

(** Every run on a valid seed and a nonnegative size returns one row per
    requested environment, each built from a sorted triple of draws and four
    further draws. *)
Lemma generate_rows {G : BitGenerator} (num : Q) (seed : Z) (w : World) :
  valid_seed seed -> (0 <= py_int num)%Z ->
  exists envs w',
    _generate_raw_environments num seed w = inr (envs, w') /\
    length envs = Z.to_nat (py_int num) /\
    Forall (fun e =>
      exists s0 s1 s2 x1 x2 x3 x4,
        e = [s0; x2 * (s0 - s1); x3 * (1 - s0); x1; s1; s2; x4] /\
        s2 <= s1 /\ s1 <= s0 /\
        ((forall s, in_unit (fst (random_sample s))) ->
         in_unit s0 /\ in_unit s1 /\ in_unit s2 /\ in_unit x1 /\
         in_unit x2 /\ in_unit x3 /\ in_unit x4)) envs.
Proof.
  intros Hs Hn.
  destruct (generate_total num seed w Hs Hn)
    as (g & r & u1 & u2 & u3 & u4 & w' & Hrun & _ & _ & Hg & Hgw & Hr & Hrw
        & H1 & H2 & H3 & H4 & Hunit).
  exists (assembled g r u1 u2 u3 u4), w'.
  split; [exact Hrun|].
  split; [by apply assembled_length|].
  apply Forall_lookup. intros i e He.
  destruct (assembled_row g r u1 u2 u3 u4 _ Hg Hgw Hr Hrw H1 H2 H3 H4 i e He)
    as (t & s0 & s1 & s2 & x1 & x2 & x3 & x4
        & Ht & Hsort & Hx1 & Hx2 & Hx3 & Hx4 & ->).
  assert (Hlt : length t = 3%nat).
  { eapply (proj1 (Forall_lookup _ _) Hrw); eauto. }
  destruct (sort_desc_triple t Hlt) as (a & b & c & Hsort' & Hcb & Hba & Hp).
  rewrite Hsort in Hsort'. injection Hsort' as <- <- <-.
  exists s0, s1, s2, x1, x2, x3, x4.
  split; [reflexivity|]. split; [done|]. split; [done|].
  intros Hu. destruct (Hunit Hu) as (Ur & U1 & U2 & U3 & U4).
  assert (Ut : Forall in_unit t).
  { eapply (proj1 (Forall_lookup _ _) Ur); eauto. }
  assert (Us : Forall in_unit [s0; s1; s2]).
  { eapply Permutation_Forall; [symmetry; exact Hp|exact Ut]. }
  inversion Us as [|? ? Us0 Us']; subst.
  inversion Us' as [|? ? Us1 Us'']; subst.
  inversion Us'' as [|? ? Us2 _]; subst.
  repeat split; try (by apply Us0); try (by apply Us1); try (by apply Us2);
    try (eapply (proj1 (Forall_lookup _ _) U1 i); eassumption);
    try (eapply (proj1 (Forall_lookup _ _) U2 i); eassumption);
    try (eapply (proj1 (Forall_lookup _ _) U3 i); eassumption);
    try (eapply (proj1 (Forall_lookup _ _) U4 i); eassumption).
Qed.

(** C4.  For every population size N >= 1 and every valid seed the refined
    generator returns its N environments, and each of them is ordered
    win_down >= win0 >= win_up: the win probability does not increase from
    the downward deviation through zero to the upward deviation. *)
Theorem generated_environments_ordered {G : BitGenerator}
    (num : Q) (seed : Z) (w : World) :
  valid_seed seed -> 1 <= num ->
  exists envs w',
    _generate_raw_environments num seed w = inr (envs, w') /\
    length envs = Z.to_nat (py_int num) /\
    Forall (fun e =>
      environment e (fun win_down _ _ _ win0 win_up _ =>
        win_up <= win0 /\ win0 <= win_down)) envs.
Proof.
  intros Hs Hnum.
  pose proof (py_int_ge_1 num Hnum) as Hn.
  destruct (generate_rows num seed w Hs ltac:(lia))
    as (envs & w' & Hrun & Hlen & Hrows).
  exists envs, w'. split; [exact Hrun|]. split; [exact Hlen|].
  eapply Forall_impl; [exact Hrows|].
  intros e (s0 & s1 & s2 & x1 & x2 & x3 & x4 & -> & H21 & H10 & _).
  unfold environment. by do 7 eexists.
Qed.

Lemma generated_environments_ordered_witness :
  valid_seed 7 /\ 1 <= 2 /\
  exists envs w',
    @_generate_raw_environments lcg 2 7 (lcg_world 99) = inr (envs, w') /\
    length envs = 2%nat /\
    Forall (fun e =>
      environment e (fun win_down _ _ _ win0 win_up _ =>
        win_up <= win0 /\ win0 <= win_down)) envs.
Proof.
  assert (Hs : valid_seed 7) by (unfold valid_seed; lia).
  assert (Hn : 1 <= 2) by (unfold Qle; simpl; lia).
  split; [exact Hs|]. split; [exact Hn|].
  exact (@generated_environments_ordered lcg 2 7 (lcg_world 99) Hs Hn).
Defined.

(** C8.  With the generator's draws in [0, 1), every environment of a
    population of size N >= 1 has its dependent fields inside their gaps:
    0 <= marg_cont <= win_down - win0 and 0 <= marg_info <= 1 - win_down. *)
Theorem generated_dependent_fields_in_range {G : BitGenerator}
    (random_sample_unit : forall s, in_unit (fst (random_sample s)))
    (num : Q) (seed : Z) (w : World) :
  valid_seed seed -> 1 <= num ->
  exists envs w',
    _generate_raw_environments num seed w = inr (envs, w') /\
    length envs = Z.to_nat (py_int num) /\
    Forall (fun e =>
      environment e (fun win_down marg_cont marg_info _ win0 _ _ =>
        (0 <= marg_cont /\ marg_cont <= win_down - win0) /\
        (0 <= marg_info /\ marg_info <= 1 - win_down))) envs.
Proof.
  intros Hs Hnum.
  pose proof (py_int_ge_1 num Hnum) as Hn.
  destruct (generate_rows num seed w Hs ltac:(lia))
    as (envs & w' & Hrun & Hlen & Hrows).
  exists envs, w'. split; [exact Hrun|]. split; [exact Hlen|].
  eapply Forall_impl; [exact Hrows|].
  intros e (s0 & s1 & s2 & x1 & x2 & x3 & x4 & -> & H21 & H10 & Hu).
  destruct (Hu random_sample_unit)
    as ([? ?] & _ & _ & _ & [? ?] & [? ?] & _).
  unfold environment. do 7 eexists. split; [reflexivity|].
  repeat split; nra.
Qed.

Lemma generated_dependent_fields_in_range_witness :
  (forall s, in_unit (fst (@random_sample lcg s))) /\
  valid_seed 7 /\ 1 <= 2 /\
  exists envs w',
    @_generate_raw_environments lcg 2 7 (lcg_world 99) = inr (envs, w') /\
    length envs = 2%nat /\
    Forall (fun e =>
      environment e (fun win_down marg_cont marg_info _ win0 _ _ =>
        (0 <= marg_cont /\ marg_cont <= win_down - win0) /\
        (0 <= marg_info /\ marg_info <= 1 - win_down))) envs.
Proof.
  assert (Hs : valid_seed 7) by (unfold valid_seed; lia).
  assert (Hn : 1 <= 2) by (unfold Qle; simpl; lia).
  split; [exact lcg_unit|]. split; [exact Hs|]. split; [exact Hn|].
  exact (@generated_dependent_fields_in_range lcg lcg_unit 2 7
           (lcg_world 99) Hs Hn).
Defined.

(** The memory handed out by [np.empty] does not survive: every cell of it
    is overwritten. *)
Lemma assembled_memory_irrelevant (g g' r : matrix) (u1 u2 u3 u4 : vector)
    (n : nat) :
  length g = n -> Forall (fun row => length row = 7%nat) g ->
  length g' = n -> Forall (fun row => length row = 7%nat) g' ->
  length r = n -> Forall (fun row => length row = 3%nat) r ->
  length u1 = n -> length u2 = n -> length u3 = n -> length u4 = n ->
  assembled g r u1 u2 u3 u4 = assembled g' r u1 u2 u3 u4.
Proof.
  intros Hg Hgw Hg' Hgw' Hr Hrw H1 H2 H3 H4.
  pose proof (assembled_length g r u1 u2 u3 u4 n Hg Hr H1 H2 H3 H4) as L.
  pose proof (assembled_length g' r u1 u2 u3 u4 n Hg' Hr H1 H2 H3 H4) as L'.
  apply list_eq. intros i.
  destruct (assembled g r u1 u2 u3 u4 !! i) as [e|] eqn:E;
    destruct (assembled g' r u1 u2 u3 u4 !! i) as [e'|] eqn:E'.
  - destruct (assembled_row g r u1 u2 u3 u4 _ Hg Hgw Hr Hrw H1 H2 H3 H4 i e E)
      as (t & s0 & s1 & s2 & x1 & x2 & x3 & x4
          & Ht & Hsort & Hx1 & Hx2 & Hx3 & Hx4 & ->).
    destruct (assembled_row g' r u1 u2 u3 u4 _ Hg' Hgw' Hr Hrw H1 H2 H3 H4
                i e' E')
      as (t' & s0' & s1' & s2' & x1' & x2' & x3' & x4'
          & Ht' & Hsort' & Hx1' & Hx2' & Hx3' & Hx4' & ->).
    congruence.
  - apply lookup_lt_Some in E. apply lookup_ge_None in E'. lia.
  - apply lookup_ge_None in E. apply lookup_lt_Some in E'. lia.
  - reflexivity.
Qed.

(** C5.  The generator is a function of (N, seed) alone: whatever the state
    of the process-wide generator and of uninitialised memory before the
    call, two calls with the same arguments return the same outcome, and on
    success the same population entry for entry. *)
Theorem generate_deterministic {G : BitGenerator}
    (num : Q) (seed : Z) (w1 w2 : World) :
  returned (_generate_raw_environments num seed w1)
  = returned (_generate_raw_environments num seed w2).
Proof.
  destruct ((0 <=? seed)%Z && (seed <? 2 ^ 32)%Z)%bool eqn:Hv.
  - destruct (py_int num <? 0)%Z eqn:Hn.
    + unfold _generate_raw_environments, bind, np_random_seed, np_empty.
      by rewrite Hv, Hn.
    + apply andb_true_iff in Hv as [Hv1 Hv2].
      apply Z.leb_le in Hv1. apply Z.ltb_lt in Hv2. apply Z.ltb_ge in Hn.
      rewrite (generate_run num seed w1), (generate_run num seed w2)
        by (done || split; done).
      cbv zeta. cbn [returned]. f_equal.
      apply (assembled_memory_irrelevant _ _ _ _ _ _ _
               (Z.to_nat (py_int num)));
        first [ apply draw_rows_length
              | apply draws_length
              | apply draw_rows_width
              | by rewrite length_map, length_seq
              | apply List.Forall_map, List.Forall_forall; intros i _;
                by rewrite length_map, length_seq ].
  - unfold _generate_raw_environments, bind, np_random_seed.
    by rewrite Hv.
Qed.

(** C7, as the code has it.  On a valid seed the generator returns exactly
    int(N) rows of seven fields whenever int(N) >= 0, so N rows for a
    positive integer N and the empty population for N = 0; it raises
    [ValueError], from the allocation of the array, when int(N) < 0. *)
Theorem generate_population_size {G : BitGenerator}
    (num : Q) (seed : Z) (w : World) :
  valid_seed seed ->
  ((0 <= py_int num)%Z ->
   exists envs w',
     _generate_raw_environments num seed w = inr (envs, w') /\
     length envs = Z.to_nat (py_int num) /\
     Forall (fun e => length e = 7%nat) envs) /\
  ((py_int num < 0)%Z ->
   _generate_raw_environments num seed w = inl ValueError).
Proof.
  intros Hs. split.
  - intros Hn.
    destruct (generate_rows num seed w Hs Hn)
      as (envs & w' & Hrun & Hlen & Hrows).
    exists envs, w'. split; [exact Hrun|]. split; [exact Hlen|].
    eapply Forall_impl; [exact Hrows|].
    by intros e (s0 & s1 & s2 & x1 & x2 & x3 & x4 & -> & _).
  - intros Hn. destruct Hs as [Hs1 Hs2].
    unfold _generate_raw_environments, bind, np_random_seed, np_empty.
    assert (Hv : ((0 <=? seed)%Z && (seed <? 2 ^ 32)%Z)%bool = true).
    { apply andb_true_iff. split; [by apply Z.leb_le|by apply Z.ltb_lt]. }
    apply Z.ltb_lt in Hn. by rewrite Hv, Hn.
Qed.

Lemma generate_population_size_witness :
  valid_seed 7 /\
  ((0 <= py_int 2)%Z ->
   exists envs w',
     @_generate_raw_environments lcg 2 7 (lcg_world 99) = inr (envs, w') /\
     length envs = Z.to_nat (py_int 2) /\
     Forall (fun e => length e = 7%nat) envs) /\
  ((py_int 2 < 0)%Z ->
   @_generate_raw_environments lcg 2 7 (lcg_world 99) = inl ValueError).
Proof.
  assert (Hs : valid_seed 7) by (unfold valid_seed; lia).
  split; [exact Hs|].
  exact (@generate_population_size lcg 2 7 (lcg_world 99) Hs).
Defined.

(** C7, as stated, fails at N = 0: the call succeeds with the empty
    population instead of an invalid-argument failure. *)
Lemma generate_zero_population_succeeds :
  returned (@_generate_raw_environments lcg 0 7 (lcg_world 99)) = inr [] /\
  ~ (exists e,
       returned (@_generate_raw_environments lcg 0 7 (lcg_world 99)) = inl e).
Proof.
  split; [reflexivity|]. intros [e He]. vm_compute in He. discriminate.
Qed.

(** ** Ordered deviations *)


Lemma Qlt_bool_true (x y : Q) : Qlt_bool x y = true <-> x < y.
Proof.
  unfold Qlt_bool. rewrite negb_true_iff. split.
  - intros H. apply Qnot_le_lt. intros Hle.
    apply Qle_bool_iff in Hle. congruence.
  - intros H. destruct (Qle_bool y x) eqn:E; [|done].
    apply Qle_bool_iff in E. lra.
Qed.

Lemma Qlt_bool_false (x y : Q) : Qlt_bool x y = false <-> y <= x.
Proof.
  unfold Qlt_bool. rewrite negb_false_iff. apply Qle_bool_iff.
Qed.

Lemma Qle_bool_false (x y : Q) : Qle_bool x y = false <-> y < x.
Proof.
  rewrite <- Qlt_bool_true. unfold Qlt_bool.
  by rewrite negb_true_iff.
Qed.

Lemma filter_differing_notin (x : Q) (l : vector) :
  ~ InA Qeq x (List.filter (fun y => negb (Qeq_bool x y)) l).
Proof.
  intros H. apply InA_alt in H as (y & Hxy & Hin).
  apply filter_In in Hin as [_ Hne].
  apply negb_true_iff in Hne.
  apply Qeq_bool_iff in Hxy. congruence.
Qed.

Lemma NoDupA_filter (f : Q -> bool) (l : vector) :
  NoDupA Qeq l -> NoDupA Qeq (List.filter f l).
Proof.
  induction 1 as [|x l Hx Hl IH]; simpl; [constructor|].
  destruct (f x); [|exact IH].
  constructor; [|exact IH].
  intros H. apply Hx. apply InA_alt in H as (y & Hxy & Hin).
  apply filter_In in Hin as [Hin _].
  apply InA_alt. eauto.
Qed.

Lemma py_set_NoDupA (l : vector) : NoDupA Qeq (py_set l).
Proof.
  induction l as [|x l IH]; simpl; constructor.
  - apply filter_differing_notin.
  - by apply NoDupA_filter.
Qed.

Lemma py_set_In (l : vector) (x : Q) : In x (py_set l) -> In x l.
Proof.
  revert x. induction l as [|y l IH]; simpl; intros x; [done|].
  intros [->|H]; [by left|].
  apply filter_In in H as [H _]. right. by apply IH.
Qed.

Lemma py_set_complete (l : vector) (x : Q) :
  In x l -> exists y, In y (py_set l) /\ y == x.
Proof.
  induction l as [|z l IH]; simpl; [done|].
  intros [->|H].
  - exists x. split; [by left|reflexivity].
  - destruct (IH H) as (y & Hy & Hyx).
    destruct (Qeq_bool z y) eqn:E.
    + exists z. split; [by left|]. apply Qeq_bool_iff in E. lra.
    + exists y. split; [|done]. right.
      apply filter_In. split; [done|]. by rewrite E.
Qed.

Lemma insert_asc_perm (x : Q) (l : vector) :
  Permutation (insert_asc x l) (x :: l).
Proof.
  induction l as [|y l IH]; simpl; [reflexivity|].
  destruct (Qle_bool x y); [reflexivity|].
  rewrite IH. apply perm_swap.
Qed.

Lemma np_sort_perm (l : vector) : Permutation (np_sort l) l.
Proof.
  induction l as [|x l IH]; simpl; [reflexivity|].
  rewrite insert_asc_perm. by constructor.
Qed.

Lemma insert_asc_strict (x : Q) (l : vector) :
  StronglySorted Qlt l -> ~ InA Qeq x l ->
  StronglySorted Qlt (insert_asc x l).
Proof.
  induction l as [|y l IH]; simpl; intros Hs Hx.
  - repeat constructor.
  - inversion Hs as [|? ? Hs' Hall]; subst.
    assert (Hxy : ~ x == y) by (intros E; apply Hx; by left).
    assert (Hxl : ~ InA Qeq x l) by (intros E; apply Hx; by right).
    destruct (Qle_bool x y) eqn:E.
    + apply Qle_bool_iff in E.
      assert (x < y) by lra.
      constructor; [done|]. constructor; [done|].
      eapply Forall_impl; [exact Hall|]. intros z Hz. simpl in Hz. lra.
    + apply Qle_bool_false in E.
      constructor; [by apply IH|].
      eapply Permutation_Forall; [symmetry; apply insert_asc_perm|].
      by constructor.
Qed.

Lemma np_sort_strict (l : vector) :
  NoDupA Qeq l -> StronglySorted Qlt (np_sort l).
Proof.
  induction 1 as [|x l Hx Hl IH]; simpl; [constructor|].
  apply insert_asc_strict; [exact IH|].
  intros H. apply Hx. apply InA_alt in H as (y & Hxy & Hin).
  apply InA_alt. exists y. split; [done|].
  eapply Permutation_in; [apply np_sort_perm|done].
Qed.

(** What [_ordered_deviations] returns: the profile and zero, each numeric
    value once, strictly increasing. *)
Lemma ordered_deviations_spec (deviations : vector) :
  let dev := _ordered_deviations deviations in
  StronglySorted Qlt dev /\ In 0 dev /\
  (forall x, In x dev -> x = 0 \/ In x deviations) /\
  (forall x, In x deviations -> exists y, In y dev /\ y == x).
Proof.
  unfold _ordered_deviations. cbv zeta.
  pose proof (np_sort_perm (py_set (0 :: deviations))) as Hp.
  split; [apply np_sort_strict, py_set_NoDupA|].
  split.
  { eapply Permutation_in; [symmetry; exact Hp|]. by left. }
  split.
  - intros x Hx.
    apply (Permutation_in _ Hp) in Hx. apply py_set_In in Hx.
    destruct Hx as [<-|Hx]; [by left|by right].
  - intros x Hx.
    destruct (py_set_complete (0 :: deviations) x) as (y & Hy & Hyx);
      [by right|].
    exists y. split; [|done].
    eapply Permutation_in; [symmetry; exact Hp|done].
Qed.

Ltac destruct_comparisons :=
  repeat match goal with
    | |- context [Qlt_bool ?a ?b] =>
        let E := fresh "E" in
        destruct (Qlt_bool a b) eqn:E;
        [apply Qlt_bool_true in E|apply Qlt_bool_false in E]
    end.

(** A strictly increasing list that holds zero, one negative and one
    positive entry is a triple around zero. *)
Lemma one_down_one_up_triple (dev : vector) :
  StronglySorted Qlt dev -> In 0 dev ->
  count_negative dev = 1%nat -> count_positive dev = 1%nat ->
  exists a b, dev = [a; 0; b] /\ a < 0 /\ 0 < b.
Proof.
  intros Hs H0.
  destruct dev as [|x [|y [|z [|t rest]]]].
  - done.
  - unfold count_negative, count_positive. simpl.
    destruct_comparisons; simpl; intros; first [lia|lra].
  - apply StronglySorted_inv in Hs as [_ Hx].
    inversion Hx as [|? ? Hxy _]; subst.
    unfold count_negative, count_positive. simpl.
    destruct H0 as [<-|[<-|[]]];
      destruct_comparisons; simpl; intros; first [lia|lra].
  - apply StronglySorted_inv in Hs as [Hs Hx].
    apply StronglySorted_inv in Hs as [_ Hy].
    inversion Hx as [|? ? Hxy Hx']; subst.
    inversion Hx' as [|? ? Hxz _]; subst.
    inversion Hy as [|? ? Hyz _]; subst.
    unfold count_negative, count_positive. simpl.
    destruct H0 as [<-|[<-|[<-|[]]]];
      destruct_comparisons; simpl; intros; try first [lia|lra].
    exists x, z. done.
  - apply StronglySorted_inv in Hs as [Hs Hx].
    apply StronglySorted_inv in Hs as [Hs Hy].
    apply StronglySorted_inv in Hs as [_ Hz].
    inversion Hx as [|? ? Hxy Hx']; subst.
    inversion Hy as [|? ? Hyz Hy']; subst.
    inversion Hy' as [|? ? Hyt _]; subst.
    inversion Hz as [|? ? Hzt _]; subst.
    clear Hx Hx' Hy Hy' Hz H0.
    unfold count_negative, count_positive. simpl.
    destruct_comparisons; simpl; intros; first [lia|lra].
Qed.

Lemma NoDupA_all_equal (d : Q) (l : vector) :
  NoDupA Qeq l -> (forall x, In x l -> x == d) -> (length l <= 1)%nat.
Proof.
  intros Hnd Hall.
  destruct l as [|x [|y l]]; simpl; try lia.
  exfalso. inversion Hnd as [|? ? Hx _]; subst.
  apply Hx. left.
  rewrite (Hall x), (Hall y); [reflexivity|by right; left|by left].
Qed.

Lemma StronglySorted_Qlt_NoDupA (l : vector) :
  StronglySorted Qlt l -> NoDupA Qeq l.
Proof.
  induction 1 as [|x l Hs IH Hx]; constructor; [|exact IH].
  intros H. apply InA_alt in H as (y & Hxy & Hin).
  pose proof (proj1 (List.Forall_forall _ _) Hx y Hin) as Hlt.
  simpl in Hlt. lra.
Qed.

Section Counting.
Variable P : Q -> Prop.
Variable p : Q -> bool.
Hypothesis p_spec : forall x, p x = true <-> P x.
Hypothesis P_proper : forall x y, x == y -> P x -> P y.
Hypothesis P_nonzero : ~ P 0.

(** Counting a kind among the ordered deviations is counting its values
    in the profile. *)
Lemma count_one_deviation (deviations : vector) :
  length (List.filter p (_ordered_deviations deviations)) = 1%nat
  <-> one_deviation P deviations.
Proof.
  destruct (ordered_deviations_spec deviations)
    as (Hs & _ & Hsound & Hcomplete).
  set (dev := _ordered_deviations deviations) in *.
  split.
  - intros Hc.
    destruct (List.filter p dev) as [|d [|? ?]] eqn:E; simpl in Hc; try lia.
    assert (Hd : In d (List.filter p dev)) by (rewrite E; by left).
    apply filter_In in Hd as [Hd Hpd]. apply p_spec in Hpd.
    exists d. split; [|split; [done|]].
    + destruct (Hsound d Hd) as [->|]; [by destruct P_nonzero|done].
    + intros d' Hin HP.
      destruct (Hcomplete d' Hin) as (y & Hy & Hyd).
      assert (Hy' : In y (List.filter p dev)).
      { apply filter_In. split; [done|]. apply p_spec.
        eapply P_proper; [symmetry; exact Hyd|done]. }
      rewrite E in Hy'. destruct Hy' as [<-|[]]. by symmetry.
  - intros (d & Hin & HP & Huniq).
    destruct (Hcomplete d Hin) as (y & Hy & Hyd).
    assert (Hy' : In y (List.filter p dev)).
    { apply filter_In. split; [done|]. apply p_spec.
      eapply P_proper; [symmetry; exact Hyd|done]. }
    assert (Hle : (length (List.filter p dev) <= 1)%nat).
    { apply (NoDupA_all_equal d).
      - by apply NoDupA_filter, StronglySorted_Qlt_NoDupA.
      - intros x Hx. apply filter_In in Hx as [Hx Hpx].
        apply p_spec in Hpx.
        destruct (Hsound x Hx) as [->|Hx']; [by destruct P_nonzero|].
        by apply Huniq. }
    destruct (List.filter p dev); [done|]. simpl in *. lia.
Qed.
End Counting.

Lemma count_negative_one (deviations : vector) :
  count_negative (_ordered_deviations deviations) = 1%nat
  <-> one_deviation (fun d => d < 0) deviations.
Proof.
  apply count_one_deviation.
  - intros x. apply Qlt_bool_true.
  - intros x y Hxy Hx. lra.
  - lra.
Qed.

Lemma count_positive_one (deviations : vector) :
  count_positive (_ordered_deviations deviations) = 1%nat
  <-> one_deviation (fun d => 0 < d) deviations.
Proof.
  apply count_one_deviation.
  - intros x. apply Qlt_bool_true.
  - intros x y Hxy Hx. lra.
  - lra.
Qed.

(** The check, in terms of the profile it is given. *)
Lemma check_up_down_deviations_spec (deviations : vector) :
  (_check_up_down_deviations deviations = inr tt <->
   one_deviation (fun d => d < 0) deviations /\
   one_deviation (fun d => 0 < d) deviations) /\
  (_check_up_down_deviations deviations = inl ValueError <->
   ~ (one_deviation (fun d => d < 0) deviations /\
      one_deviation (fun d => 0 < d) deviations)).
Proof.
  rewrite <- count_negative_one, <- count_positive_one.
  unfold _check_up_down_deviations. cbv zeta.
  destruct (Nat.eqb_spec (count_negative (_ordered_deviations deviations)) 1)
    as [-> | Hn];
    destruct (Nat.eqb_spec (count_positive (_ordered_deviations deviations)) 1)
    as [-> | Hp]; simpl; split; split;
    try done; try tauto; intros [? ?]; done.
Qed.

Lemma check_passes_triple (deviations : vector) :
  _check_up_down_deviations deviations = inr tt ->
  exists a b,
    _ordered_deviations deviations = [a; 0; b] /\
    (a < 0 /\ In a deviations) /\ (0 < b /\ In b deviations).
Proof.
  intros Hc.
  destruct (ordered_deviations_spec deviations) as (Hs & H0 & Hsound & _).
  unfold _check_up_down_deviations in Hc. cbv zeta in Hc.
  destruct (Nat.eqb_spec (count_negative (_ordered_deviations deviations)) 1)
    as [Hn|]; [|done].
  destruct (Nat.eqb_spec (count_positive (_ordered_deviations deviations)) 1)
    as [Hp|]; [|done].
  destruct (one_down_one_up_triple _ Hs H0 Hn Hp) as (a & b & E & Ha & Hb).
  exists a, b. split; [exact E|].
  rewrite E in Hsound. split; split; try done.
  - destruct (Hsound a) as [->|]; [by left|lra|done].
  - destruct (Hsound b) as [->|]; [by right; right; left|lra|done].
Qed.

(** C2.  Constructing the refined metric validates the profile first: a
    profile without exactly one strictly negative and exactly one strictly
    positive deviation is refused with [ValueError]; with exactly one of
    each the construction succeeds, and the object holds the downward
    deviation, zero and the upward deviation.  The constructor is a function
    of the profile alone: it draws nothing and solves nothing. *)
Theorem refined_metric_construction (deviations : vector) :
  (~ (one_deviation (fun d => d < 0) deviations /\
      one_deviation (fun d => 0 < d) deviations) ->
   RefinedMultistageIsNonCompetitive.__init__ deviations = inl ValueError) /\
  (one_deviation (fun d => d < 0) deviations /\
   one_deviation (fun d => 0 < d) deviations ->
   exists self,
     RefinedMultistageIsNonCompetitive.__init__ deviations = inr self /\
     RefinedMultistageIsNonCompetitive._deviations self
     = [RefinedMultistageIsNonCompetitive.rho_down self; 0;
        RefinedMultistageIsNonCompetitive.rho_up self] /\
     (RefinedMultistageIsNonCompetitive.rho_down self < 0 /\
      In (RefinedMultistageIsNonCompetitive.rho_down self) deviations) /\
     (0 < RefinedMultistageIsNonCompetitive.rho_up self /\
      In (RefinedMultistageIsNonCompetitive.rho_up self) deviations)).
Proof.
  destruct (check_up_down_deviations_spec deviations) as [Hok Herr].
  unfold RefinedMultistageIsNonCompetitive.__init__, and_then.
  split.
  - intros H. apply Herr in H. by rewrite H.
  - intros H. apply Hok in H.
    destruct (check_passes_triple deviations H) as (a & b & E & Ha & Hb).
    rewrite H, E. eexists. split; [reflexivity|]. simpl. done.
Qed.

Lemma refined_metric_construction_witness :
  (~ (one_deviation (fun d => d < 0) [2 # 100] /\
      one_deviation (fun d => 0 < d) [2 # 100]) /\
   RefinedMultistageIsNonCompetitive.__init__ [2 # 100] = inl ValueError) /\
  ((one_deviation (fun d => d < 0) [-2 # 100; 2 # 100] /\
    one_deviation (fun d => 0 < d) [-2 # 100; 2 # 100]) /\
   exists self,
     RefinedMultistageIsNonCompetitive.__init__ [-2 # 100; 2 # 100]
     = inr self /\
     RefinedMultistageIsNonCompetitive._deviations self
     = [RefinedMultistageIsNonCompetitive.rho_down self; 0;
        RefinedMultistageIsNonCompetitive.rho_up self] /\
     (RefinedMultistageIsNonCompetitive.rho_down self < 0 /\
      In (RefinedMultistageIsNonCompetitive.rho_down self)
         [-2 # 100; 2 # 100]) /\
     (0 < RefinedMultistageIsNonCompetitive.rho_up self /\
      In (RefinedMultistageIsNonCompetitive.rho_up self)
         [-2 # 100; 2 # 100])).
Proof.
  assert (Hbad : ~ (one_deviation (fun d => d < 0) [2 # 100] /\
                    one_deviation (fun d => 0 < d) [2 # 100])).
  { intros [(d & Hin & Hd & _) _]. destruct Hin as [<-|[]].
    vm_compute in Hd. discriminate. }
  assert (H : one_deviation (fun d => d < 0) [-2 # 100; 2 # 100] /\
              one_deviation (fun d => 0 < d) [-2 # 100; 2 # 100]).
  { split.
    - exists (-2 # 100). split; [by left|]. split; [reflexivity|].
      intros d' [<-|[<-|[]]] Hd; [reflexivity|].
      vm_compute in Hd. discriminate.
    - exists (2 # 100). split; [by right; left|]. split; [reflexivity|].
      intros d' [<-|[<-|[]]] Hd; [|reflexivity].
      vm_compute in Hd. discriminate. }
  split.
  - split; [exact Hbad|].
    exact (proj1 (refined_metric_construction [2 # 100]) Hbad).
  - split; [exact H|].
    exact (proj2 (refined_metric_construction [-2 # 100; 2 # 100]) H).
Defined.

(** C6.  For a metric built from a one-down/one-up profile and an
    environment (win_down, marg_cont, marg_info, reserve, win0, win_up,
    cost) the payoff vector is
    [win_down (1 + rho_down - cost) + marg_cont (reserve - cost)
       + 0.5 marg_info (reserve - cost),
     win0 (1 - cost), win_up (1 + rho_up - cost)],
    where rho_down and rho_up are the profile's negative and positive
    deviations. *)
Theorem refined_payoffs (deviations : vector)
    (self : RefinedMultistageIsNonCompetitive.t)
    (win_down marg_cont marg_info reserve win0 win_up cost : Q) :
  RefinedMultistageIsNonCompetitive.__init__ deviations = inr self ->
  let rho_down := RefinedMultistageIsNonCompetitive.rho_down self in
  let rho_up := RefinedMultistageIsNonCompetitive.rho_up self in
  (rho_down < 0 /\ In rho_down deviations) /\
  (0 < rho_up /\ In rho_up deviations) /\
  exists payoff_down payoff0 payoff_up,
    RefinedMultistageIsNonCompetitive._get_payoffs self
      [win_down; marg_cont; marg_info; reserve; win0; win_up; cost]
    = inr [payoff_down; payoff0; payoff_up] /\
    payoff_down == win_down * (1 + rho_down - cost)
                   + marg_cont * (reserve - cost)
                   + (1 # 2) * marg_info * (reserve - cost) /\
    payoff0 == win0 * (1 - cost) /\
    payoff_up == win_up * (1 + rho_up - cost).
Proof.
  intros Hinit. cbv zeta.
  unfold RefinedMultistageIsNonCompetitive.__init__, and_then in Hinit.
  destruct (_check_up_down_deviations deviations) as [|[]] eqn:Hc; [done|].
  destruct (check_passes_triple deviations Hc) as (a & b & E & Ha & Hb).
  rewrite E in Hinit. injection Hinit as <-. simpl.
  split; [done|]. split; [done|].
  do 3 eexists. split; [reflexivity|].
  unfold RefinedMultistageIsNonCompetitive.coeff_marginal_cont,
    RefinedMultistageIsNonCompetitive.coeff_marginal_info.
  repeat split; ring.
Qed.

Lemma refined_payoffs_witness :
  exists self,
    RefinedMultistageIsNonCompetitive.__init__ [-2 # 100; 2 # 100]
    = inr self /\
    exists payoff_down payoff0 payoff_up,
      RefinedMultistageIsNonCompetitive._get_payoffs self
        [6 # 10; 1 # 10; 1 # 10; 9 # 10; 5 # 10; 4 # 10; 8 # 10]
      = inr [payoff_down; payoff0; payoff_up] /\
      payoff_down == (6 # 10) * (1 + (-2 # 100) - (8 # 10))
                     + (1 # 10) * ((9 # 10) - (8 # 10))
                     + (1 # 2) * (1 # 10) * ((9 # 10) - (8 # 10)) /\
      payoff0 == (5 # 10) * (1 - (8 # 10)) /\
      payoff_up == (4 # 10) * (1 + (2 # 100) - (8 # 10)).
Proof.
  eexists. split; [reflexivity|].
  exact (proj2 (proj2
    (refined_payoffs [-2 # 100; 2 # 100] _
       (6 # 10) (1 # 10) (1 # 10) (9 # 10) (5 # 10) (4 # 10) (8 # 10)
       eq_refl))).
Defined.

(** ** The multistage metric *)

Lemma all_upward_dev_true (deviations : vector) :
  (forall d, In d deviations -> 0 <= d) ->
  MultistageIsNonCompetitive.all_upward_dev
    (MultistageIsNonCompetitive.__init__ deviations) = true.
Proof.
  intros H. unfold MultistageIsNonCompetitive.all_upward_dev. simpl.
  destruct (ordered_deviations_spec deviations) as (_ & _ & Hsound & _).
  apply forallb_forall. intros d Hd. apply Qle_bool_iff.
  destruct (Hsound d Hd) as [->|Hin]; [lra|by apply H].
Qed.

(** C1.  On an environment (win_down, marg_cont, marg_info, reserve, win0,
    win_up, cost) and a one-down/one-up profile, with the payoffs
    (p_down, p0, p_up) of the three ordered deviations, the multistage metric
    is true exactly when the downward payoff less its penalty, or the upward
    payoff, strictly exceeds the equilibrium payoff p0; the penalty is
    (max_win_prob - win_down) times the magnitude of the downward deviation.
    For any profile without a negative deviation the downward check returns
    false without looking at the environment. *)
Theorem multistage_non_competitive_iff
    (_get_payoffs : vector -> vector -> result vector)
    (deviations : vector)
    (win_down marg_cont marg_info reserve win0 win_up cost : Q)
    (p_down p0 p_up : Q) :
  let self := MultistageIsNonCompetitive.__init__ deviations in
  let env := [win_down; marg_cont; marg_info; reserve; win0; win_up; cost] in
  _check_up_down_deviations deviations = inr tt ->
  _get_payoffs (MultistageIsNonCompetitive._deviations self) env
  = inr [p_down; p0; p_up] ->
  (exists rho_down rho_up,
     MultistageIsNonCompetitive._deviations self = [rho_down; 0; rho_up] /\
     rho_down < 0 /\ 0 < rho_up /\
     let penalty :=
       (MultistageIsNonCompetitive.max_win_prob - win_down) * Qabs rho_down in
     exists flag,
       MultistageIsNonCompetitive.__call__ _get_payoffs self env = inr flag /\
       (flag = true <-> p0 < p_down - penalty \/ p0 < p_up)) /\
  (forall upward any_env,
     (forall d, In d upward -> 0 <= d) ->
     MultistageIsNonCompetitive._downward_non_ic _get_payoffs
       (MultistageIsNonCompetitive.__init__ upward) any_env = inr false).
Proof.
  intros self env Hc Hp. split.
  - destruct (check_passes_triple deviations Hc)
      as (a & b & E & [Ha _] & [Hb _]).
    exists a, b. split; [exact E|]. split; [exact Ha|]. split; [exact Hb|].
    cbv zeta.
    assert (Habs : Qabs a == - a) by (apply Qabs_neg; lra).
    assert (Ea : Qeq_bool a 0 = false).
    { destruct (Qeq_bool a 0) eqn:Ea; [|done].
      apply Qeq_bool_iff in Ea. lra. }
    assert (El : Qle_bool 0 a = false) by (apply Qle_bool_false; lra).
    unfold MultistageIsNonCompetitive.__call__,
      MultistageIsNonCompetitive._downward_non_ic,
      MultistageIsNonCompetitive._upward_non_ic,
      MultistageIsNonCompetitive._get_penalty,
      MultistageIsNonCompetitive.all_upward_dev.
    fold self. fold env. rewrite Hp.
    unfold self at 1 2 3 4 5. simpl MultistageIsNonCompetitive._deviations.
    rewrite E. simpl. rewrite Ea, El. simpl.
    eexists. split; [reflexivity|].
    rewrite orb_true_iff, !Qlt_bool_true.
    unfold MultistageIsNonCompetitive.max_win_prob.
    set (m := Qabs a) in *. clearbody m.
    assert (Hm : (1 - win_down) * m == - ((1 - win_down) * a))
      by (rewrite Habs; ring).
    set (pen := (1 - win_down) * m) in *. clearbody pen.
    destruct (Qlt_bool p0 p_up) eqn:Eu;
      [apply Qlt_bool_true in Eu|apply Qlt_bool_false in Eu];
      split; intros [H|H]; first [left; lra|right; lra|lra].
  - intros upward any_env Hup.
    unfold MultistageIsNonCompetitive._downward_non_ic.
    by rewrite all_upward_dev_true.
Qed.

Lemma multistage_non_competitive_iff_witness :
  let deviations := [-2 # 100; 2 # 100] in
  let env := [6 # 10; 1 # 10; 1 # 10; 9 # 10; 5 # 10; 4 # 10; 8 # 10] in
  let p_down := (6 # 10) * (1 + (-2 # 100) - (8 # 10)) in
  let p0 := (5 # 10) * (1 + 0 - (8 # 10)) in
  let p_up := (4 # 10) * (1 + (2 # 100) - (8 # 10)) in
  let self := MultistageIsNonCompetitive.__init__ deviations in
  _check_up_down_deviations deviations = inr tt /\
  win_payoffs (MultistageIsNonCompetitive._deviations self) env
  = inr [p_down; p0; p_up] /\
  exists rho_down rho_up,
    MultistageIsNonCompetitive._deviations self = [rho_down; 0; rho_up] /\
    rho_down < 0 /\ 0 < rho_up /\
    exists flag,
      MultistageIsNonCompetitive.__call__ win_payoffs self env = inr flag /\
      (flag = true <->
       p0 < p_down - (MultistageIsNonCompetitive.max_win_prob - (6 # 10))
                     * Qabs rho_down
       \/ p0 < p_up).
Proof.
  cbv zeta.
  split; [reflexivity|]. split; [reflexivity|].
  exact (proj1 (multistage_non_competitive_iff win_payoffs
                  [-2 # 100; 2 # 100]
                  (6 # 10) (1 # 10) (1 # 10) (9 # 10) (5 # 10) (4 # 10)
                  (8 # 10) _ _ _ eq_refl eq_refl)).
Defined.

(** ** The moment constraint *)

Lemma scaled_le (x y : Q) : 100 * x <= 100 * y <-> x <= y.
Proof. split; intros H; lra. Qed.

Lemma Forall2_scaled (u v : vector) :
  Forall2 Qle (map (Qmult 100) u) (map (Qmult 100) v) <-> Forall2 Qle u v.
Proof.
  revert v. induction u as [|x u IH]; intros [|y v]; simpl; split;
    intros H; inversion H; subst; constructor;
    try (by apply scaled_le); by apply IH.
Qed.

(** C3, as the code has it.  The moment constraint of the asymptotic problem
    is one inequality, one-sided: component by component,
    100 * (moment_matrix . (beliefs^T . w)) <= 100 * tolerance, which holds
    exactly when moment_matrix . (beliefs^T . w) <= tolerance.  No absolute
    value is taken and no empirical moment vector is subtracted. *)
Theorem moment_constraint_one_sided (self : AsymptoticProblem.t)
    (w : vector) :
  let moments :=
    matmul (AsymptoticProblem._moment_matrix self)
      (matmul (transpose (AsymptoticProblem.num_beliefs self)
                 (AsymptoticProblem._beliefs self)) w) in
  exists c,
    AsymptoticProblem._moment_constraint self = [c] /\
    (satisfied c w <->
     Forall2 Qle (map (Qmult 100) moments)
                 (map (Qmult 100) (AsymptoticProblem._tolerance self))) /\
    (satisfied c w <->
     Forall2 Qle moments (AsymptoticProblem._tolerance self)).
Proof.
  cbv zeta. eexists. split; [reflexivity|]. simpl.
  split; [reflexivity|]. apply Forall2_scaled.
Qed.

(** C3, as stated, fails: with one environment of belief 0, weight 1,
    empirical moment 1 and tolerance 1/2 the code's constraint holds while
    the two-sided bound around the empirical moment does not. *)
Lemma moment_constraint_not_two_sided :
  let self := {| AsymptoticProblem._beliefs := [[0]];
                 AsymptoticProblem.num_beliefs := 1;
                 AsymptoticProblem._moment_matrix := [[1]];
                 AsymptoticProblem._tolerance := [1 # 2] |} in
  Forall (fun c => satisfied c [1])
         (AsymptoticProblem._moment_constraint self) /\
  ~ two_sided_moment_bound [[1]] [[0]] 1 [1] [1 # 2] [1].
Proof.
  cbv zeta. split.
  - repeat constructor. vm_compute. discriminate.
  - unfold two_sided_moment_bound. intros H.
    inversion H as [|? ? ? ? Hle _]; subst.
    vm_compute in Hle. by apply Hle.
Qed.

(** ** The parallel grid *)

Section GridFacts.
Variable point : Type.
Variable solve_point : point -> ParallelSolver.failure + (Q * bool).
Variable points : list point.

Abbreviation store := (ParallelSolver.store point solve_point points).

Lemma store_all (completion : list nat) (out : list ParallelSolver.entry) :
  length out = length points ->
  length (foldl store out completion) = length points /\
  forall (i : nat) (p : point),
    points !! i = Some p ->
    foldl store out completion !! i
    = if decide (i ∈ completion)
      then Some (ParallelSolver.entry_of point solve_point p)
      else out !! i.
Proof.
  revert out. induction completion as [|j completion IH]; intros out Hlen.
  - simpl. split; [done|]. intros i p _.
    destruct (decide (i ∈ [])) as [Hin|]; [|done].
    by apply elem_of_nil in Hin.
  - simpl foldl.
    assert (Hlen' : length (store out j) = length points).
    { unfold ParallelSolver.store. destruct (points !! j); [|done].
      by rewrite length_insert. }
    destruct (IH (store out j) Hlen') as [IH1 IH2].
    split; [exact IH1|]. intros i p Hp.
    rewrite (IH2 i p Hp).
    destruct (decide (i ∈ completion)) as [Hin|Hnin].
    + destruct (decide (i ∈ j :: completion)) as [|Hn]; [done|].
      destruct Hn. by apply elem_of_cons; right.
    + destruct (decide (i = j)) as [->|Hne].
      * destruct (decide (j ∈ j :: completion)) as [|Hn];
          [|destruct Hn; by apply elem_of_cons; left].
        unfold ParallelSolver.store. rewrite Hp.
        apply list_lookup_insert_eq. rewrite Hlen.
        by eapply lookup_lt_Some.
      * destruct (decide (i ∈ j :: completion)) as [Hin|_].
        { apply elem_of_cons in Hin as [?|?]; done. }
        unfold ParallelSolver.store. destruct (points !! j); [|done].
        by apply list_lookup_insert_ne.
Qed.
End GridFacts.

(** C9.  Whatever the order in which the workers finish, the grid solve
    returns one entry per parameter point, index-aligned with the input: the
    entry at the index of a point whose solve succeeds holds that point's
    own objective value and tie flag, and the entry at the index of a point
    whose solve fails (infeasibility, solver error) is the flagged entry; a
    failure neither aborts the sweep nor shortens the output. *)
Theorem solve_grid_aligned (point : Type)
    (solve_point : point -> ParallelSolver.failure + (Q * bool))
    (points : list point) (completion : list nat) :
  Permutation completion (seq 0 (length points)) ->
  let out := ParallelSolver.solve_grid point solve_point points completion in
  length out = length points /\
  (forall (i : nat) (p : point) (v : Q) (tie : bool),
     points !! i = Some p -> solve_point p = inr (v, tie) ->
     out !! i = Some (ParallelSolver.Entry v tie)) /\
  (forall (i : nat) (p : point) (f : ParallelSolver.failure),
     points !! i = Some p -> solve_point p = inl f ->
     out !! i = Some ParallelSolver.Flagged).
Proof.
  intros Hperm. cbv zeta. unfold ParallelSolver.solve_grid.
  destruct (store_all point solve_point points completion
              (replicate (length points) ParallelSolver.Flagged))
    as [Hlen Hget]; [by rewrite length_replicate|].
  assert (Hall : forall (i : nat) (p : point),
             points !! i = Some p ->
             foldl (ParallelSolver.store point solve_point points)
                   (replicate (length points) ParallelSolver.Flagged)
                   completion !! i
             = Some (ParallelSolver.entry_of point solve_point p)).
  { intros i p Hp. rewrite (Hget i p Hp).
    destruct (decide (i ∈ completion)) as [|Hn]; [done|].
    destruct Hn. apply list_elem_of_In.
    eapply Permutation_in; [symmetry; exact Hperm|].
    apply in_seq. apply lookup_lt_Some in Hp. lia. }
  split; [exact Hlen|]. split.
  - intros i p v tie Hp Hsolved. rewrite (Hall i p Hp).
    unfold ParallelSolver.entry_of. by rewrite Hsolved.
  - intros i p f Hp Hfailed. rewrite (Hall i p Hp).
    unfold ParallelSolver.entry_of. by rewrite Hfailed.
Qed.

Lemma solve_grid_aligned_witness :
  let solve := fun p : Q =>
    if Qle_bool 0 p then inr (p, false) else inl ParallelSolver.Infeasible in
  let points := [1 # 2; -1; 3] in
  let completion := [2; 0; 1]%nat in
  Permutation completion (seq 0 (length points)) /\
  let out := ParallelSolver.solve_grid Q solve points completion in
  length out = length points /\
  (forall (i : nat) (p : Q) (v : Q) (tie : bool),
     points !! i = Some p -> solve p = inr (v, tie) ->
     out !! i = Some (ParallelSolver.Entry v tie)) /\
  (forall (i : nat) (p : Q) (f : ParallelSolver.failure),
     points !! i = Some p -> solve p = inl f ->
     out !! i = Some ParallelSolver.Flagged).
Proof.
  cbv zeta.
  assert (Hp : Permutation [2; 0; 1]%nat (seq 0 (length [1 # 2; -1; 3]))).
  { simpl. apply Permutation_sym.
    apply (perm_trans (perm_skip 0%nat (perm_swap 2%nat 1%nat []))).
    apply perm_swap. }
  split; [exact Hp|].
  exact (solve_grid_aligned Q
           (fun p : Q =>
              if Qle_bool 0 p then inr (p, false)
              else inl ParallelSolver.Infeasible)
           [1 # 2; -1; 3] [2; 0; 1]%nat Hp).
Defined.

(** ** The standard deviation and the confidence threshold *)

Lemma sqrt_of_squares_pos (x : Q) : 0 < x -> 0 < sqrt_of_squares x.
Proof.
  intros Hx. unfold sqrt_of_squares.
  assert (Hn : (0 < Z.sqrt (Qnum x))%Z).
  { apply Z.sqrt_pos. unfold Qlt in Hx. simpl in Hx. lia. }
  assert (Hd : (0 < Z.sqrt (Zpos (Qden x)))%Z) by (apply Z.sqrt_pos; lia).
  apply Qlt_shift_div_l.
  - unfold Qlt. simpl. lia.
  - unfold Qlt. simpl. lia.
Qed.

Lemma distinct_nonempty (l : list Z) :
  l <> [] -> (0 < length (PIDMeanAuctionData.distinct l))%nat.
Proof. destruct l; [done|]. simpl. lia. Qed.

Lemma inject_nat_pos (n : nat) :
  (0 < n)%nat -> 0 < inject_Z (Z.of_nat n).
Proof. intros H. unfold Qlt. simpl. lia. Qed.

Lemma Qdiv_pos (a b : Q) : 0 < a -> 0 < b -> 0 < a / b.
Proof.
  intros Ha Hb. apply Qlt_shift_div_l; [done|]. lra.
Qed.

(** C10, as the code has it.  For weights aligned with the deviations and
    data with at least one auction, [standard_deviation] returns the larger
    of the empirical standard deviation and the floor 0.01 / sqrt(number of
    auctions); the result is at least the floor and strictly positive.  The
    confidence threshold exceeds the weighted demand by
    norm.ppf(1 - pvalue) * sd / sqrt(num_auctions): it is strictly wider
    when that quantile is positive, and equal to the weighted demand when
    the quantile is zero. *)
Theorem standard_deviation_floor {N : PIDMeanAuctionData.Numerics}
    (sqrt_pos : forall x, 0 < x -> 0 < PIDMeanAuctionData.np_sqrt x)
    (self : PIDMeanAuctionData.t) (deviations weights : vector) :
  length weights = length deviations ->
  (0 < PIDMeanAuctionData.df_auctions_rows self)%nat ->
  let floor := PIDMeanAuctionData.min_std self in
  let empirical :=
    PIDMeanAuctionData.np_sqrt
      (PIDMeanAuctionData.variance self deviations weights) in
  exists sd,
    PIDMeanAuctionData.standard_deviation self deviations weights = inr sd /\
    (floor <= sd /\ empirical <= sd /\ (sd = floor \/ sd = empirical)) /\
    0 < floor /\ 0 < sd /\
    forall pvalue,
      PIDMeanAuctionData.df_bids self <> [] ->
      let demand :=
        dot (PIDMeanAuctionData.demand_vector self deviations) weights in
      exists threshold,
        PIDMeanAuctionData.confidence_threshold self weights deviations pvalue
        = inr threshold /\
        (0 < PIDMeanAuctionData.norm_ppf (1 - pvalue) ->
         demand < threshold) /\
        (PIDMeanAuctionData.norm_ppf (1 - pvalue) == 0 ->
         threshold == demand).
Proof.
  intros Hlen Hrows. cbv zeta.
  assert (Hfloor : 0 < PIDMeanAuctionData.min_std self).
  { unfold PIDMeanAuctionData.min_std.
    apply Qdiv_pos; [reflexivity|]. by apply sqrt_pos, inject_nat_pos. }
  assert (Hal : PIDMeanAuctionData.check_aligned (length deviations) weights
                = inr tt).
  { unfold PIDMeanAuctionData.check_aligned.
    by rewrite Hlen, Nat.eqb_refl. }
  set (floor := PIDMeanAuctionData.min_std self) in *.
  set (empirical :=
         PIDMeanAuctionData.np_sqrt
           (PIDMeanAuctionData.variance self deviations weights)).
  set (sd := PIDMeanAuctionData.py_max floor empirical).
  assert (Hsd : PIDMeanAuctionData.standard_deviation self deviations weights
                = inr sd).
  { unfold PIDMeanAuctionData.standard_deviation, and_then.
    by rewrite Hal. }
  assert (Hmax : floor <= sd /\ empirical <= sd /\
                 (sd = floor \/ sd = empirical)).
  { unfold sd, PIDMeanAuctionData.py_max.
    destruct (Qlt_bool floor empirical) eqn:E;
      [apply Qlt_bool_true in E|apply Qlt_bool_false in E].
    - split; [lra|]. split; [lra|]. by right.
    - split; [lra|]. split; [lra|]. by left. }
  exists sd. split; [exact Hsd|]. split; [exact Hmax|].
  split; [exact Hfloor|].
  assert (Hpos : 0 < sd) by lra.
  split; [exact Hpos|].
  intros pvalue Hbids.
  unfold PIDMeanAuctionData.confidence_threshold, and_then.
  assert (Hal' : PIDMeanAuctionData.check_aligned
                   (length (PIDMeanAuctionData.demand_vector self deviations))
                   weights = inr tt).
  { unfold PIDMeanAuctionData.demand_vector,
      PIDMeanAuctionData._demand_vector.
    by rewrite length_imap. }
  rewrite Hal', Hsd.
  eexists. split; [reflexivity|].
  assert (Hroot : 0 < PIDMeanAuctionData.np_sqrt
                        (inject_Z (Z.of_nat
                           (PIDMeanAuctionData.num_auctions self)))).
  { apply sqrt_pos, inject_nat_pos. unfold PIDMeanAuctionData.num_auctions.
    apply distinct_nonempty.
    destruct (PIDMeanAuctionData.df_bids self); done. }
  set (root := PIDMeanAuctionData.np_sqrt
                 (inject_Z (Z.of_nat (PIDMeanAuctionData.num_auctions self))))
    in *.
  set (x := PIDMeanAuctionData.norm_ppf (1 - pvalue)).
  set (d := dot _ weights).
  split.
  - intros Hx.
    assert (0 < x * sd / root).
    { apply Qdiv_pos; [|done]. apply Qmult_lt_0_compat; done. }
    lra.
  - intros Hx.
    assert (Hz : x * sd / root == 0).
    { unfold Qdiv. rewrite Hx. ring. }
    rewrite Hz. ring.
Qed.

Lemma standard_deviation_floor_witness :
  (forall x, 0 < x -> 0 < sqrt_of_squares x) /\
  length [1] = length [0] /\
  (0 < PIDMeanAuctionData.df_auctions_rows one_bid_data)%nat /\
  exists sd,
    @PIDMeanAuctionData.standard_deviation exact_numerics one_bid_data [0] [1]
    = inr sd /\
    0 < @PIDMeanAuctionData.min_std exact_numerics one_bid_data /\
    0 < sd.
Proof.
  split; [exact sqrt_of_squares_pos|]. split; [reflexivity|].
  split; [simpl; lia|].
  destruct (@standard_deviation_floor exact_numerics sqrt_of_squares_pos
              one_bid_data [0] [1] eq_refl ltac:(simpl; lia))
    as (sd & Hsd & _ & Hfloor & Hpos & _).
  exists sd. done.
Defined.

(** C10, as stated, fails at pvalue = 1/2: the quantile is zero and the
    confidence threshold is not wider than the weighted demand. *)
Lemma confidence_threshold_not_wider_at_median :
  exists threshold,
    @PIDMeanAuctionData.confidence_threshold exact_numerics one_bid_data
      [1] [0] (1 # 2) = inr threshold /\
    ~ dot (PIDMeanAuctionData.demand_vector one_bid_data [0]) [1]
      < threshold.
Proof.
  eexists. split; [reflexivity|].
  intros H. vm_compute in H. discriminate.
Qed.

(** * Further properties of the code *)

(** ** The generator: ranges and the draws it consumes *)

(** Every field of a generated environment is a probability, and the
    baseline win probability and the two marginal fields fit together:
    win0 + marg_cont + marg_info <= 1. *)
Theorem generated_fields_are_probabilities {G : BitGenerator}
    (random_sample_unit : forall s, in_unit (fst (random_sample s)))
    (num : Q) (seed : Z) (w : World) :
  valid_seed seed -> (0 <= py_int num)%Z ->
  exists envs w',
    _generate_raw_environments num seed w = inr (envs, w') /\
    Forall (fun e =>
      environment e (fun win_down marg_cont marg_info reserve win0 win_up
                         cost =>
        in_unit win_down /\ in_unit win0 /\ in_unit win_up /\
        in_unit reserve /\ in_unit cost /\
        in_unit marg_cont /\ in_unit marg_info /\
        win0 + marg_cont + marg_info <= 1)) envs.
Proof.
  intros Hs Hn.
  destruct (generate_rows num seed w Hs Hn)
    as (envs & w' & Hrun & _ & Hrows).
  exists envs, w'. split; [exact Hrun|].
  eapply Forall_impl; [exact Hrows|].
  intros e (s0 & s1 & s2 & x1 & x2 & x3 & x4 & -> & H21 & H10 & Hu).
  destruct (Hu random_sample_unit)
    as ([? ?] & [? ?] & [? ?] & [? ?] & [? ?] & [? ?] & [? ?]).
  unfold environment. do 7 eexists. split; [reflexivity|].
  unfold in_unit. repeat split; nra.
Qed.

Lemma generated_fields_are_probabilities_witness :
  (forall s, in_unit (fst (@random_sample lcg s))) /\
  valid_seed 7 /\ (0 <= py_int 3)%Z /\
  exists envs w',
    @_generate_raw_environments lcg 3 7 (lcg_world 5) = inr (envs, w') /\
    Forall (fun e =>
      environment e (fun win_down marg_cont marg_info reserve win0 win_up
                         cost =>
        in_unit win_down /\ in_unit win0 /\ in_unit win_up /\
        in_unit reserve /\ in_unit cost /\
        in_unit marg_cont /\ in_unit marg_info /\
        win0 + marg_cont + marg_info <= 1)) envs.
Proof.
  assert (Hs : valid_seed 7) by (unfold valid_seed; lia).
  assert (Hn : (0 <= py_int 3)%Z) by (vm_compute; discriminate).
  split; [exact lcg_unit|]. split; [exact Hs|]. split; [exact Hn|].
  exact (@generated_fields_are_probabilities lcg lcg_unit 3 7
           (lcg_world 5) Hs Hn).
Defined.

Lemma draws_snd_app {G : BitGenerator} (a b : nat) (s : RandomState) :
  snd (draws (a + b) s) = snd (draws b (snd (draws a s))).
Proof.
  revert s. induction a as [|a IH]; intros s; simpl; [done|].
  destruct (random_sample s) as [x s1].
  specialize (IH s1).
  destruct (draws (a + b) s1) as [xs s2].
  destruct (draws a s1) as [ys s3]. simpl in *. exact IH.
Qed.

Lemma advance_add {G : BitGenerator} (a b : nat) (s : RandomState) :
  advance (a + b) s = advance b (advance a s).
Proof. apply draws_snd_app. Qed.

Lemma draw_rows_advance {G : BitGenerator} (n m : nat) (s : RandomState) :
  snd (draw_rows n m s) = advance (n * m) s.
Proof.
  revert s. induction n as [|n IH]; intros s; simpl; [done|].
  rewrite advance_add. unfold advance at 2.
  destruct (draws m s) as [r s1]. simpl.
  specialize (IH s1). destruct (draw_rows n m s1) as [rs s2].
  simpl in *. exact IH.
Qed.

(** A successful call reseeds the process-wide generator and leaves it
    exactly seven draws per environment after the seed; the memory it was
    handed is not changed. *)
Theorem generate_consumes_seven_draws_per_row {G : BitGenerator}
    (num : Q) (seed : Z) (w : World) :
  valid_seed seed -> (0 <= py_int num)%Z ->
  exists envs w',
    _generate_raw_environments num seed w = inr (envs, w') /\
    np_random w'
    = advance (7 * Z.to_nat (py_int num)) (init_by_seed seed) /\
    uninitialised w' = uninitialised w.
Proof.
  intros Hs Hn. do 2 eexists.
  split; [apply generate_run; assumption|].
  cbn [np_random uninitialised]. split; [|reflexivity].
  repeat match goal with
         | |- context [snd (draws ?n ?s)] => fold (advance n s)
         end.
  rewrite draw_rows_advance, <- !advance_add. f_equal. lia.
Qed.

Lemma generate_consumes_seven_draws_per_row_witness :
  valid_seed 7 /\ (0 <= py_int 3)%Z /\
  exists envs w',
    @_generate_raw_environments lcg 3 7 (lcg_world 5) = inr (envs, w') /\
    np_random w' = @advance lcg (7 * Z.to_nat (py_int 3)) 7%Z /\
    uninitialised w' = uninitialised (lcg_world 5).
Proof.
  assert (Hs : valid_seed 7) by (unfold valid_seed; lia).
  assert (Hn : (0 <= py_int 3)%Z) by (vm_compute; discriminate).
  split; [exact Hs|]. split; [exact Hn|].
  exact (@generate_consumes_seven_draws_per_row lcg 3 7 (lcg_world 5)
           Hs Hn).
Defined.

(** ** The multistage metric on profiles of any length *)

Lemma foldl_max_spec (l : vector) (acc : Q) :
  let m := foldl (fun m y => if Qlt_bool m y then y else m) acc l in
  (m = acc \/ In m l) /\ acc <= m /\ Forall (fun y => y <= m) l.
Proof.
  revert acc. induction l as [|x l IH]; intros acc; simpl.
  - split; [by left|]. split; [lra|constructor].
  - destruct (Qlt_bool acc x) eqn:E;
      [apply Qlt_bool_true in E|apply Qlt_bool_false in E].
    + destruct (IH x) as ([->|Hin] & Hle & Hall).
      * split; [right; by left|]. split; [lra|]. constructor; [lra|done].
      * split; [right; by right|]. split; [lra|]. by constructor.
    + destruct (IH acc) as ([->|Hin] & Hle & Hall).
      * split; [by left|]. split; [lra|]. by constructor.
      * split; [right; by right|]. split; [done|]. constructor; [lra|done].
Qed.

(** [np.max] of a non-empty array is an entry that bounds every entry. *)
Lemma np_max_spec (x : Q) (l : vector) :
  exists m, np_max (x :: l) = inr m /\ In m (x :: l) /\
            Forall (fun y => y <= m) (x :: l).
Proof.
  destruct (foldl_max_spec l x) as (Hin & Hle & Hall).
  eexists. split; [reflexivity|]. split.
  - destruct Hin as [->|Hin]; [by left|by right].
  - by constructor.
Qed.

Lemma exceeds_max (a : vector) (m p0 : Q) :
  In m a -> Forall (fun y => y <= m) a ->
  (Qlt_bool p0 m = true <-> exists y, In y a /\ p0 < y).
Proof.
  intros Hin Hall. rewrite Qlt_bool_true. split.
  - intros H. by exists m.
  - intros (y & Hy & Hlt).
    pose proof (proj1 (List.Forall_forall _ _) Hall y Hy) as Hle.
    simpl in Hle. lra.
Qed.

(** Among strictly increasing deviations that hold zero, the equilibrium
    index is where zero stands: negative deviations before, positive after. *)
Lemma equilibrium_index_spec (dev : vector) :
  StronglySorted Qlt dev -> In 0 dev ->
  dev !! equilibrium_index dev = Some 0 /\
  forall (i : nat) (d : Q), dev !! i = Some d ->
    ((i < equilibrium_index dev)%nat <-> d < 0) /\
    ((equilibrium_index dev < i)%nat <-> 0 < d).
Proof.
  induction dev as [|d0 dev IH]; intros Hs H0; [done|].
  apply StronglySorted_inv in Hs as [Hs Hall].
  pose proof (proj1 (List.Forall_forall _ _) Hall) as Hlt.
  simpl. destruct (Qeq_bool d0 0) eqn:E.
  - apply Qeq_bool_iff in E.
    assert (d0 = 0) as ->.
    { destruct H0 as [H0|Hin]; [done|]. specialize (Hlt 0 Hin).
      simpl in Hlt. lra. }
    split; [done|]. intros [|i] d Hd; simpl in Hd.
    + injection Hd as <-. split; split; first [lia|lra].
    + assert (0 < d).
      { apply (Hlt d). apply list_elem_of_In, list_elem_of_lookup. eauto. }
      split; split; first [lia|lra|done].
  - assert (Hne : ~ d0 == 0).
    { intros H. apply Qeq_bool_iff in H. congruence. }
    destruct H0 as [H0|Hin]; [destruct Hne; by rewrite H0|].
    assert (d0 < 0) by (apply (Hlt 0 Hin)).
    destruct (IH Hs Hin) as [Hk Hidx].
    split; [exact Hk|]. intros [|i] d Hd; simpl in Hd.
    + injection Hd as <-. split; split; first [lia|lra].
    + destruct (Hidx i d Hd) as [H1 H2].
      rewrite <- H1, <- H2. lia.
Qed.

Lemma penalty_adjusted_lookup (k i : nat) (payoffs env dev : vector)
    (y : Q) :
  zip_with Qplus (take k payoffs)
    (zip_with Qmult
       (map (fun b => MultistageIsNonCompetitive.max_win_prob - b)
            (take k env))
       (take k dev)) !! i = Some y
  <-> exists p b d,
        (i < k)%nat /\ payoffs !! i = Some p /\ env !! i = Some b /\
        dev !! i = Some d /\
        y = p + (MultistageIsNonCompetitive.max_win_prob - b) * d.
Proof.
  rewrite lookup_zip_with_Some. split.
  - intros (p & pen & -> & Hp & Hpen).
    apply lookup_zip_with_Some in Hpen as (c & d & -> & Hc & Hd).
    apply lookup_take_Some in Hp as [Hp Hi].
    apply lookup_take_Some in Hd as [Hd _].
    rewrite list_lookup_fmap in Hc.
    destruct (take k env !! i) as [b|] eqn:Hb; [|done].
    apply lookup_take_Some in Hb as [Hb _].
    simpl in Hc. injection Hc as <-.
    by exists p, b, d.
  - intros (p & b & d & Hi & Hp & Hb & Hd & ->).
    exists p, ((MultistageIsNonCompetitive.max_win_prob - b) * d).
    split; [done|]. split; [by apply lookup_take_Some|].
    apply lookup_zip_with_Some.
    exists (MultistageIsNonCompetitive.max_win_prob - b), d.
    split; [done|]. split; [|by apply lookup_take_Some].
    rewrite list_lookup_fmap.
    by rewrite (proj2 (lookup_take_Some env k i b) (conj Hb Hi)).
Qed.

Lemma broadcast_same_length (f : Q -> Q -> Q) (a b : vector) :
  length a = length b -> broadcast f a b = inr (zip_with f a b).
Proof. intros H. unfold broadcast. by rewrite H, Nat.eqb_refl. Qed.

Lemma all_upward_dev_iff (deviations : vector) :
  let self := MultistageIsNonCompetitive.__init__ deviations in
  MultistageIsNonCompetitive.all_upward_dev self = true
  <-> equilibrium_index (MultistageIsNonCompetitive._deviations self) = 0%nat.
Proof.
  cbv zeta. unfold MultistageIsNonCompetitive.all_upward_dev. simpl.
  destruct (ordered_deviations_spec deviations) as (Hs & H0 & _ & _).
  destruct (equilibrium_index_spec _ Hs H0) as [Hk Hidx].
  set (dev := _ordered_deviations deviations) in *.
  split.
  - intros Hall.
    destruct (equilibrium_index dev) as [|k] eqn:Ek; [done|].
    destruct dev as [|d0 dev']; [done|].
    destruct (Hidx 0%nat d0 eq_refl) as [Hneg _].
    simpl in Hall. apply andb_true_iff in Hall as [Hd0 _].
    apply Qle_bool_iff in Hd0.
    assert (d0 < 0) by (apply Hneg; lia). lra.
  - intros Ek. apply forallb_forall. intros d Hd.
    apply list_elem_of_In, list_elem_of_lookup in Hd as [i Hi].
    destruct (Hidx i d Hi) as [Hneg _]. apply Qle_bool_iff.
    destruct (Qlt_le_dec d 0) as [Hlt|]; [|done].
    apply Hneg in Hlt. lia.
Qed.

(** For a profile of any length, with one payoff per ordered deviation and
    an environment that holds a belief for each downward deviation, the
    metric returns a flag, and the flag is true exactly when some downward
    deviation's payoff plus (max_win_prob - belief) * deviation, or some
    upward deviation's payoff, strictly exceeds the equilibrium payoff. *)
Theorem multistage_metric_any_profile
    (_get_payoffs : vector -> vector -> result vector)
    (deviations env payoffs : vector) :
  let self := MultistageIsNonCompetitive.__init__ deviations in
  let dev := MultistageIsNonCompetitive._deviations self in
  let k := equilibrium_index dev in
  _get_payoffs dev env = inr payoffs ->
  length payoffs = length dev ->
  (k <= length env)%nat ->
  exists p0 flag,
    payoffs !! k = Some p0 /\
    MultistageIsNonCompetitive.__call__ _get_payoffs self env = inr flag /\
    (flag = true <->
     (exists i p b d,
        (i < k)%nat /\ payoffs !! i = Some p /\ env !! i = Some b /\
        dev !! i = Some d /\ d < 0 /\
        p0 < p + (MultistageIsNonCompetitive.max_win_prob - b) * d)
     \/ (exists j p d,
           (k < j)%nat /\ payoffs !! j = Some p /\ dev !! j = Some d /\
           0 < d /\ p0 < p)).
Proof.
  intros self dev k Hpay Hlen Henv.
  destruct (ordered_deviations_spec deviations) as (Hs & H0 & _ & _).
  destruct (equilibrium_index_spec _ Hs H0) as [Hk Hidx].
  change (_ordered_deviations deviations) with dev in Hk, Hidx.
  change (equilibrium_index dev) with k in Hk, Hidx.
  assert (Hklt : (k < length dev)%nat) by (by eapply lookup_lt_Some).
  assert (Hkp : (k < length payoffs)%nat) by (rewrite Hlen; exact Hklt).
  assert (Hself : MultistageIsNonCompetitive._deviations self = dev)
    by reflexivity.
  assert (Ek : equilibrium_index dev = k) by reflexivity.
  clearbody k dev. subst self.
  destruct (lookup_lt_is_Some_2 payoffs k Hkp) as [p0 Hp0].
  (* the upward check *)
  assert (Hup : exists up,
             MultistageIsNonCompetitive._upward_non_ic _get_payoffs
               (MultistageIsNonCompetitive.__init__ deviations) env
             = inr up /\
             (up = true <->
              exists j p d, (k < j)%nat /\ payoffs !! j = Some p /\
                            dev !! j = Some d /\ 0 < d /\ p0 < p)).
  { unfold MultistageIsNonCompetitive._upward_non_ic, and_then.
    rewrite Hself, Ek, Hpay. rewrite (drop_S _ _ _ Hp0).
    destruct (np_max_spec p0 (drop (S k) payoffs)) as (m & Hm & Hin & Hall).
    rewrite Hm. simpl getitem. eexists. split; [reflexivity|].
    rewrite (exceeds_max _ m p0 Hin Hall). split.
    - intros (y & [<-|Hy] & Hlt); [lra|].
      apply list_elem_of_In, list_elem_of_lookup in Hy as [j Hj].
      rewrite lookup_drop in Hj.
      destruct (lookup_lt_is_Some_2 dev (S k + j)) as [d Hd].
      { rewrite <- Hlen. by eapply lookup_lt_Some. }
      exists (S k + j)%nat, y, d. split; [lia|]. split; [done|].
      split; [done|]. split; [|done]. apply (Hidx _ _ Hd). lia.
    - intros (j & p & d & Hj & Hp & _ & _ & Hlt).
      exists p. split; [|done]. right.
      apply list_elem_of_In, list_elem_of_lookup. exists (j - S k)%nat.
      rewrite lookup_drop. by replace (S k + (j - S k))%nat with j by lia. }
  (* the downward check *)
  assert (Hdown : exists down,
             MultistageIsNonCompetitive._downward_non_ic _get_payoffs
               (MultistageIsNonCompetitive.__init__ deviations) env
             = inr down /\
             (down = true <->
              exists i p b d,
                (i < k)%nat /\ payoffs !! i = Some p /\ env !! i = Some b /\
                dev !! i = Some d /\ d < 0 /\
                p0 < p + (MultistageIsNonCompetitive.max_win_prob - b) * d)).
  { unfold MultistageIsNonCompetitive._downward_non_ic.
    destruct (MultistageIsNonCompetitive.all_upward_dev
                (MultistageIsNonCompetitive.__init__ deviations)) eqn:Eup.
    - apply all_upward_dev_iff in Eup. rewrite Hself, Ek in Eup.
      exists false. split; [done|]. split; [done|].
      intros (i & _ & _ & _ & Hi & _). lia.
    - assert (Hk0 : k <> 0%nat).
      { intros E0. rewrite <- Ek, <- Hself in E0.
        apply all_upward_dev_iff in E0. congruence. }
      unfold and_then, MultistageIsNonCompetitive._get_penalty,
        np_multiply, np_add.
      rewrite Hself, Ek, Hpay.
      rewrite broadcast_same_length
        by (rewrite length_map, !length_take; lia).
      rewrite broadcast_same_length
        by (rewrite !length_zip_with, length_map, !length_take; lia).
      set (adjusted := zip_with Qplus _ _).
      assert (Hadj : length adjusted = k).
      { unfold adjusted.
        rewrite !length_zip_with, length_map, !length_take. lia. }
      destruct adjusted as [|a0 adj] eqn:Eadj; [simpl in Hadj; lia|].
      destruct (np_max_spec a0 adj) as (m & Hm & Hin & Hall).
      rewrite Hm. unfold getitem. rewrite Hp0.
      eexists. split; [reflexivity|].
      rewrite (exceeds_max _ m p0 Hin Hall). rewrite <- Eadj. split.
      + intros (y & Hy & Hlt).
        apply list_elem_of_In, list_elem_of_lookup in Hy as [i Hi].
        apply penalty_adjusted_lookup in Hi
          as (p & b & d & Hik & Hp & Hb & Hd & ->).
        exists i, p, b, d. repeat split; try done.
        by apply (Hidx _ _ Hd).
      + intros (i & p & b & d & Hik & Hp & Hb & Hd & _ & Hlt).
        exists (p + (MultistageIsNonCompetitive.max_win_prob - b) * d).
        split; [|done].
        apply list_elem_of_In, list_elem_of_lookup. exists i.
        apply penalty_adjusted_lookup. by exists p, b, d. }
  destruct Hup as (up & Hup & Hup_iff).
  destruct Hdown as (down & Hdown & Hdown_iff).
  exists p0, (down || up). split; [exact Hp0|]. split.
  - unfold MultistageIsNonCompetitive.__call__, and_then.
    by rewrite Hdown, Hup.
  - rewrite orb_true_iff, Hdown_iff, Hup_iff. reflexivity.
Qed.

Lemma multistage_metric_any_profile_witness :
  let deviations := [-5 # 100; -2 # 100; 1 # 1000] in
  let env := [7 # 10; 6 # 10; 5 # 10; 4 # 10; 8 # 10] in
  let self := MultistageIsNonCompetitive.__init__ deviations in
  let dev := MultistageIsNonCompetitive._deviations self in
  let k := equilibrium_index dev in
  let payoffs :=
    zip_with (fun belief d => belief * (1 + d - (8 # 10)))
             [7 # 10; 6 # 10; 5 # 10; 4 # 10] dev in
  belief_payoffs dev env = inr payoffs /\
  length payoffs = length dev /\
  (k <= length env)%nat /\
  exists p0 flag,
    payoffs !! k = Some p0 /\
    MultistageIsNonCompetitive.__call__ belief_payoffs self env = inr flag /\
    (flag = true <->
     (exists i p b d,
        (i < k)%nat /\ payoffs !! i = Some p /\ env !! i = Some b /\
        dev !! i = Some d /\ d < 0 /\
        p0 < p + (MultistageIsNonCompetitive.max_win_prob - b) * d)
     \/ (exists j p d,
           (k < j)%nat /\ payoffs !! j = Some p /\ dev !! j = Some d /\
           0 < d /\ p0 < p)).
Proof.
  cbv zeta.
  split; [reflexivity|]. split; [reflexivity|]. split; [vm_compute; lia|].
  exact (multistage_metric_any_profile belief_payoffs
           [-5 # 100; -2 # 100; 1 # 1000]
           [7 # 10; 6 # 10; 5 # 10; 4 # 10; 8 # 10] _
           eq_refl eq_refl ltac:(vm_compute; lia)).
Defined.

(** ** The profile check sees a set of values *)

Lemma one_deviation_same_values (P : Q -> Prop) (a b : vector) :
  (forall x y, x == y -> P x -> P y) -> ~ P 0 ->
  same_values (0 :: a) (0 :: b) -> one_deviation P a -> one_deviation P b.
Proof.
  intros HP HP0 Hab (d & Hin & Hd & Huniq).
  assert (Hmove : forall x u v, same_values (0 :: u) (0 :: v) ->
                    In x u -> P x -> exists x', x == x' /\ In x' v).
  { intros x u v Huv Hx HPx.
    assert (HxA : InA Qeq x (0 :: v)).
    { apply Huv. right. apply InA_alt. exists x.
      split; [reflexivity|done]. }
    apply InA_cons in HxA as [Hx0|HxA].
    - destruct HP0. by apply (HP x).
    - by apply InA_alt in HxA. }
  destruct (Hmove d a b Hab Hin Hd) as (d' & Hdd' & Hin').
  exists d'. split; [done|]. split; [by apply (HP d)|].
  intros x Hx HPx.
  assert (Hba : same_values (0 :: b) (0 :: a)) by (intros y; symmetry; apply Hab).
  destruct (Hmove x b a Hba Hx HPx) as (x' & Hxx' & Hx').
  rewrite Hxx', <- Hdd'. apply Huniq; [done|]. by apply (HP x).
Qed.

(** The check depends on the values of the profile only: their order,
    repetitions of a value and a zero written out make no difference to
    whether the profile is accepted. *)
Theorem check_up_down_deviations_same_values (a b : vector) :
  same_values (0 :: a) (0 :: b) ->
  _check_up_down_deviations a = _check_up_down_deviations b.
Proof.
  intros Hab.
  assert (Hba : same_values (0 :: b) (0 :: a)) by (intros y; symmetry; apply Hab).
  destruct (check_up_down_deviations_spec a) as [Hok_a Herr_a].
  destruct (check_up_down_deviations_spec b) as [Hok_b Herr_b].
  assert (Hiff : one_deviation (fun d => d < 0) a /\
                 one_deviation (fun d => 0 < d) a
                 <-> one_deviation (fun d => d < 0) b /\
                     one_deviation (fun d => 0 < d) b).
  { split; intros [Hn Hp]; split;
      (eapply one_deviation_same_values; [| |eassumption|eassumption]);
      try (intros x y Hxy Hx; simpl in *; lra); simpl; lra. }
  unfold _check_up_down_deviations in *. cbv zeta in *.
  destruct (negb (count_negative (_ordered_deviations a) =? 1)%nat
            || negb (count_positive (_ordered_deviations a) =? 1)%nat);
    destruct (negb (count_negative (_ordered_deviations b) =? 1)%nat
              || negb (count_positive (_ordered_deviations b) =? 1)%nat);
    try reflexivity; exfalso.
  - apply (proj1 Herr_a eq_refl). apply Hiff. by apply Hok_b.
  - apply (proj1 Herr_b eq_refl). apply Hiff. by apply Hok_a.
Qed.

Lemma check_up_down_deviations_same_values_witness :
  same_values (0 :: [2 # 100; -2 # 100; 0; 2 # 100])
              (0 :: [-1 # 50; 1 # 50]) /\
  _check_up_down_deviations [2 # 100; -2 # 100; 0; 2 # 100]
  = _check_up_down_deviations [-1 # 50; 1 # 50].
Proof.
  assert (H : same_values (0 :: [2 # 100; -2 # 100; 0; 2 # 100])
                          (0 :: [-1 # 50; 1 # 50])).
  { intros x. rewrite !InA_cons, !InA_nil. split.
    - intros [H|[H|[H|[H|[H|[]]]]]]; rewrite H.
      + left. reflexivity.
      + right; right; left. reflexivity.
      + right; left. reflexivity.
      + left. reflexivity.
      + right; right; left. reflexivity.
    - intros [H|[H|[H|[]]]]; rewrite H.
      + left. reflexivity.
      + right; right; left. reflexivity.
      + right; left. reflexivity. }
  split; [exact H|].
  exact (check_up_down_deviations_same_values _ _ H).
Defined.

(** ** Sums and means *)

Lemma Qinv_nonneg (c : Q) : 0 <= c -> 0 <= / c.
Proof.
  destruct c as [[|n|n] d]; unfold Qle, Qinv; simpl; intros H; lia.
Qed.

Lemma Qdiv_le_compat (a b c : Q) : 0 <= c -> a <= b -> a / c <= b / c.
Proof.
  intros Hc Hab. unfold Qdiv.
  apply Qmult_le_compat_r; [done|by apply Qinv_nonneg].
Qed.

Lemma inject_length_nonneg {A} (l : list A) :
  0 <= inject_Z (Z.of_nat (length l)).
Proof. unfold Qle. simpl. lia. Qed.

Lemma inject_length_cons {A} (x : A) (l : list A) :
  inject_Z (Z.of_nat (length (x :: l)))
  == inject_Z (Z.of_nat (length l)) + 1.
Proof.
  simpl length. rewrite Nat2Z.inj_succ. unfold Z.succ.
  by rewrite inject_Z_plus.
Qed.

Lemma np_sum_le (a b : vector) :
  Forall2 Qle a b -> np_sum a <= np_sum b.
Proof.
  induction 1 as [|x y a b Hxy _ IH]; simpl; [lra|]. lra.
Qed.

Lemma np_sum_eq (a b : vector) :
  Forall2 Qeq a b -> np_sum a == np_sum b.
Proof.
  induction 1 as [|x y a b Hxy _ IH]; simpl; [reflexivity|].
  by rewrite Hxy, IH.
Qed.

Lemma np_sum_bounds (a : vector) :
  Forall (fun x => 0 <= x /\ x <= 1) a ->
  0 <= np_sum a /\ np_sum a <= inject_Z (Z.of_nat (length a)).
Proof.
  induction 1 as [|x a [Hx0 Hx1] _ [IH0 IH1]].
  - simpl. split; [lra|]. unfold Qle. simpl. lia.
  - rewrite inject_length_cons. simpl. split; lra.
Qed.

Lemma np_sum_nonneg (a : vector) :
  Forall (fun x => 0 <= x) a -> 0 <= np_sum a.
Proof. induction 1; simpl; lra. Qed.

Lemma np_sum_map_plus {A} (f g : A -> Q) (l : list A) :
  np_sum (map f l) + np_sum (map g l)
  == np_sum (map (fun x => f x + g x) l).
Proof. induction l as [|x l IH]; simpl; [ring|]. rewrite <- IH. ring. Qed.

Lemma mean_le (a b : vector) :
  Forall2 Qle a b ->
  PIDMeanAuctionData.mean a <= PIDMeanAuctionData.mean b.
Proof.
  intros H. unfold PIDMeanAuctionData.mean.
  rewrite <- (Forall2_length _ _ _ H).
  apply Qdiv_le_compat; [apply inject_length_nonneg|by apply np_sum_le].
Qed.

Lemma mean_eq (a b : vector) :
  Forall2 Qeq a b ->
  PIDMeanAuctionData.mean a == PIDMeanAuctionData.mean b.
Proof.
  intros H. unfold PIDMeanAuctionData.mean.
  rewrite <- (Forall2_length _ _ _ H).
  by rewrite (np_sum_eq _ _ H).
Qed.

Lemma mean_bounds (a : vector) :
  Forall (fun x => 0 <= x /\ x <= 1) a ->
  0 <= PIDMeanAuctionData.mean a /\ PIDMeanAuctionData.mean a <= 1.
Proof.
  intros H. destruct (np_sum_bounds a H) as [H0 H1].
  unfold PIDMeanAuctionData.mean.
  destruct a as [|x a].
  - simpl. split; unfold Qle; simpl; lia.
  - assert (Hn : 0 < inject_Z (Z.of_nat (length (x :: a)))).
    { unfold Qlt. simpl. lia. }
    split.
    + apply Qle_shift_div_l; [done|]. lra.
    + apply Qle_shift_div_r; [done|]. lra.
Qed.

Lemma mean_nonneg (a : vector) :
  Forall (fun x => 0 <= x) a -> 0 <= PIDMeanAuctionData.mean a.
Proof.
  intros H. unfold PIDMeanAuctionData.mean.
  assert (H0 : 0 == 0 / inject_Z (Z.of_nat (length a)))
    by (unfold Qdiv; ring).
  rewrite H0.
  apply Qdiv_le_compat; [apply inject_length_nonneg|by apply np_sum_nonneg].
Qed.

Lemma mean_map_plus {A} (f g : A -> Q) (l : list A) :
  PIDMeanAuctionData.mean (map f l) + PIDMeanAuctionData.mean (map g l)
  == PIDMeanAuctionData.mean (map (fun x => f x + g x) l).
Proof.
  unfold PIDMeanAuctionData.mean. rewrite !length_map.
  rewrite <- np_sum_map_plus. unfold Qdiv. ring.
Qed.

Lemma zip_with_map_self {A B C} (g : B -> A -> C) (h : A -> B)
    (l : list A) :
  zip_with g (map h l) l = map (fun x => g (h x) x) l.
Proof. induction l as [|x l IH]; simpl; [done|]. by rewrite IH. Qed.

(** ** Marginal shares of the multistage data *)

Lemma share_as_mean {A} (f : A -> bool) (l : list A) :
  MultistageAuctionData.share (map f l)
  = PIDMeanAuctionData.mean (map (fun x => if f x then 1 else 0) l).
Proof. unfold MultistageAuctionData.share. by rewrite map_map. Qed.

Lemma share_bounds (flags : list bool) :
  0 <= MultistageAuctionData.share flags /\
  MultistageAuctionData.share flags <= 1.
Proof.
  unfold MultistageAuctionData.share. apply mean_bounds.
  apply List.Forall_map, List.Forall_forall. intros [|] _; lra.
Qed.

(** A bid cannot be marginal in both ways, and it is marginal in one of
    them exactly when its auction went to a second round (lowest > 1) and
    the deviated bid undercuts the lowest bid. *)
Lemma marginal_bid_cases (new low : Q) :
  (if Qlt_bool 1 new && Qlt_bool new low then 1 else 0)
  + (if Qlt_bool 1 low && Qle_bool new 1 then 1 else 0)
  == (if Qlt_bool 1 low && Qlt_bool new low then 1 else 0).
Proof.
  destruct (Qlt_bool 1 new) eqn:E1; destruct (Qlt_bool new low) eqn:E2;
    destruct (Qlt_bool 1 low) eqn:E3; destruct (Qle_bool new 1) eqn:E4;
    simpl;
    repeat match goal with
      | H : Qlt_bool _ _ = true |- _ => apply Qlt_bool_true in H
      | H : Qlt_bool _ _ = false |- _ => apply Qlt_bool_false in H
      | H : Qle_bool _ _ = true |- _ => apply Qle_bool_iff in H
      | H : Qle_bool _ _ = false |- _ => apply Qle_bool_false in H
      end; lra.
Qed.

Lemma share_marginal_sum (df_bids : list MultistageAuctionData.bid)
    (rho : Q) :
  MultistageAuctionData.share_marginal_info df_bids rho
  + MultistageAuctionData.share_marginal_cont df_bids rho
  == MultistageAuctionData.share
       (map (fun b =>
               Qlt_bool 1 (MultistageAuctionData.lowest b)
               && Qlt_bool (MultistageAuctionData.norm_bid b * (1 + rho))
                           (MultistageAuctionData.lowest b))
            df_bids).
Proof.
  unfold MultistageAuctionData.share_marginal_info,
    MultistageAuctionData.share_marginal_cont,
    MultistageAuctionData.bids_after_deviation. cbv zeta.
  rewrite !zip_with_map_self, !share_as_mean, mean_map_plus.
  apply mean_eq.
  induction df_bids as [|b l IH]; simpl; constructor; [|exact IH].
  apply marginal_bid_cases.
Qed.

(** [get_share_marginal] refuses every rho >= 0, zero included, with
    [NotImplementedError]; for rho < 0 on a non-empty frame it returns a
    number between 0 and 1: no bid is marginal in both ways, so the two
    shares it adds never exceed 1 together. *)
Theorem share_marginal_is_a_share
    (df_bids : list MultistageAuctionData.bid) (rho : Q) :
  (0 <= rho ->
   MultistageAuctionData.get_share_marginal df_bids rho
   = inl MultistageAuctionData.NotImplementedError) /\
  (rho < 0 -> df_bids <> [] ->
   exists v,
     MultistageAuctionData.get_share_marginal df_bids rho = inr v /\
     0 <= v /\ v <= 1).
Proof.
  unfold MultistageAuctionData.get_share_marginal,
    MultistageAuctionData._raise_error_if_neg.
  split.
  - intros H. apply Qle_bool_iff in H. by rewrite H.
  - intros H _. apply Qle_bool_false in H. rewrite H.
    eexists. split; [reflexivity|].
    rewrite (share_marginal_sum df_bids rho). apply share_bounds.
Qed.

Lemma share_marginal_is_a_share_witness :
  let df_bids :=
    [ {| MultistageAuctionData.norm_bid := 11 # 10;
         MultistageAuctionData.lowest := 105 # 100 |};
      {| MultistageAuctionData.norm_bid := 9 # 10;
         MultistageAuctionData.lowest := 9 # 10 |} ] in
  (0 <= 0 /\
   MultistageAuctionData.get_share_marginal df_bids 0
   = inl MultistageAuctionData.NotImplementedError) /\
  (-1 # 10 < 0 /\ df_bids <> [] /\
   exists v,
     MultistageAuctionData.get_share_marginal df_bids (-1 # 10) = inr v /\
     0 <= v /\ v <= 1).
Proof.
  cbv zeta. split.
  - split; [apply Qle_refl|].
    exact (proj1 (share_marginal_is_a_share _ 0) (Qle_refl 0)).
  - assert (Hr : -1 # 10 < 0) by reflexivity.
    split; [exact Hr|]. split; [discriminate|].
    exact (proj2 (share_marginal_is_a_share
                [ {| MultistageAuctionData.norm_bid := 11 # 10;
                     MultistageAuctionData.lowest := 105 # 100 |};
                  {| MultistageAuctionData.norm_bid := 9 # 10;
                     MultistageAuctionData.lowest := 9 # 10 |} ]
                (-1 # 10)) Hr ltac:(discriminate)).
Defined.

(** ** Wins and demands of the per-auction data *)

Lemma new_wins_cases (nb mc rho : Q) :
  let w := 1 * (if Qlt_bool (nb * (1 + rho)) mc then 1 else 0)
           + (1 # 2) * (if Qeq_bool (nb * (1 + rho)) mc then 1 else 0) in
  (nb * (1 + rho) < mc /\ w == 1) \/
  (nb * (1 + rho) == mc /\ w == 1 # 2) \/
  (mc < nb * (1 + rho) /\ w == 0).
Proof.
  cbv zeta.
  destruct (Qlt_bool (nb * (1 + rho)) mc) eqn:E1;
    [apply Qlt_bool_true in E1|apply Qlt_bool_false in E1];
    destruct (Qeq_bool (nb * (1 + rho)) mc) eqn:E2;
    try (apply Qeq_bool_iff in E2).
  - lra.
  - left. split; [done|]. ring.
  - right; left. split; [done|]. ring.
  - assert (Hne : ~ nb * (1 + rho) == mc).
    { intros H. apply Qeq_bool_iff in H. congruence. }
    right; right. split; [|ring].
    destruct (Qlt_le_dec mc (nb * (1 + rho))) as [|Hle]; [done|].
    destruct Hne. lra.
Qed.

(** A bid wins fully when its deviated bid is below the most competitive
    rival bid, half at a tie and not at all above; for a non-negative bid
    the win does not increase with the deviation. *)
Theorem new_wins_decrease_with_deviation
    (b : PIDMeanAuctionData.bid) (rho1 rho2 : Q) :
  let new_bid := PIDMeanAuctionData.norm_bid b * (1 + rho1) in
  let w := PIDMeanAuctionData._get_new_wins_row b rho1 in
  ((new_bid < PIDMeanAuctionData.most_competitive b /\ w == 1) \/
   (new_bid == PIDMeanAuctionData.most_competitive b /\ w == 1 # 2) \/
   (PIDMeanAuctionData.most_competitive b < new_bid /\ w == 0)) /\
  (0 <= PIDMeanAuctionData.norm_bid b -> rho1 <= rho2 ->
   PIDMeanAuctionData._get_new_wins_row b rho2 <= w).
Proof.
  cbv zeta. unfold PIDMeanAuctionData._get_new_wins_row. cbv zeta.
  set (nb := PIDMeanAuctionData.norm_bid b).
  set (mc := PIDMeanAuctionData.most_competitive b).
  split; [apply new_wins_cases|].
  intros Hnb Hrho.
  assert (Hmono : nb * (1 + rho1) <= nb * (1 + rho2)) by nra.
  pose proof (new_wins_cases nb mc rho1) as H1.
  pose proof (new_wins_cases nb mc rho2) as H2.
  cbv zeta in H1, H2.
  set (n1 := nb * (1 + rho1)) in *. set (n2 := nb * (1 + rho2)) in *.
  clearbody n1 n2.
  destruct H1 as [[? ->]|[[? ->]|[? ->]]];
    destruct H2 as [[? ->]|[[? ->]|[? ->]]]; lra.
Qed.

Lemma new_wins_decrease_with_deviation_witness :
  let b := {| PIDMeanAuctionData.pid := 1;
              PIDMeanAuctionData.norm_bid := 9 # 10;
              PIDMeanAuctionData.most_competitive := 95 # 100 |} in
  0 <= PIDMeanAuctionData.norm_bid b /\ 0 <= 1 # 10 /\
  PIDMeanAuctionData._get_new_wins_row b (1 # 10)
  <= PIDMeanAuctionData._get_new_wins_row b 0.
Proof.
  cbv zeta.
  assert (H1 : 0 <= 9 # 10) by (unfold Qle; simpl; lia).
  assert (H2 : 0 <= 1 # 10) by (unfold Qle; simpl; lia).
  split; [exact H1|]. split; [exact H2|].
  exact (proj2 (new_wins_decrease_with_deviation
                  {| PIDMeanAuctionData.pid := 1;
                     PIDMeanAuctionData.norm_bid := 9 # 10;
                     PIDMeanAuctionData.most_competitive := 95 # 100 |}
                  0 (1 # 10)) H1 H2).
Defined.

Lemma new_wins_bounds (b : PIDMeanAuctionData.bid) (rho : Q) :
  0 <= PIDMeanAuctionData._get_new_wins_row b rho /\
  PIDMeanAuctionData._get_new_wins_row b rho <= 1.
Proof.
  pose proof (new_wins_cases (PIDMeanAuctionData.norm_bid b)
                (PIDMeanAuctionData.most_competitive b) rho) as H.
  cbv zeta in H. unfold PIDMeanAuctionData._get_new_wins_row. cbv zeta.
  destruct H as [[? ->]|[[? ->]|[? ->]]]; split; lra.
Qed.

Lemma new_wins_monotone (b : PIDMeanAuctionData.bid) (rho1 rho2 : Q) :
  0 <= PIDMeanAuctionData.norm_bid b -> rho1 <= rho2 ->
  PIDMeanAuctionData._get_new_wins_row b rho2
  <= PIDMeanAuctionData._get_new_wins_row b rho1.
Proof.
  intros Hnb Hrho.
  unfold PIDMeanAuctionData._get_new_wins_row. cbv zeta.
  set (nb := PIDMeanAuctionData.norm_bid b) in *.
  set (mc := PIDMeanAuctionData.most_competitive b).
  assert (Hmono : nb * (1 + rho1) <= nb * (1 + rho2)) by nra.
  pose proof (new_wins_cases nb mc rho1) as H1.
  pose proof (new_wins_cases nb mc rho2) as H2.
  cbv zeta in H1, H2.
  set (n1 := nb * (1 + rho1)) in *. set (n2 := nb * (1 + rho2)) in *.
  clearbody n1 n2.
  destruct H1 as [[? ->]|[[? ->]|[? ->]]];
    destruct H2 as [[? ->]|[[? ->]|[? ->]]]; lra.
Qed.

Lemma filter_map_keyed {A} (key : A -> Z) (f : A -> Q) (p : Z)
    (l : list A) :
  List.filter (fun r : Z * Q => (fst r =? p)%Z)
              (map (fun x => (key x, f x)) l)
  = map (fun x => (key x, f x))
        (List.filter (fun x => (key x =? p)%Z) l).
Proof.
  induction l as [|x l IH]; simpl; [done|].
  destruct (key x =? p)%Z; simpl; by rewrite IH.
Qed.

(** Grouping rows built from records: one mean per distinct key, over the
    records of that key. *)
Lemma groupby_mean_keyed {A} (key : A -> Z) (f : A -> Q) (l : list A) :
  PIDMeanAuctionData.groupby_mean (map (fun x => (key x, f x)) l)
  = map (fun p =>
           PIDMeanAuctionData.mean
             (map f (List.filter (fun x => (key x =? p)%Z) l)))
        (PIDMeanAuctionData.distinct (map key l)).
Proof.
  unfold PIDMeanAuctionData.groupby_mean.
  rewrite map_map. simpl.
  apply map_ext. intros p.
  by rewrite filter_map_keyed, map_map.
Qed.

Lemma Forall2_map_same {A} (R : Q -> Q -> Prop) (f g : A -> Q)
    (l : list A) :
  (forall x, In x l -> R (f x) (g x)) -> Forall2 R (map f l) (map g l).
Proof.
  induction l as [|x l IH]; simpl; intros H; constructor.
  - apply H. by left.
  - apply IH. intros y Hy. apply H. by right.
Qed.

Lemma groupby_mean_le {A} (key : A -> Z) (f g : A -> Q) (l : list A) :
  (forall x, In x l -> f x <= g x) ->
  Forall2 Qle
    (PIDMeanAuctionData.groupby_mean (map (fun x => (key x, f x)) l))
    (PIDMeanAuctionData.groupby_mean (map (fun x => (key x, g x)) l)).
Proof.
  intros H. rewrite !groupby_mean_keyed.
  apply Forall2_map_same. intros p _.
  apply mean_le, Forall2_map_same. intros x Hx.
  apply filter_In in Hx as [Hx _]. by apply H.
Qed.

Lemma groupby_mean_bounds {A} (key : A -> Z) (f : A -> Q) (l : list A) :
  (forall x, In x l -> 0 <= f x /\ f x <= 1) ->
  Forall (fun m => 0 <= m /\ m <= 1)
    (PIDMeanAuctionData.groupby_mean (map (fun x => (key x, f x)) l)).
Proof.
  intros H. rewrite groupby_mean_keyed.
  apply List.Forall_map, List.Forall_forall. intros p _.
  apply mean_bounds, List.Forall_map, List.Forall_forall. intros x Hx.
  apply filter_In in Hx as [Hx _]. by apply H.
Qed.

Lemma groupby_mean_nonneg {A} (key : A -> Z) (f : A -> Q) (l : list A) :
  (forall x, In x l -> 0 <= f x) ->
  Forall (fun m => 0 <= m)
    (PIDMeanAuctionData.groupby_mean (map (fun x => (key x, f x)) l)).
Proof.
  intros H. rewrite groupby_mean_keyed.
  apply List.Forall_map, List.Forall_forall. intros p _.
  apply mean_nonneg, List.Forall_map, List.Forall_forall. intros x Hx.
  apply filter_In in Hx as [Hx _]. by apply H.
Qed.

Lemma item_map {A} (f : A -> Q) (l : list A) (j : nat) (x : A) :
  l !! j = Some x -> item (map f l) j = f x.
Proof.
  intros H. unfold item. by rewrite list_lookup_fmap, H.
Qed.

Lemma zip_with_map_r {A B C} (g : A -> B -> C) (h : A -> B) (l : list A) :
  zip_with g l (map h l) = map (fun x => g x (h x)) l.
Proof. induction l as [|x l IH]; simpl; [done|]. by rewrite IH. Qed.

(** The entry of the demand vector at a deviation of the profile, in
    closed form. *)
Lemma demand_vector_entry (self : PIDMeanAuctionData.t)
    (deviations : vector) (j : nat) (rho : Q) :
  deviations !! j = Some rho ->
  PIDMeanAuctionData.demand_vector self deviations !! j
  = Some (PIDMeanAuctionData.mean
            (PIDMeanAuctionData.groupby_mean
               (map (fun b =>
                       (PIDMeanAuctionData.pid b,
                        PIDMeanAuctionData._get_new_wins_row b rho))
                    (PIDMeanAuctionData.df_bids self)))).
Proof.
  intros Hj.
  unfold PIDMeanAuctionData.demand_vector,
    PIDMeanAuctionData._demand_vector, PIDMeanAuctionData._win_vector.
  rewrite list_lookup_imap, Hj. simpl. do 3 f_equal.
  rewrite map_map. apply map_ext. intros b. simpl.
  by rewrite (item_map _ _ _ _ Hj).
Qed.

(** The scalar demand and the vector demand agree: for every deviation of
    the profile, the entry of [demand_vector] at its position is
    [_get_counterfactual_demand] at that deviation. *)
Theorem demand_vector_agrees_with_scalar_demand
    (self : PIDMeanAuctionData.t) (deviations : vector) (j : nat)
    (rho : Q) :
  deviations !! j = Some rho ->
  PIDMeanAuctionData.demand_vector self deviations !! j
  = Some (PIDMeanDemand._get_counterfactual_demand
            (PIDMeanAuctionData.df_bids self) rho).
Proof.
  intros Hj. rewrite (demand_vector_entry self deviations j rho Hj).
  unfold PIDMeanDemand._get_counterfactual_demand,
    PIDMeanAuctionData._get_new_wins. cbv zeta.
  by rewrite zip_with_map_r.
Qed.

Lemma demand_vector_agrees_with_scalar_demand_witness :
  [-2 # 100; 0; 2 # 100] !! 2%nat = Some (2 # 100) /\
  PIDMeanAuctionData.demand_vector one_bid_data [-2 # 100; 0; 2 # 100]
    !! 2%nat
  = Some (PIDMeanDemand._get_counterfactual_demand
            (PIDMeanAuctionData.df_bids one_bid_data) (2 # 100)).
Proof.
  split; [reflexivity|].
  exact (demand_vector_agrees_with_scalar_demand one_bid_data
           [-2 # 100; 0; 2 # 100] 2 (2 # 100) eq_refl).
Defined.

(** On a frame with at least one bid, the demand vector has one entry per
    deviation and every entry is a probability. *)
Theorem demand_vector_entries_are_probabilities
    (self : PIDMeanAuctionData.t) (deviations : vector) :
  PIDMeanAuctionData.df_bids self <> [] ->
  length (PIDMeanAuctionData.demand_vector self deviations)
  = length deviations /\
  Forall (fun d => 0 <= d /\ d <= 1)
         (PIDMeanAuctionData.demand_vector self deviations).
Proof.
  intros _. split.
  - unfold PIDMeanAuctionData.demand_vector,
      PIDMeanAuctionData._demand_vector. apply length_imap.
  - apply Forall_lookup. intros j d Hd.
    destruct (lookup_lt_is_Some_2 deviations j) as [rho Hrho].
    { apply lookup_lt_Some in Hd.
      unfold PIDMeanAuctionData.demand_vector,
        PIDMeanAuctionData._demand_vector in Hd.
      by rewrite length_imap in Hd. }
    rewrite (demand_vector_entry self deviations j rho Hrho) in Hd.
    injection Hd as <-.
    apply mean_bounds, groupby_mean_bounds. intros b _.
    apply new_wins_bounds.
Qed.

Lemma demand_vector_entries_are_probabilities_witness :
  let deviations := [-10 # 100; 0; 10 # 100] in
  PIDMeanAuctionData.df_bids two_auction_data <> [] /\
  length (PIDMeanAuctionData.demand_vector two_auction_data deviations)
  = length deviations /\
  Forall (fun d => 0 <= d /\ d <= 1)
         (PIDMeanAuctionData.demand_vector two_auction_data deviations).
Proof.
  cbv zeta.
  assert (Hne : PIDMeanAuctionData.df_bids two_auction_data <> [])
    by discriminate.
  split; [exact Hne|].
  exact (demand_vector_entries_are_probabilities two_auction_data
           [-10 # 100; 0; 10 # 100] Hne).
Defined.

(** Demand slopes downward: on a frame with at least one bid, all bids
    non-negative, the demand at a larger deviation of the profile is at most
    the demand at a smaller one. *)
Theorem demand_decreases_with_deviation
    (self : PIDMeanAuctionData.t) (deviations : vector)
    (i j : nat) (rho_i rho_j d_i d_j : Q) :
  PIDMeanAuctionData.df_bids self <> [] ->
  Forall (fun b => 0 <= PIDMeanAuctionData.norm_bid b)
         (PIDMeanAuctionData.df_bids self) ->
  deviations !! i = Some rho_i -> deviations !! j = Some rho_j ->
  rho_i <= rho_j ->
  PIDMeanAuctionData.demand_vector self deviations !! i = Some d_i ->
  PIDMeanAuctionData.demand_vector self deviations !! j = Some d_j ->
  d_j <= d_i.
Proof.
  intros _ Hnb Hi Hj Hle Hdi Hdj.
  rewrite (demand_vector_entry self deviations i rho_i Hi) in Hdi.
  rewrite (demand_vector_entry self deviations j rho_j Hj) in Hdj.
  injection Hdi as <-. injection Hdj as <-.
  apply mean_le, groupby_mean_le. intros b Hb.
  apply new_wins_monotone; [|done].
  by apply (proj1 (List.Forall_forall _ _) Hnb).
Qed.

Lemma demand_decreases_with_deviation_witness :
  let deviations := [-10 # 100; 0; 10 # 100] in
  let demand := PIDMeanAuctionData.demand_vector two_auction_data
                  deviations in
  PIDMeanAuctionData.df_bids two_auction_data <> [] /\
  Forall (fun b => 0 <= PIDMeanAuctionData.norm_bid b)
         (PIDMeanAuctionData.df_bids two_auction_data) /\
  deviations !! 0%nat = Some (-10 # 100) /\
  deviations !! 2%nat = Some (10 # 100) /\
  -10 # 100 <= 10 # 100 /\
  demand !! 0%nat = Some (item demand 0) /\
  demand !! 2%nat = Some (item demand 2) /\
  item demand 2 <= item demand 0.
Proof.
  cbv zeta.
  assert (Hne : PIDMeanAuctionData.df_bids two_auction_data <> [])
    by discriminate.
  assert (Hnb : Forall (fun b => 0 <= PIDMeanAuctionData.norm_bid b)
                       (PIDMeanAuctionData.df_bids two_auction_data)).
  { repeat constructor; unfold Qle; simpl; lia. }
  assert (Hle : -10 # 100 <= 10 # 100) by (unfold Qle; simpl; lia).
  split; [exact Hne|].
  split; [exact Hnb|]. split; [reflexivity|]. split; [reflexivity|].
  split; [exact Hle|]. split; [reflexivity|]. split; [reflexivity|].
  exact (demand_decreases_with_deviation two_auction_data
           [-10 # 100; 0; 10 # 100] 0 2 (-10 # 100) (10 # 100) _ _
           Hne Hnb eq_refl eq_refl Hle eq_refl eq_refl).
Defined.

(** On a frame with at least one bid and with one weight per deviation, the
    variance handed to [np.sqrt] is never negative. *)
Theorem variance_is_nonnegative
    (self : PIDMeanAuctionData.t) (deviations weights : vector) :
  PIDMeanAuctionData.df_bids self <> [] ->
  length weights = length deviations ->
  0 <= PIDMeanAuctionData.variance self deviations weights.
Proof.
  intros _ _.
  unfold PIDMeanAuctionData.variance,
    PIDMeanAuctionData._square_residual_to_variance. cbv zeta.
  rewrite map_map. simpl.
  apply mean_nonneg, groupby_mean_nonneg. intros r _.
  set (d := dot _ weights). nra.
Qed.

Lemma variance_is_nonnegative_witness :
  PIDMeanAuctionData.df_bids two_auction_data <> [] /\
  length [1; -1] = length [-10 # 100; 10 # 100] /\
  0 <= PIDMeanAuctionData.variance two_auction_data
         [-10 # 100; 10 # 100] [1; -1].
Proof.
  assert (Hne : PIDMeanAuctionData.df_bids two_auction_data <> [])
    by discriminate.
  split; [exact Hne|]. split; [reflexivity|].
  exact (variance_is_nonnegative two_auction_data
           [-10 # 100; 10 # 100] [1; -1] Hne eq_refl).
Defined.

(** ** p-values and tolerances of the asymptotic solvers *)

Lemma confidence_threshold_aligned {N : PIDMeanAuctionData.Numerics}
    (data : PIDMeanAuctionData.t) (weights devs : vector) (p : Q) :
  (length weights = length devs ->
   exists t,
     PIDMeanAuctionData.confidence_threshold data weights devs p = inr t) /\
  (length weights <> length devs ->
   PIDMeanAuctionData.confidence_threshold data weights devs p
   = inl ValueError).
Proof.
  unfold PIDMeanAuctionData.confidence_threshold,
    PIDMeanAuctionData.standard_deviation,
    PIDMeanAuctionData.check_aligned, and_then.
  assert (Hd : length (PIDMeanAuctionData.demand_vector data devs)
               = length devs).
  { unfold PIDMeanAuctionData.demand_vector,
      PIDMeanAuctionData._demand_vector. apply length_imap. }
  rewrite Hd. split; intros H.
  - rewrite H, Nat.eqb_refl. by eexists.
  - destruct (Nat.eqb_spec (length devs) (length weights)); [|done].
    congruence.
Qed.

Lemma thresholds_spec {N : PIDMeanAuctionData.Numerics}
    (data : PIDMeanAuctionData.t) (devs : vector)
    (rows : list (vector * Q)) :
  (Forall (fun r => length (fst r) = length devs) rows ->
   exists ts,
     AsymptoticMinCollusionSolver.thresholds data devs rows = inr ts /\
     Forall2 (fun r t =>
                PIDMeanAuctionData.confidence_threshold data (fst r) devs
                  (snd r) = inr t) rows ts) /\
  (Exists (fun r => length (fst r) <> length devs) rows ->
   AsymptoticMinCollusionSolver.thresholds data devs rows
   = inl ValueError).
Proof.
  induction rows as [|[w p] rows [IHok IHerr]]; simpl.
  - split; [|by intros H; inversion H].
    intros _. exists []. split; [done|constructor].
  - destruct (confidence_threshold_aligned data w devs p) as [Hal Hmis].
    split.
    + intros H. apply Forall_cons in H as [Hw Hrows]. simpl in Hw.
      destruct (Hal Hw) as [t Ht]. rewrite Ht.
      destruct (IHok Hrows) as (ts & Hts & Hall). rewrite Hts.
      exists (t :: ts). split; [done|]. by constructor.
    + intros H.
      destruct (Nat.eq_dec (length w) (length devs)) as [Hw|Hw].
      * destruct (Hal Hw) as [t Ht]. rewrite Ht.
        apply Exists_cons in H as [H|H]; [done|].
        by rewrite (IHerr H).
      * by rewrite (Hmis Hw).
Qed.

Lemma map_div_replicate (n : nat) (x d : Q) :
  map (fun q => q / d) (replicate n x) = replicate n (x / d).
Proof. induction n as [|n IH]; simpl; [done|]. by rewrite IH. Qed.

Lemma zip_replicate_length {A B} (l : list A) (y : B) :
  zip l (replicate (length l) y) = map (fun x => (x, y)) l.
Proof. induction l as [|x l IH]; simpl; [done|]. by rewrite IH. Qed.

Lemma Forall2_map_pair_l {A B C} (R : A -> B -> C -> Prop) (y : B)
    (l : list A) (ts : list C) :
  Forall2 (fun r t => R (fst r) (snd r) t) (map (fun x => (x, y)) l) ts ->
  Forall2 (fun x t => R x y t) l ts.
Proof.
  revert ts. induction l as [|x l IH]; intros ts H; inversion H; subst;
    constructor; [done|by apply IH].
Qed.

(** With a single confidence level, the tolerance has one confidence
    threshold per row of the moment matrix, each taken at the p-value
    (1 - c) / k, provided every row has one weight per deviation; a row of
    any other length makes the whole computation fail with [ValueError]. *)
Theorem tolerance_one_threshold_per_moment
    {N : PIDMeanAuctionData.Numerics}
    (self : AsymptoticMinCollusionSolver.t) (c : Q) :
  AsymptoticMinCollusionSolver._confidence_level self
  = AsymptoticMinCollusionSolver.Level c ->
  let M := AsymptoticMinCollusionSolver._moment_matrix self in
  let devs := AsymptoticMinCollusionSolver.deviations self in
  let p := (1 - c) / inject_Z (Z.of_nat (length M)) in
  (Forall (fun row => length row = length devs) M ->
   exists ts,
     AsymptoticMinCollusionSolver.tolerance self = inr ts /\
     Forall2 (fun row t =>
                PIDMeanAuctionData.confidence_threshold
                  (AsymptoticMinCollusionSolver.filtered_data self)
                  row devs p = inr t) M ts) /\
  (Exists (fun row => length row <> length devs) M ->
   AsymptoticMinCollusionSolver.tolerance self = inl ValueError).
Proof.
  intros Hlevel. cbv zeta.
  unfold AsymptoticMinCollusionSolver.tolerance,
    AsymptoticMinCollusionSolver._get_tolerance,
    AsymptoticMinCollusionSolver.pvalues,
    AsymptoticMinCollusionSolver._get_pvalues.
  rewrite Hlevel, map_div_replicate, zip_replicate_length.
  set (M := AsymptoticMinCollusionSolver._moment_matrix self).
  set (devs := AsymptoticMinCollusionSolver.deviations self).
  set (p := (1 - c) / inject_Z (Z.of_nat (length M))).
  destruct (thresholds_spec
              (AsymptoticMinCollusionSolver.filtered_data self) devs
              (map (fun row => (row, p)) M)) as [Hok Herr].
  split.
  - intros Hal.
    destruct Hok as (ts & Hts & Hall).
    { apply List.Forall_map. exact Hal. }
    exists ts. split; [exact Hts|].
    apply (Forall2_map_pair_l
             (fun row q t =>
                PIDMeanAuctionData.confidence_threshold
                  (AsymptoticMinCollusionSolver.filtered_data self)
                  row devs q = inr t) p).
    exact Hall.
  - intros Hmis. apply Herr.
    apply List.Exists_map. exact Hmis.
Qed.

Lemma tolerance_one_threshold_per_moment_witness :
  let self := fun M => {|
    AsymptoticMinCollusionSolver._moment_matrix := M;
    AsymptoticMinCollusionSolver._confidence_level :=
      AsymptoticMinCollusionSolver.Level (95 # 100);
    AsymptoticMinCollusionSolver.filtered_data := one_bid_data;
    AsymptoticMinCollusionSolver.deviations := [-2 # 100; 2 # 100] |} in
  (Forall (fun row => length row = 2%nat) [[1; 0]; [0; 1]] /\
   exists ts,
     @AsymptoticMinCollusionSolver.tolerance exact_numerics
       (self [[1; 0]; [0; 1]]) = inr ts /\ length ts = 2%nat) /\
  (Exists (fun row => length row <> 2%nat) [[1; 0]; [1]] /\
   @AsymptoticMinCollusionSolver.tolerance exact_numerics
     (self [[1; 0]; [1]]) = inl ValueError).
Proof.
  cbv zeta. split.
  - assert (H : Forall (fun row : vector => length row = 2%nat)
                       [[1; 0]; [0; 1]]) by (repeat constructor).
    split; [exact H|].
    destruct (proj1 (@tolerance_one_threshold_per_moment exact_numerics
                {| AsymptoticMinCollusionSolver._moment_matrix :=
                     [[1; 0]; [0; 1]];
                   AsymptoticMinCollusionSolver._confidence_level :=
                     AsymptoticMinCollusionSolver.Level (95 # 100);
                   AsymptoticMinCollusionSolver.filtered_data :=
                     one_bid_data;
                   AsymptoticMinCollusionSolver.deviations :=
                     [-2 # 100; 2 # 100] |}
                (95 # 100) eq_refl) H) as (ts & Hts & Hall).
    exists ts. split; [exact Hts|].
    by rewrite <- (Forall2_length _ _ _ Hall).
  - assert (H : Exists (fun row : vector => length row <> 2%nat)
                       [[1; 0]; [1]]).
    { apply Exists_cons_tl, Exists_cons_hd. simpl. lia. }
    split; [exact H|].
    exact (proj2 (@tolerance_one_threshold_per_moment exact_numerics
                {| AsymptoticMinCollusionSolver._moment_matrix :=
                     [[1; 0]; [1]];
                   AsymptoticMinCollusionSolver._confidence_level :=
                     AsymptoticMinCollusionSolver.Level (95 # 100);
                   AsymptoticMinCollusionSolver.filtered_data :=
                     one_bid_data;
                   AsymptoticMinCollusionSolver.deviations :=
                     [-2 # 100; 2 # 100] |}
                (95 # 100) eq_refl) H).
Defined.

Lemma zip_replicate_take {A B} (l : list A) (n : nat) (y : B) :
  zip l (replicate n y) = map (fun x => (x, y)) (take n l).
Proof.
  revert n. induction l as [|x l IH]; intros [|n]; simpl; try done.
  by rewrite IH.
Qed.

(** The multistage solver with a single confidence level c always works
    with five p-values (1 - c) / 5, whatever its moment matrix.  The loop of
    [_get_tolerance] pairs them with the rows of the matrix, so it visits
    the first five rows only, each with (1 - c) / 5; on per-auction data
    the tolerance then holds one threshold for each of these rows and none
    for a row beyond the fifth. *)
Theorem multistage_tolerance_covers_five_moments
    {N : PIDMeanAuctionData.Numerics}
    (self : AsymptoticMinCollusionSolver.t) (c : Q) :
  AsymptoticMinCollusionSolver._confidence_level self
  = AsymptoticMinCollusionSolver.Level c ->
  let M := AsymptoticMinCollusionSolver._moment_matrix self in
  let devs := AsymptoticMinCollusionSolver.deviations self in
  AsymptoticMultistageSolver.pvalues self = replicate 5 ((1 - c) / 5) /\
  zip M (AsymptoticMultistageSolver.pvalues self)
  = map (fun row => (row, (1 - c) / 5)) (take 5 M) /\
  (Forall (fun row => length row = length devs) M ->
   exists ts,
     AsymptoticMultistageSolver.tolerance self = inr ts /\
     length ts = Nat.min (length M) 5 /\
     Forall2 (fun row t =>
                PIDMeanAuctionData.confidence_threshold
                  (AsymptoticMinCollusionSolver.filtered_data self)
                  row devs ((1 - c) / 5) = inr t) (take 5 M) ts).
Proof.
  intros Hlevel. cbv zeta.
  unfold AsymptoticMultistageSolver.tolerance,
    AsymptoticMultistageSolver.pvalues,
    AsymptoticMultistageSolver._get_pvalues,
    AsymptoticMinCollusionSolver._get_tolerance.
  rewrite Hlevel, map_div_replicate, zip_replicate_take.
  split; [reflexivity|]. split; [reflexivity|]. intros Hal.
  set (M := AsymptoticMinCollusionSolver._moment_matrix self) in *.
  set (devs := AsymptoticMinCollusionSolver.deviations self) in *.
  destruct (thresholds_spec
              (AsymptoticMinCollusionSolver.filtered_data self) devs
              (map (fun row => (row, (1 - c) / 5)) (take 5 M)))
    as [Hok _].
  destruct Hok as (ts & Hts & Hall).
  { apply List.Forall_map, List.Forall_forall. intros row Hrow. simpl.
    apply (proj1 (List.Forall_forall _ _) Hal).
    apply list_elem_of_In. apply list_elem_of_In in Hrow.
    apply elem_of_take in Hrow as (i & Hi & _).
    by eapply list_elem_of_lookup_2. }
  exists ts. split; [exact Hts|].
  assert (Hrows : Forall2 (fun row t =>
                PIDMeanAuctionData.confidence_threshold
                  (AsymptoticMinCollusionSolver.filtered_data self)
                  row devs ((1 - c) / 5) = inr t) (take 5 M) ts).
  { apply (Forall2_map_pair_l
             (fun row q t =>
                PIDMeanAuctionData.confidence_threshold
                  (AsymptoticMinCollusionSolver.filtered_data self)
                  row devs q = inr t) ((1 - c) / 5)).
    exact Hall. }
  split; [|exact Hrows].
  rewrite <- (Forall2_length _ _ _ Hrows), length_take. lia.
Qed.

Lemma multistage_tolerance_covers_five_moments_witness :
  let self := {|
    AsymptoticMinCollusionSolver._moment_matrix :=
      [[1; 0]; [0; 1]; [1; 1]; [1; -1]; [-1; 0]; [0; -1]];
    AsymptoticMinCollusionSolver._confidence_level :=
      AsymptoticMinCollusionSolver.Level (95 # 100);
    AsymptoticMinCollusionSolver.filtered_data := one_bid_data;
    AsymptoticMinCollusionSolver.deviations := [-2 # 100; 2 # 100] |} in
  AsymptoticMinCollusionSolver._confidence_level self
  = AsymptoticMinCollusionSolver.Level (95 # 100) /\
  Forall (fun row => length row = 2%nat)
         (AsymptoticMinCollusionSolver._moment_matrix self) /\
  exists ts,
    @AsymptoticMultistageSolver.tolerance exact_numerics self = inr ts /\
    length ts = 5%nat.
Proof.
  cbv zeta.
  assert (H : Forall (fun row : vector => length row = 2%nat)
                [[1; 0]; [0; 1]; [1; 1]; [1; -1]; [-1; 0]; [0; -1]])
    by (repeat constructor).
  split; [reflexivity|]. split; [exact H|].
  destruct (proj2 (proj2 (@multistage_tolerance_covers_five_moments
              exact_numerics
              {| AsymptoticMinCollusionSolver._moment_matrix :=
                   [[1; 0]; [0; 1]; [1; 1]; [1; -1]; [-1; 0]; [0; -1]];
                 AsymptoticMinCollusionSolver._confidence_level :=
                   AsymptoticMinCollusionSolver.Level (95 # 100);
                 AsymptoticMinCollusionSolver.filtered_data := one_bid_data;
                 AsymptoticMinCollusionSolver.deviations :=
                   [-2 # 100; 2 # 100] |}
              (95 # 100) eq_refl)) H) as (ts & Hts & Hlen & _).
  exists ts. split; [exact Hts|exact Hlen].
Defined.

(** With the multistage solver's default moment matrix
    diag(-1, 1, 1, 1, -1), the moment constraint bounds the weighted
    win_down and win_up moments from below and the weighted marg_cont,
    marg_info and win0 moments from above. *)
Theorem default_moment_matrix_bounds (beliefs : matrix) (w : vector)
    (t0 t1 t2 t3 t4 : Q) :
  let self := {|
    AsymptoticProblem._beliefs := beliefs;
    AsymptoticProblem.num_beliefs := 5;
    AsymptoticProblem._moment_matrix :=
      AsymptoticMultistageSolver.default_moment_matrix;
    AsymptoticProblem._tolerance := [t0; t1; t2; t3; t4] |} in
  let moment := fun j => dot (column j beliefs) w in
  Forall (fun c => satisfied c w) (AsymptoticProblem._moment_constraint self)
  <-> - t0 <= moment 0%nat /\ moment 1%nat <= t1 /\ moment 2%nat <= t2 /\
      moment 3%nat <= t3 /\ - t4 <= moment 4%nat.
Proof.
  cbv zeta.
  assert (Hshape :
    matmul AsymptoticMultistageSolver.default_moment_matrix
      (matmul (transpose 5 beliefs) w)
    = [-1 * dot (column 0 beliefs) w
         + (0 * dot (column 1 beliefs) w
            + (0 * dot (column 2 beliefs) w
               + (0 * dot (column 3 beliefs) w
                  + (0 * dot (column 4 beliefs) w + 0))));
       0 * dot (column 0 beliefs) w
         + (1 * dot (column 1 beliefs) w
            + (0 * dot (column 2 beliefs) w
               + (0 * dot (column 3 beliefs) w
                  + (0 * dot (column 4 beliefs) w + 0))));
       0 * dot (column 0 beliefs) w
         + (0 * dot (column 1 beliefs) w
            + (1 * dot (column 2 beliefs) w
               + (0 * dot (column 3 beliefs) w
                  + (0 * dot (column 4 beliefs) w + 0))));
       0 * dot (column 0 beliefs) w
         + (0 * dot (column 1 beliefs) w
            + (0 * dot (column 2 beliefs) w
               + (1 * dot (column 3 beliefs) w
                  + (0 * dot (column 4 beliefs) w + 0))));
       0 * dot (column 0 beliefs) w
         + (0 * dot (column 1 beliefs) w
            + (0 * dot (column 2 beliefs) w
               + (0 * dot (column 3 beliefs) w
                  + (-1 * dot (column 4 beliefs) w + 0))))])
    by reflexivity.
  unfold AsymptoticProblem._moment_constraint.
  cbn [AsymptoticProblem._beliefs AsymptoticProblem.num_beliefs
       AsymptoticProblem._moment_matrix AsymptoticProblem._tolerance].
  rewrite Forall_singleton. unfold satisfied.
  rewrite Forall2_scaled, Hshape.
  set (d0 := dot (column 0 beliefs) w). set (d1 := dot (column 1 beliefs) w).
  set (d2 := dot (column 2 beliefs) w). set (d3 := dot (column 3 beliefs) w).
  set (d4 := dot (column 4 beliefs) w).
  split.
  - intros H.
    repeat match goal with
           | H : Forall2 _ (_ :: _) (_ :: _) |- _ =>
               apply Forall2_cons in H as [? H]
           end.
    repeat split; lra.
  - intros (H0 & H1 & H2 & H3 & H4).
    repeat constructor; lra.
Qed.

(** ** The win vector of the multistage data *)

Lemma mixin_new_wins_bounds (b : MultistageDataMixin.bid) (rho : Q) :
  0 <= MultistageDataMixin._get_new_wins_row b rho /\
  MultistageDataMixin._get_new_wins_row b rho <= 1.
Proof.
  pose proof (new_wins_cases (MultistageDataMixin.norm_bid b)
                (MultistageDataMixin.most_competitive b) rho) as H.
  cbv zeta in H. unfold MultistageDataMixin._get_new_wins_row. cbv zeta.
  destruct H as [[? ->]|[[? ->]|[? ->]]]; split; lra.
Qed.

Lemma mixin_new_wins_monotone (b : MultistageDataMixin.bid)
    (rho1 rho2 : Q) :
  0 <= MultistageDataMixin.norm_bid b -> rho1 <= rho2 ->
  MultistageDataMixin._get_new_wins_row b rho2
  <= MultistageDataMixin._get_new_wins_row b rho1.
Proof.
  intros Hnb Hrho.
  unfold MultistageDataMixin._get_new_wins_row. cbv zeta.
  set (nb := MultistageDataMixin.norm_bid b) in *.
  set (mc := MultistageDataMixin.most_competitive b).
  assert (Hmono : nb * (1 + rho1) <= nb * (1 + rho2)) by nra.
  pose proof (new_wins_cases nb mc rho1) as H1.
  pose proof (new_wins_cases nb mc rho2) as H2.
  cbv zeta in H1, H2.
  set (n1 := nb * (1 + rho1)) in *. set (n2 := nb * (1 + rho2)) in *.
  clearbody n1 n2.
  destruct H1 as [[? ->]|[[? ->]|[? ->]]];
    destruct H2 as [[? ->]|[[? ->]|[? ->]]]; lra.
Qed.

Lemma mixin_marginal_bounds (b : MultistageDataMixin.bid) (rho : Q) :
  0 <= MultistageDataMixin.is_marginal_cont_row b rho /\
  0 <= MultistageDataMixin.is_marginal_info_row b rho /\
  MultistageDataMixin.is_marginal_cont_row b rho
  + MultistageDataMixin.is_marginal_info_row b rho <= 1.
Proof.
  unfold MultistageDataMixin.is_marginal_cont_row,
    MultistageDataMixin.is_marginal_info_row. cbv zeta.
  pose proof (marginal_bid_cases
                (MultistageDataMixin.bids_after_deviation_row b rho)
                (MultistageDataMixin.lowest b)) as H.
  set (info := if Qlt_bool 1 _ && Qlt_bool _ _ then 1 else 0) in *.
  set (cont := if Qlt_bool 1 _ && Qle_bool _ 1 then 1 else 0) in *.
  assert (Hi : 0 <= info).
  { unfold info.
    match goal with |- context [if ?c then _ else _] => destruct c end;
      unfold Qle; simpl; lia. }
  assert (Hc : 0 <= cont).
  { unfold cont.
    match goal with |- context [if ?c then _ else _] => destruct c end;
      unfold Qle; simpl; lia. }
  assert (Hs : info + cont <= 1).
  { rewrite H.
    match goal with |- context [if ?c then _ else _] => destruct c end;
      unfold Qle; simpl; lia. }
  clearbody info cont.
  repeat split; lra.
Qed.

(** [_win_vector] of the multistage data: a profile the check refuses
    raises [ValueError]; an accepted profile of two deviations raises
    [KeyError], since the win_up column is never filled; an accepted profile
    of three or more gives one row per bid with the five moments win_down,
    marg_cont, marg_info, win0, win_up, each between 0 and 1, with
    marg_cont + marg_info <= 1, and, for a non-negative bid and deviations
    listed in increasing order, win_up <= win0 <= win_down. *)
Theorem multistage_win_vector_cases
    (df_bids : list MultistageDataMixin.bid) (deviations : vector) :
  (_check_up_down_deviations deviations = inl ValueError ->
   MultistageDataMixin._win_vector df_bids deviations
   = inl (MultistageDataMixin.Raised ValueError)) /\
  (_check_up_down_deviations deviations = inr tt ->
   length deviations = 2%nat ->
   MultistageDataMixin._win_vector df_bids deviations
   = inl MultistageDataMixin.KeyError) /\
  (_check_up_down_deviations deviations = inr tt ->
   forall r_down r0 r_up rest,
     deviations = r_down :: r0 :: r_up :: rest ->
     exists rows,
       MultistageDataMixin._win_vector df_bids deviations = inr rows /\
       Forall2
         (fun b row =>
            fst row = MultistageDataMixin.pid b /\
            exists win_down marg_cont marg_info win0 win_up,
              snd row = [win_down; marg_cont; marg_info; win0; win_up] /\
              Forall (fun m => 0 <= m /\ m <= 1) (snd row) /\
              marg_cont + marg_info <= 1 /\
              (0 <= MultistageDataMixin.norm_bid b ->
               r_down <= r0 -> r0 <= r_up ->
               win_up <= win0 /\ win0 <= win_down))
         df_bids rows).
Proof.
  unfold MultistageDataMixin._win_vector. split; [|split].
  - by intros ->.
  - intros -> Hlen.
    destruct deviations as [|a [|b [|c rest]]]; simpl in Hlen; try lia.
    reflexivity.
  - intros -> r_down r0 r_up rest ->.
    eexists. split; [reflexivity|].
    induction df_bids as [|b l IH]; simpl; constructor; [|exact IH].
    split; [reflexivity|]. do 5 eexists. split; [reflexivity|].
    destruct (mixin_marginal_bounds b r_down) as (Hc & Hi & Hs).
    pose proof (mixin_new_wins_bounds b r_down) as [? ?].
    pose proof (mixin_new_wins_bounds b r0) as [? ?].
    pose proof (mixin_new_wins_bounds b r_up) as [? ?].
    split; [|split].
    + repeat constructor; lra.
    + exact Hs.
    + intros Hnb Hlow Hup. split; by apply mixin_new_wins_monotone.
Qed.

Lemma multistage_win_vector_cases_witness :
  let df_bids :=
    [ {| MultistageDataMixin.pid := 1;
         MultistageDataMixin.norm_bid := 11 # 10;
         MultistageDataMixin.most_competitive := 105 # 100;
         MultistageDataMixin.lowest := 105 # 100 |} ] in
  (_check_up_down_deviations [2 # 100] = inl ValueError /\
   MultistageDataMixin._win_vector df_bids [2 # 100]
   = inl (MultistageDataMixin.Raised ValueError)) /\
  (_check_up_down_deviations [-2 # 100; 2 # 100] = inr tt /\
   length [-2 # 100; 2 # 100] = 2%nat /\
   MultistageDataMixin._win_vector df_bids [-2 # 100; 2 # 100]
   = inl MultistageDataMixin.KeyError) /\
  (_check_up_down_deviations [-10 # 100; 0; 2 # 100] = inr tt /\
   exists rows,
     MultistageDataMixin._win_vector df_bids [-10 # 100; 0; 2 # 100]
     = inr rows /\ length rows = 1%nat).
Proof.
  cbv zeta. split; [|split].
  - split; [reflexivity|].
    exact (proj1 (multistage_win_vector_cases _ [2 # 100]) eq_refl).
  - split; [reflexivity|]. split; [reflexivity|].
    exact (proj1 (proj2 (multistage_win_vector_cases _
                           [-2 # 100; 2 # 100])) eq_refl eq_refl).
  - split; [reflexivity|].
    destruct (proj2 (proj2 (multistage_win_vector_cases
                [ {| MultistageDataMixin.pid := 1;
                     MultistageDataMixin.norm_bid := 11 # 10;
                     MultistageDataMixin.most_competitive := 105 # 100;
                     MultistageDataMixin.lowest := 105 # 100 |} ]
                [-10 # 100; 0; 2 # 100])) eq_refl
              (-10 # 100) 0 (2 # 100) [] eq_refl) as (rows & Hrows & Hall).
    exists rows. split; [exact Hrows|].
    by rewrite <- (Forall2_length _ _ _ Hall).
Defined.

(** ** The auction frame *)

Lemma distinct_In (l : list Z) (x : Z) :
  In x (PIDMeanAuctionData.distinct l) <-> In x l.
Proof.
  induction l as [|y l IH]; simpl; [done|]. split.
  - intros [->|H]; [by left|].
    apply filter_In in H as [H _]. right. by apply IH.
  - intros [->|H]; [by left|].
    destruct (Z.eq_dec y x) as [->|Hne]; [by left|].
    right. apply filter_In. split; [by apply IH|].
    apply negb_true_iff, Z.eqb_neq. done.
Qed.

Lemma NoDup_filter_Z (f : Z -> bool) (l : list Z) :
  List.NoDup l -> List.NoDup (List.filter f l).
Proof.
  induction 1 as [|x l Hx Hl IH]; simpl; [constructor|].
  destruct (f x); [|exact IH].
  constructor; [|exact IH]. intros H. apply Hx.
  by apply filter_In in H as [H _].
Qed.

Lemma distinct_NoDup (l : list Z) :
  List.NoDup (PIDMeanAuctionData.distinct l).
Proof.
  induction l as [|x l IH]; simpl; constructor.
  - intros H. apply filter_In in H as [_ H].
    apply negb_true_iff, Z.eqb_neq in H. done.
  - by apply NoDup_filter_Z.
Qed.

Lemma insert_pid_perm (x : Z) (l : list Z) :
  Permutation (AuctionData.insert_pid x l) (x :: l).
Proof.
  induction l as [|y l IH]; simpl; [reflexivity|].
  destruct (x <=? y)%Z; [reflexivity|].
  rewrite IH. apply perm_swap.
Qed.

Lemma insert_pid_strict (x : Z) (l : list Z) :
  StronglySorted Z.lt l -> ~ In x l ->
  StronglySorted Z.lt (AuctionData.insert_pid x l).
Proof.
  induction l as [|y l IH]; simpl; intros Hs Hx.
  - repeat constructor.
  - apply StronglySorted_inv in Hs as [Hs Hall].
    destruct (Z.leb_spec x y) as [Hle|Hgt].
    + assert (x < y)%Z
        by (destruct (Z.eq_dec x y); [subst; destruct Hx; by left|lia]).
      constructor; [by constructor|]. constructor; [done|].
      eapply Forall_impl; [exact Hall|]. intros z Hz. simpl in Hz. lia.
    + constructor; [apply IH; tauto|].
      eapply Permutation_Forall; [symmetry; apply insert_pid_perm|].
      constructor; [lia|done].
Qed.

Lemma sorted_pids_spec (pids : list Z) :
  StronglySorted Z.lt (AuctionData.sorted_pids pids) /\
  forall x, In x (AuctionData.sorted_pids pids) <-> In x pids.
Proof.
  unfold AuctionData.sorted_pids.
  pose proof (distinct_NoDup pids) as Hnd.
  assert (Hin : forall x, In x (PIDMeanAuctionData.distinct pids)
                          <-> In x pids) by apply distinct_In.
  revert Hnd Hin. generalize (PIDMeanAuctionData.distinct pids).
  intros d Hnd Hin.
  assert (H : StronglySorted Z.lt (foldr AuctionData.insert_pid [] d) /\
              Permutation (foldr AuctionData.insert_pid [] d) d).
  { clear Hin. induction Hnd as [|x d Hx Hd [IHs IHp]]; simpl.
    - split; constructor.
    - split.
      + apply insert_pid_strict; [done|].
        intros H. apply Hx. by apply (Permutation_in _ IHp).
      + rewrite insert_pid_perm. by constructor. }
  destruct H as [Hs Hp]. split; [exact Hs|].
  intros x. rewrite <- Hin. split; apply Permutation_in; [done|by symmetry].
Qed.

Lemma insert_asc_sorted (x : Q) (l : vector) :
  StronglySorted Qle l -> StronglySorted Qle (insert_asc x l).
Proof.
  induction l as [|y l IH]; simpl; intros Hs.
  - repeat constructor.
  - apply StronglySorted_inv in Hs as [Hs Hall].
    destruct (Qle_bool x y) eqn:E.
    + apply Qle_bool_iff in E.
      constructor; [by constructor|]. constructor; [done|].
      eapply Forall_impl; [exact Hall|]. intros z Hz. simpl in Hz. lra.
    + apply Qle_bool_false in E.
      constructor; [by apply IH|].
      eapply Permutation_Forall; [symmetry; apply insert_asc_perm|].
      constructor; [lra|done].
Qed.

Lemma np_sort_sorted (l : vector) : StronglySorted Qle (np_sort l).
Proof.
  induction l as [|x l IH]; simpl; [constructor|].
  by apply insert_asc_sorted.
Qed.

Lemma StronglySorted_omap_key {A} (key : A -> Z) (f : Z -> option A)
    (l : list Z) :
  (forall a x, f a = Some x -> key x = a) ->
  StronglySorted Z.lt l ->
  StronglySorted Z.lt (map key (omap f l)).
Proof.
  intros Hkey. induction 1 as [|a l Hs IH Hall]; simpl; [constructor|].
  destruct (f a) as [x|] eqn:E; simpl; [|exact IH].
  constructor; [exact IH|].
  rewrite (Hkey a x E).
  apply List.Forall_forall. intros k Hk.
  apply in_map_iff in Hk as (y & <- & Hy).
  apply list_elem_of_In, list_elem_of_omap in Hy as (b & Hb & Hfb).
  rewrite (Hkey b y Hfb).
  apply (proj1 (List.Forall_forall _ _) Hall). by apply list_elem_of_In.
Qed.

Lemma StronglySorted_head_le (x y : Q) (l : vector) :
  StronglySorted Qle (x :: y :: l) ->
  x <= y /\ forall v, In v (x :: y :: l) -> x <= v.
Proof.
  intros Hs. apply StronglySorted_inv in Hs as [_ Hall].
  pose proof (proj1 (List.Forall_forall _ _) Hall) as H.
  split; [apply H; by left|].
  intros v [<-|Hv]; [lra|by apply H].
Qed.

(** What a row of the auction frame records. *)
Lemma auction_row_spec (df_bids : list AuctionData.raw_bid)
    (a : AuctionData.auction) :
  In a (AuctionData.generate_auction_data df_bids) ->
  let bids :=
    omap AuctionData.raw_norm_bid
      (List.filter
         (fun b => (AuctionData.raw_pid b =? AuctionData.auction_pid a)%Z)
         df_bids) in
  In (AuctionData.auction_pid a) (map AuctionData.raw_pid df_bids) /\
  (2 <= length bids)%nat /\
  In (AuctionData.lowest a) bids /\
  In (AuctionData.second_lowest a) bids /\
  AuctionData.lowest a <= AuctionData.second_lowest a /\
  forall v, In v bids -> AuctionData.lowest a <= v.
Proof.
  intros Ha. cbv zeta.
  apply list_elem_of_In, list_elem_of_omap in Ha as (p & Hp & Hf).
  apply list_elem_of_In in Hp.
  apply (proj1 (proj2 (sorted_pids_spec _) p)) in Hp.
  unfold AuctionData.sorted_bids in Hf. cbv zeta in Hf.
  set (bids := omap AuctionData.raw_norm_bid
                 (List.filter (fun b => (AuctionData.raw_pid b =? p)%Z)
                    df_bids)) in *.
  pose proof (np_sort_perm bids) as Hperm.
  pose proof (np_sort_sorted bids) as Hsorted.
  destruct (np_sort bids) as [|low [|second rest]] eqn:E; try done.
  injection Hf as <-. simpl.
  fold bids.
  destruct (StronglySorted_head_le _ _ _ Hsorted) as [Hle Hmin].
  split; [exact Hp|]. split.
  { rewrite <- (Permutation_length Hperm). simpl. lia. }
  split; [apply (Permutation_in _ Hperm); by left|].
  split; [apply (Permutation_in _ Hperm); by right; left|].
  split; [exact Hle|].
  intros v Hv. apply Hmin. by apply (Permutation_in _ (Permutation_sym Hperm)).
Qed.

(** The auction frame lists, by strictly increasing identifier, exactly
    the auctions with at least two non-missing bids; [lowest] is the
    smallest of the auction's bids and [second_lowest], another of its bids,
    is at least [lowest]. *)
Theorem auction_frame_spec (df_bids : list AuctionData.raw_bid) :
  let df_auctions := AuctionData.generate_auction_data df_bids in
  let bids_of := fun p =>
    omap AuctionData.raw_norm_bid
      (List.filter (fun b => (AuctionData.raw_pid b =? p)%Z) df_bids) in
  StronglySorted Z.lt (map AuctionData.auction_pid df_auctions) /\
  (forall a, In a df_auctions ->
     (2 <= length (bids_of (AuctionData.auction_pid a)))%nat /\
     In (AuctionData.lowest a) (bids_of (AuctionData.auction_pid a)) /\
     In (AuctionData.second_lowest a) (bids_of (AuctionData.auction_pid a)) /\
     AuctionData.lowest a <= AuctionData.second_lowest a /\
     forall v, In v (bids_of (AuctionData.auction_pid a)) ->
               AuctionData.lowest a <= v) /\
  (forall p, In p (map AuctionData.raw_pid df_bids) ->
     (2 <= length (bids_of p))%nat ->
     exists a, In a df_auctions /\ AuctionData.auction_pid a = p).
Proof.
  cbv zeta. split; [|split].
  - unfold AuctionData.generate_auction_data. cbv zeta.
    apply StronglySorted_omap_key.
    + intros p x Hx.
      destruct (AuctionData.sorted_bids df_bids p) as [|? [|? ?]];
        try done. by injection Hx as <-.
    + apply sorted_pids_spec.
  - intros a Ha. by destruct (auction_row_spec df_bids a Ha) as (_ & H).
  - intros p Hp Hlen.
    pose proof (np_sort_perm
                  (omap AuctionData.raw_norm_bid
                     (List.filter
                        (fun b => (AuctionData.raw_pid b =? p)%Z) df_bids)))
      as Hperm.
    apply Permutation_length in Hperm.
    destruct (np_sort _) as [|low [|second rest]] eqn:E;
      simpl in Hperm; try lia.
    exists {| AuctionData.auction_pid := p; AuctionData.lowest := low;
              AuctionData.second_lowest := second |}.
    split; [|reflexivity].
    apply list_elem_of_In, list_elem_of_omap. exists p. split.
    + apply list_elem_of_In. by apply sorted_pids_spec.
    + unfold AuctionData.sorted_bids. cbv zeta. by rewrite E.
Qed.

Lemma find_auction_Some (df_auctions : list AuctionData.auction) (u : Z)
    (a : AuctionData.auction) :
  AuctionData.find_auction df_auctions u = Some a ->
  In a df_auctions /\ AuctionData.auction_pid a = u.
Proof.
  intros H. apply find_some in H as [Hin Hp].
  split; [done|]. by apply Z.eqb_eq.
Qed.

Lemma np_float64_exact (z : Z) :
  (Z.abs z < 2 ^ 53)%Z -> AuctionData.np_float64 z = z.
Proof.
  intros H. unfold AuctionData.np_float64. cbv zeta.
  destruct (Z.ltb_spec (Z.abs z) (2 ^ 53)) as [_|Hge]; [done|lia].
Qed.

(** After [set_bid_data], when every auction identifier is below 2^53 in
    absolute value (so that it is the same number as a float64), every bid
    kept belongs to a listed auction and is at least the auction's lowest
    bid; its most competitive rival bid is the second lowest bid if it is
    itself the lowest and the lowest bid otherwise.  So a bid is strictly
    below its most competitive rival exactly when it is the lowest bid and
    the second lowest is strictly higher: ties at the bottom leave the
    auction without a strict winner. *)
Theorem most_competitive_marks_the_winner
    (df_bids : list AuctionData.raw_bid) (b : AuctionData.bid) :
  Forall (fun x => (Z.abs (AuctionData.raw_pid x) < 2 ^ 53)%Z) df_bids ->
  In b (fst (AuctionData.set_bid_data df_bids)) ->
  exists a,
    In a (snd (AuctionData.set_bid_data df_bids)) /\
    AuctionData.auction_pid a = AuctionData.pid b /\
    AuctionData.lowest a <= AuctionData.norm_bid b /\
    AuctionData.lowest a <= AuctionData.most_competitive b /\
    (AuctionData.norm_bid b == AuctionData.lowest a ->
     AuctionData.most_competitive b = AuctionData.second_lowest a) /\
    (~ AuctionData.norm_bid b == AuctionData.lowest a ->
     AuctionData.most_competitive b = AuctionData.lowest a) /\
    (AuctionData.norm_bid b < AuctionData.most_competitive b <->
     AuctionData.norm_bid b == AuctionData.lowest a /\
     AuctionData.lowest a < AuctionData.second_lowest a).
Proof.
  unfold AuctionData.set_bid_data. cbv zeta. simpl. intros Hexact Hb.
  apply list_elem_of_In, list_elem_of_omap in Hb as (x & Hx & Hfx).
  apply list_elem_of_In in Hx.
  destruct (AuctionData.raw_norm_bid x) as [v|] eqn:Ev; [|done].
  unfold AuctionData._add_most_competitive in Hfx.
  rewrite (np_float64_exact _
             (proj1 (List.Forall_forall _ _) Hexact x Hx)) in Hfx.
  destruct (AuctionData.find_auction _ (AuctionData.raw_pid x))
    as [a|] eqn:Ea; [|done].
  apply find_auction_Some in Ea as [Ha Hpid].
  destruct (auction_row_spec df_bids a Ha) as (_ & _ & _ & _ & Hle & Hmin).
  assert (Hv : AuctionData.lowest a <= v).
  { apply Hmin. apply list_elem_of_In, list_elem_of_omap. exists x.
    split; [|done]. apply list_elem_of_In, filter_In. split; [done|].
    by apply Z.eqb_eq. }
  exists a. split; [exact Ha|].
  rewrite Ev in Hfx. cbv zeta in Hfx.
  destruct (Qeq_bool v (AuctionData.lowest a)) eqn:Eq;
    injection Hfx as <-; simpl.
  - apply Qeq_bool_iff in Eq.
    split; [done|]. split; [done|]. split; [lra|].
    split; [done|]. split; [intros H; by destruct H|].
    split; [intros H; split; [done|lra]|intros [_ H]; lra].
  - assert (Hne : ~ v == AuctionData.lowest a).
    { intros H. apply Qeq_bool_iff in H. congruence. }
    split; [done|]. split; [done|]. split; [lra|].
    split; [intros H; by destruct Hne|]. split; [done|].
    split; [intros H; lra|intros [H _]; by destruct Hne].
Qed.

Lemma auction_frame_spec_witness :
  In 15%Z (map AuctionData.raw_pid raw_frame) /\
  (2 <= length
          (omap AuctionData.raw_norm_bid
             (List.filter (fun b => (AuctionData.raw_pid b =? 15)%Z)
                raw_frame)))%nat /\
  exists a,
    In a (AuctionData.generate_auction_data raw_frame) /\
    AuctionData.auction_pid a = 15%Z.
Proof.
  assert (H1 : In 15%Z (map AuctionData.raw_pid raw_frame))
    by (simpl; tauto).
  assert (H2 : (2 <= length
                  (omap AuctionData.raw_norm_bid
                     (List.filter (fun b => (AuctionData.raw_pid b =? 15)%Z)
                        raw_frame)))%nat) by (simpl; lia).
  split; [exact H1|]. split; [exact H2|].
  exact (proj2 (proj2 (auction_frame_spec raw_frame)) 15%Z H1 H2).
Defined.

Lemma most_competitive_marks_the_winner_witness :
  let b := {| AuctionData.pid := 15; AuctionData.norm_bid := 9 # 10;
              AuctionData.most_competitive := 95 # 100 |} in
  Forall (fun x => (Z.abs (AuctionData.raw_pid x) < 2 ^ 53)%Z) raw_frame /\
  In b (fst (AuctionData.set_bid_data raw_frame)) /\
  exists a,
    In a (snd (AuctionData.set_bid_data raw_frame)) /\
    AuctionData.auction_pid a = AuctionData.pid b /\
    (AuctionData.norm_bid b < AuctionData.most_competitive b <->
     AuctionData.norm_bid b == AuctionData.lowest a /\
     AuctionData.lowest a < AuctionData.second_lowest a).
Proof.
  cbv zeta.
  assert (Hb : In {| AuctionData.pid := 15; AuctionData.norm_bid := 9 # 10;
                     AuctionData.most_competitive := 95 # 100 |}
                  (fst (AuctionData.set_bid_data raw_frame))).
  { vm_compute. right; right; left. reflexivity. }
  assert (Hexact : Forall (fun x => (Z.abs (AuctionData.raw_pid x)
                                     < 2 ^ 53)%Z) raw_frame).
  { repeat constructor. }
  split; [exact Hexact|]. split; [exact Hb|].
  destruct (most_competitive_marks_the_winner raw_frame _ Hexact Hb)
    as (a & Ha & Hpid & _ & _ & _ & _ & Hiff).
  exists a. done.
Defined.

(** ** Demand moments and categories *)

Ltac comparisons_to_Q :=
  repeat match goal with
    | H : Qlt_bool _ _ = true |- _ => apply Qlt_bool_true in H
    | H : Qlt_bool _ _ = false |- _ => apply Qlt_bool_false in H
    | H : Qle_bool _ _ = true |- _ => apply Qle_bool_iff in H
    | H : Qle_bool _ _ = false |- _ => apply Qle_bool_false in H
    end.

(** The sample of a bid is always one of the four enumerated demand
    outcomes (D, Pm, Pp): (0,0,0), (1,0,0), (0,1,0) or (1,0,1), and its
    category is the code of that outcome. *)
Theorem demand_outcome_is_enumerated (rho_p rho_m : Q)
    (b : AuctionData.bid) :
  let s := AuctionData.compute_demand_moments_row rho_p rho_m b in
  exists v,
    In v (map snd AuctionData.demand_outcomes) /\
    (let '(x, y, z) := v in
     AuctionData.sample_D s == inject_Z x /\
     AuctionData.sample_Pm s == inject_Z y /\
     AuctionData.sample_Pp s == inject_Z z) /\
    AuctionData.category s == AuctionData.encode_outcome v.
Proof.
  cbv zeta. unfold AuctionData.compute_demand_moments_row, Qlt_bool.
  cbv zeta. simpl.
  destruct (Qle_bool (AuctionData.most_competitive b)
                     (AuctionData.norm_bid b));
    destruct (Qle_bool ((1 + rho_p) * AuctionData.norm_bid b)
                       (AuctionData.most_competitive b));
    destruct (Qle_bool ((1 - rho_m) * AuctionData.norm_bid b)
                       (AuctionData.most_competitive b)); simpl.
  - exists (0, 1, 0)%Z. split; [tauto|]. by vm_compute.
  - exists (0, 0, 0)%Z. split; [tauto|]. by vm_compute.
  - exists (0, 1, 0)%Z. split; [tauto|]. by vm_compute.
  - exists (0, 0, 0)%Z. split; [tauto|]. by vm_compute.
  - exists (1, 0, 0)%Z. split; [tauto|]. by vm_compute.
  - exists (1, 0, 0)%Z. split; [tauto|]. by vm_compute.
  - exists (1, 0, 1)%Z. split; [tauto|]. by vm_compute.
  - exists (1, 0, 1)%Z. split; [tauto|]. by vm_compute.
Qed.

(** The two demands read off the samples: D + Pm marks the bids that would
    win or tie after shading the bid down by rho_m, D - Pp the bids that
    would still win or tie after raising it by rho_p. *)
Theorem sample_moments_are_deviated_wins (rho_p rho_m : Q)
    (b : AuctionData.bid) :
  let s := AuctionData.compute_demand_moments_row rho_p rho_m b in
  let nb := AuctionData.norm_bid b in
  let mc := AuctionData.most_competitive b in
  (0 <= rho_m * nb ->
   AuctionData.sample_D s + AuctionData.sample_Pm s
   == AuctionData.indicator (Qle_bool ((1 - rho_m) * nb) mc)) /\
  (0 < rho_p * nb ->
   AuctionData.sample_D s - AuctionData.sample_Pp s
   == AuctionData.indicator (Qle_bool ((1 + rho_p) * nb) mc)).
Proof.
  cbv zeta. unfold AuctionData.compute_demand_moments_row. cbv zeta. simpl.
  set (nb := AuctionData.norm_bid b).
  set (mc := AuctionData.most_competitive b).
  assert (Hd : (1 - rho_m) * nb == nb - rho_m * nb) by ring.
  assert (Hu : (1 + rho_p) * nb == nb + rho_p * nb) by ring.
  set (down := (1 - rho_m) * nb) in *. set (up := (1 + rho_p) * nb) in *.
  set (tm := rho_m * nb) in *. set (tp := rho_p * nb) in *.
  clearbody down up tm tp.
  unfold AuctionData.indicator. split; intros Hpos.
  - destruct (Qlt_bool nb mc) eqn:E1; destruct (Qle_bool down mc) eqn:E2;
      destruct (Qle_bool mc nb) eqn:E3; comparisons_to_Q; simpl; lra.
  - destruct (Qlt_bool nb mc) eqn:E1; destruct (Qlt_bool mc up) eqn:E2;
      destruct (Qle_bool up mc) eqn:E3; comparisons_to_Q; simpl; lra.
Qed.

Lemma sample_moments_are_deviated_wins_witness :
  let b := {| AuctionData.pid := 15; AuctionData.norm_bid := 9 # 10;
              AuctionData.most_competitive := 95 # 100 |} in
  let s := AuctionData.compute_demand_moments_row (10 # 100) (5 # 100) b in
  (0 <= (5 # 100) * (9 # 10) /\
   AuctionData.sample_D s + AuctionData.sample_Pm s
   == AuctionData.indicator
        (Qle_bool ((1 - (5 # 100)) * (9 # 10)) (95 # 100))) /\
  (0 < (10 # 100) * (9 # 10) /\
   AuctionData.sample_D s - AuctionData.sample_Pp s
   == AuctionData.indicator
        (Qle_bool ((1 + (10 # 100)) * (9 # 10)) (95 # 100))).
Proof.
  cbv zeta. split.
  - assert (H : 0 <= (5 # 100) * (9 # 10)) by (unfold Qle; simpl; lia).
    split; [exact H|].
    exact (proj1 (sample_moments_are_deviated_wins (10 # 100) (5 # 100)
                    {| AuctionData.pid := 15;
                       AuctionData.norm_bid := 9 # 10;
                       AuctionData.most_competitive := 95 # 100 |}) H).
  - assert (H : 0 < (10 # 100) * (9 # 10)) by reflexivity.
    split; [exact H|].
    exact (proj2 (sample_moments_are_deviated_wins (10 # 100) (5 # 100)
                    {| AuctionData.pid := 15;
                       AuctionData.norm_bid := 9 # 10;
                       AuctionData.most_competitive := 95 # 100 |}) H).
Defined.

Lemma computed_sample_one_hot (rho_p rho_m : Q) (b : AuctionData.bid) :
  one_hot_category (AuctionData.compute_demand_moments_row rho_p rho_m b).
Proof.
  unfold one_hot_category, AuctionData.compute_demand_moments_row, Qlt_bool.
  cbv zeta. simpl.
  destruct (Qle_bool (AuctionData.most_competitive b)
                     (AuctionData.norm_bid b));
    destruct (Qle_bool ((1 + rho_p) * AuctionData.norm_bid b)
                       (AuctionData.most_competitive b));
    destruct (Qle_bool ((1 - rho_m) * AuctionData.norm_bid b)
                       (AuctionData.most_competitive b));
    reflexivity.
Qed.

Lemma filter_length_cons {A} (p : A -> bool) (x : A) (l : list A) :
  length (List.filter p (x :: l))
  = ((if p x then 1 else 0) + length (List.filter p l))%nat.
Proof. simpl. by destruct (p x). Qed.

Lemma categories_partition (samples : list AuctionData.sample) :
  Forall one_hot_category samples ->
  snd (AuctionData.categorize_histories samples) = length samples.
Proof.
  intros H.
  change (snd (AuctionData.categorize_histories samples))
    with (length (List.filter
                    (fun s => Qeq_bool (AuctionData.category s)
                                (AuctionData.encode_outcome (0, 0, 0)%Z))
                    samples)
          + (length (List.filter
                       (fun s => Qeq_bool (AuctionData.category s)
                                   (AuctionData.encode_outcome (1, 0, 0)%Z))
                       samples)
             + (length (List.filter
                          (fun s => Qeq_bool (AuctionData.category s)
                                      (AuctionData.encode_outcome
                                         (0, 1, 0)%Z))
                          samples)
                + (length (List.filter
                             (fun s => Qeq_bool (AuctionData.category s)
                                         (AuctionData.encode_outcome
                                            (1, 0, 1)%Z))
                             samples)
                   + 0))))%nat.
  induction H as [|s l Hs _ IH]; [done|].
  rewrite !filter_length_cons.
  unfold one_hot_category, AuctionData.encode_outcome in *.
  cbv beta iota in *. simpl length.
  repeat match goal with
         | H : context [if ?c then _ else _] |- _ =>
             destruct c
         end; lia.
Qed.

Lemma categorized_total (rho_p rho_m : Q) (df_bids : list AuctionData.bid) :
  snd (AuctionData.categorize_histories
         (AuctionData.compute_demand_moments rho_p rho_m df_bids))
  = length df_bids.
Proof.
  rewrite categories_partition.
  - unfold AuctionData.compute_demand_moments. by rewrite length_map.
  - unfold AuctionData.compute_demand_moments.
    apply List.Forall_map, List.Forall_forall. intros b _.
    apply computed_sample_one_hot.
Qed.

(** [categorize_histories] after [compute_demand_moments] counts every bid
    exactly once: the four category counts add up to the number of bids. *)
Theorem categories_count_every_bid (rho_p rho_m : Q)
    (df_bids : list AuctionData.bid) :
  let categorized :=
    AuctionData.categorize_histories
      (AuctionData.compute_demand_moments rho_p rho_m df_bids) in
  map fst (fst categorized) = map snd AuctionData.demand_outcomes /\
  snd categorized = foldr Nat.add 0%nat (map snd (fst categorized)) /\
  snd categorized = length df_bids.
Proof.
  cbv zeta. split; [reflexivity|]. split; [reflexivity|].
  apply categorized_total.
Qed.

Lemma inject_nat_nonneg (n : nat) : 0 <= inject_Z (Z.of_nat n).
Proof. unfold Qle. simpl. lia. Qed.

Lemma share_term_nonneg (n N : nat) :
  0 <= inject_Z (Z.of_nat n) * / inject_Z (Z.of_nat N).
Proof.
  apply Qmult_le_0_compat; [apply inject_nat_nonneg|].
  apply Qinv_nonneg, inject_nat_nonneg.
Qed.

(** The loop of [get_competitive_share] is monotone in the vector [p_c] and
    in the running total. *)
Lemma competitive_share_from_mono
    (enum_categories : list (Z * Z * Z * nat)) (N i : nat)
    (p p' : vector) (c c' : Q) :
  Forall2 Qle p p' -> c <= c' ->
  match AuctionData.competitive_share_from enum_categories N i p c,
        AuctionData.competitive_share_from enum_categories N i p' c' with
  | inr a, inr a' => a <= a'
  | inl _, inl _ => True
  | _, _ => False
  end.
Proof.
  intros H. revert i c c'.
  induction H as [|z z' p p' Hz _ IH]; intros i c c' Hc; simpl; [done|].
  destruct (AuctionData.lookup_outcome i) as [e|v]; [done|].
  destruct (AuctionData.lookup_count enum_categories v) as [e|n]; [done|].
  apply IH. pose proof (share_term_nonneg n N) as Ht.
  unfold Qdiv. nra.
Qed.

Lemma competitive_share_from_nonneg
    (enum_categories : list (Z * Z * Z * nat)) (N i : nat)
    (p : vector) (c : Q) :
  Forall (fun z => 0 <= z) p -> 0 <= c ->
  match AuctionData.competitive_share_from enum_categories N i p c with
  | inr a => 0 <= a
  | inl _ => True
  end.
Proof.
  intros H. revert i c.
  induction H as [|z p Hz _ IH]; intros i c Hc; simpl; [done|].
  destruct (AuctionData.lookup_outcome i) as [e|v]; [done|].
  destruct (AuctionData.lookup_count enum_categories v) as [e|n]; [done|].
  apply IH. pose proof (share_term_nonneg n N) as Ht.
  unfold Qdiv. nra.
Qed.

Lemma competitive_share_total (samples : list AuctionData.sample)
    (p_c : vector) :
  (length p_c <= 4)%nat ->
  exists c,
    AuctionData.get_competitive_share
      (AuctionData.categorize_histories samples) p_c = inr c.
Proof.
  intros Hshort.
  destruct p_c as [|z0 [|z1 [|z2 [|z3 [|z4 rest]]]]];
    simpl in Hshort; try lia; by eexists.
Qed.

(** [get_competitive_share] on categorized samples: a vector [p_c] with
    more than four entries raises [KeyError] (there are four demand
    outcomes); on a non-empty frame a vector of at most four entries gives
    a share, which is not negative when no entry is, and which does not
    decrease when entries of [p_c] are raised. *)
Theorem competitive_share_spec (rho_p rho_m : Q)
    (df_bids : list AuctionData.bid) (p_c p_c' : vector) :
  let categorized :=
    AuctionData.categorize_histories
      (AuctionData.compute_demand_moments rho_p rho_m df_bids) in
  ((4 < length p_c)%nat ->
   AuctionData.get_competitive_share categorized p_c
   = inl AuctionData.KeyError) /\
  (df_bids <> [] -> (length p_c <= 4)%nat -> Forall2 Qle p_c p_c' ->
   exists c c',
     AuctionData.get_competitive_share categorized p_c = inr c /\
     AuctionData.get_competitive_share categorized p_c' = inr c' /\
     c <= c' /\
     (Forall (fun z => 0 <= z) p_c -> 0 <= c)).
Proof.
  cbv zeta. split.
  - intros Hlong.
    destruct p_c as [|z0 [|z1 [|z2 [|z3 [|z4 rest]]]]];
      simpl in Hlong; try lia. reflexivity.
  - intros _ Hshort Hle.
    set (samples := AuctionData.compute_demand_moments rho_p rho_m df_bids).
    destruct (competitive_share_total samples p_c Hshort) as [c Hc].
    destruct (competitive_share_total samples p_c') as [c' Hc'].
    { by rewrite <- (Forall2_length _ _ _ Hle). }
    exists c, c'. split; [exact Hc|]. split; [exact Hc'|].
    unfold AuctionData.get_competitive_share in Hc, Hc'.
    split.
    + pose proof (competitive_share_from_mono
                    (fst (AuctionData.categorize_histories samples))
                    (snd (AuctionData.categorize_histories samples))
                    0 p_c p_c' 0 0 Hle (Qle_refl 0)) as Hmono.
      by rewrite Hc, Hc' in Hmono.
    + intros Hpos.
      pose proof (competitive_share_from_nonneg
                    (fst (AuctionData.categorize_histories samples))
                    (snd (AuctionData.categorize_histories samples))
                    0 p_c 0 Hpos (Qle_refl 0)) as Hnn.
      by rewrite Hc in Hnn.
Qed.

Lemma competitive_share_spec_witness :
  let categorized :=
    AuctionData.categorize_histories
      (AuctionData.compute_demand_moments (1 # 1000) (5 # 100)
         clean_frame) in
  ((4 < length ([1; 1; 1; 1; 1]%Q : vector))%nat /\
   AuctionData.get_competitive_share categorized [1; 1; 1; 1; 1]
   = inl AuctionData.KeyError) /\
  (clean_frame <> [] /\ (length ([1 # 2; 1]%Q : vector) <= 4)%nat /\
   Forall2 Qle [1 # 2; 1] [1; 1] /\
   exists c c',
     AuctionData.get_competitive_share categorized [1 # 2; 1] = inr c /\
     AuctionData.get_competitive_share categorized [1; 1] = inr c' /\
     c <= c' /\
     (Forall (fun z => 0 <= z) [1 # 2; 1] -> 0 <= c)).
Proof.
  cbv zeta.
  assert (Hne : clean_frame <> []) by discriminate.
  split.
  - assert (H : (4 < length ([1; 1; 1; 1; 1]%Q : vector))%nat)
      by (simpl; lia).
    split; [exact H|].
    exact (proj1 (competitive_share_spec (1 # 1000) (5 # 100) clean_frame
                    [1; 1; 1; 1; 1] []) H).
  - assert (Hlen : (length ([1 # 2; 1]%Q : vector) <= 4)%nat)
      by (simpl; lia).
    assert (Hle : Forall2 Qle [1 # 2; 1] [1; 1]).
    { repeat constructor; unfold Qle; simpl; lia. }
    split; [exact Hne|]. split; [exact Hlen|]. split; [exact Hle|].
    exact (proj2 (competitive_share_spec (1 # 1000) (5 # 100) clean_frame
                    [1 # 2; 1] [1; 1]) Hne Hlen Hle).
Defined.

(** ** [get_demand] *)

Lemma sample_row_moments (rho_p rho_m : Q) (b : AuctionData.bid) :
  let s := AuctionData.compute_demand_moments_row rho_p rho_m b in
  let c v :=
    inject_Z (Z.of_nat (if Qeq_bool (AuctionData.category s)
                                    (AuctionData.encode_outcome v)
                        then 1 else 0)) in
  AuctionData.sample_D s == c (1, 0, 0)%Z + c (1, 0, 1)%Z /\
  AuctionData.sample_Pm s == c (0, 1, 0)%Z /\
  AuctionData.sample_Pp s == c (1, 0, 1)%Z.
Proof.
  cbv zeta. unfold AuctionData.compute_demand_moments_row, Qlt_bool.
  cbv zeta. simpl.
  destruct (Qle_bool (AuctionData.most_competitive b)
                     (AuctionData.norm_bid b));
    destruct (Qle_bool ((1 + rho_p) * AuctionData.norm_bid b)
                       (AuctionData.most_competitive b));
    destruct (Qle_bool ((1 - rho_m) * AuctionData.norm_bid b)
                       (AuctionData.most_competitive b));
    by vm_compute.
Qed.

(** The column sums of the samples, from the category counts. *)
Lemma sample_column_sums (rho_p rho_m : Q) (df_bids : list AuctionData.bid) :
  let samples := AuctionData.compute_demand_moments rho_p rho_m df_bids in
  let n v :=
    inject_Z (Z.of_nat (length
      (List.filter (fun s => Qeq_bool (AuctionData.category s)
                               (AuctionData.encode_outcome v))
                   samples))) in
  np_sum (map AuctionData.sample_D samples)
  == n (1, 0, 0)%Z + n (1, 0, 1)%Z /\
  np_sum (map AuctionData.sample_Pm samples) == n (0, 1, 0)%Z /\
  np_sum (map AuctionData.sample_Pp samples) == n (1, 0, 1)%Z.
Proof.
  cbv zeta. induction df_bids as [|b l (IHD & IHm & IHp)].
  - by vm_compute.
  - change (AuctionData.compute_demand_moments rho_p rho_m (b :: l))
      with (AuctionData.compute_demand_moments_row rho_p rho_m b
            :: AuctionData.compute_demand_moments rho_p rho_m l).
    destruct (sample_row_moments rho_p rho_m b) as (HD & Hm & Hp).
    cbv zeta in HD, Hm, Hp.
    rewrite !filter_length_cons, !Nat2Z.inj_add, !inject_Z_plus.
    cbn [map np_sum foldr].
    rewrite IHD, IHm, IHp, HD, Hm, Hp.
    repeat split; ring.
Qed.

(** [get_demand] on categorized samples: a vector [p_c] with more than four
    entries raises [KeyError]; keeping every category, [p_c] = (1, 1, 1, 1),
    on a non-empty frame gives back the sample means of the columns Pm and
    Pp, and for D the sum of the sample mean of D - Pp (the bids that win
    and would still win after the upward deviation) and the sample mean of
    Pp. *)
Theorem demand_of_all_categories (rho_p rho_m : Q)
    (df_bids : list AuctionData.bid) (p_c : vector) :
  let samples := AuctionData.compute_demand_moments rho_p rho_m df_bids in
  let categorized := AuctionData.categorize_histories samples in
  ((4 < length p_c)%nat ->
   AuctionData.get_demand categorized p_c = inl AuctionData.KeyError) /\
  (df_bids <> [] ->
   exists d pm pp,
     AuctionData.get_demand categorized [1; 1; 1; 1] = inr (d, pm, pp) /\
     d == PIDMeanAuctionData.mean
            (map (fun s => AuctionData.sample_D s - AuctionData.sample_Pp s)
                 samples)
          + PIDMeanAuctionData.mean (map AuctionData.sample_Pp samples) /\
     pm == PIDMeanAuctionData.mean (map AuctionData.sample_Pm samples) /\
     pp == PIDMeanAuctionData.mean (map AuctionData.sample_Pp samples)).
Proof.
  cbv zeta. split.
  - intros Hlong.
    destruct p_c as [|z0 [|z1 [|z2 [|z3 [|z4 rest]]]]];
      simpl in Hlong; try lia. reflexivity.
  - intros _.
    assert (Hlen : length (AuctionData.compute_demand_moments rho_p rho_m
                             df_bids)
                   = snd (AuctionData.categorize_histories
                            (AuctionData.compute_demand_moments rho_p rho_m
                               df_bids))).
    { rewrite categorized_total.
      unfold AuctionData.compute_demand_moments. by rewrite length_map. }
    destruct (sample_column_sums rho_p rho_m df_bids) as (HD & Hm & Hp).
    cbv zeta in HD, Hm, Hp.
    do 3 eexists. split; [reflexivity|].
    rewrite mean_map_plus.
    rewrite (mean_eq
               (map (fun s => AuctionData.sample_D s - AuctionData.sample_Pp s
                              + AuctionData.sample_Pp s) _)
               (map AuctionData.sample_D
                    (AuctionData.compute_demand_moments rho_p rho_m
                       df_bids))).
    2: { apply Forall2_map_same. intros x _. ring. }
    unfold PIDMeanAuctionData.mean. rewrite !length_map, Hlen, HD, Hm, Hp.
    unfold AuctionData.categorize_histories. cbv zeta.
    cbn [fst snd map AuctionData.demand_outcomes].
    change (inject_Z 1) with 1. change (inject_Z 0) with 0.
    unfold Qdiv. repeat split; ring.
Qed.

Lemma demand_of_all_categories_witness :
  let samples :=
    AuctionData.compute_demand_moments (1 # 1000) (5 # 100) clean_frame in
  let categorized := AuctionData.categorize_histories samples in
  ((4 < length ([1; 1; 1; 1; 1]%Q : vector))%nat /\
   AuctionData.get_demand categorized [1; 1; 1; 1; 1]
   = inl AuctionData.KeyError) /\
  (clean_frame <> [] /\
   exists d pm pp,
     AuctionData.get_demand categorized [1; 1; 1; 1] = inr (d, pm, pp) /\
     d == PIDMeanAuctionData.mean
            (map (fun s => AuctionData.sample_D s - AuctionData.sample_Pp s)
                 samples)
          + PIDMeanAuctionData.mean (map AuctionData.sample_Pp samples) /\
     pm == PIDMeanAuctionData.mean (map AuctionData.sample_Pm samples) /\
     pp == PIDMeanAuctionData.mean (map AuctionData.sample_Pp samples)).
Proof.
  cbv zeta.
  assert (Hne : clean_frame <> []) by discriminate.
  assert (H : (4 < length ([1; 1; 1; 1; 1]%Q : vector))%nat)
    by (simpl; lia).
  split.
  - split; [exact H|].
    exact (proj1 (demand_of_all_categories (1 # 1000) (5 # 100) clean_frame
                    [1; 1; 1; 1; 1]) H).
  - split; [exact Hne|].
    exact (proj2 (demand_of_all_categories (1 # 1000) (5 # 100) clean_frame
                    []) Hne).
Defined.

(** ** [AsymptoticAuctionData] *)

Lemma asymptotic_demand_vector_entry (bids : list PIDMeanAuctionData.bid)
    (deviations : vector) (j : nat) (rho : Q) :
  deviations !! j = Some rho ->
  AsymptoticAuctionData._demand_vector
    (PIDMeanAuctionData._win_vector bids deviations) deviations !! j
  = Some (AsymptoticAuctionData._get_counterfactual_demand bids rho).
Proof.
  intros Hj.
  unfold AsymptoticAuctionData._demand_vector,
    AsymptoticAuctionData._get_counterfactual_demand,
    PIDMeanAuctionData._win_vector, PIDMeanAuctionData._get_new_wins.
  rewrite list_lookup_imap, Hj. simpl. do 2 f_equal.
  rewrite map_map. apply map_ext. intros b. simpl.
  by rewrite (item_map _ _ _ _ Hj).
Qed.

(** The bid-level demand of [AsymptoticAuctionData], on a frame with at
    least one bid: the entry of its demand vector at a deviation of the
    profile is its scalar demand at that deviation (the mean of [new_wins]
    over the bids), a number between 0 and 1 that, with non-negative bids,
    does not increase with the deviation. *)
Theorem asymptotic_demand_spec (bids : list PIDMeanAuctionData.bid)
    (deviations : vector) (j : nat) (rho : Q) :
  bids <> [] ->
  deviations !! j = Some rho ->
  let demand := AsymptoticAuctionData._get_counterfactual_demand bids in
  AsymptoticAuctionData._demand_vector
    (PIDMeanAuctionData._win_vector bids deviations) deviations !! j
  = Some (demand rho) /\
  (0 <= demand rho /\ demand rho <= 1) /\
  (Forall (fun b => 0 <= PIDMeanAuctionData.norm_bid b) bids ->
   forall rho', rho <= rho' -> demand rho' <= demand rho).
Proof.
  intros _ Hj. cbv zeta. split; [|split].
  - by apply asymptotic_demand_vector_entry.
  - unfold AsymptoticAuctionData._get_counterfactual_demand,
      PIDMeanAuctionData._get_new_wins.
    apply mean_bounds, List.Forall_map, List.Forall_forall. intros b _.
    apply new_wins_bounds.
  - intros Hnb rho' Hle.
    unfold AsymptoticAuctionData._get_counterfactual_demand,
      PIDMeanAuctionData._get_new_wins.
    apply mean_le, Forall2_map_same. intros b Hb.
    apply new_wins_monotone; [|done].
    by apply (proj1 (List.Forall_forall _ _) Hnb).
Qed.

Lemma asymptotic_demand_spec_witness :
  let bids := PIDMeanAuctionData.df_bids two_auction_data in
  let deviations := [-10 # 100; 0; 10 # 100] in
  let demand := AsymptoticAuctionData._get_counterfactual_demand bids in
  bids <> [] /\
  deviations !! 0%nat = Some (-10 # 100) /\
  AsymptoticAuctionData._demand_vector
    (PIDMeanAuctionData._win_vector bids deviations) deviations !! 0%nat
  = Some (demand (-10 # 100)) /\
  (0 <= demand (-10 # 100) /\ demand (-10 # 100) <= 1) /\
  Forall (fun b => 0 <= PIDMeanAuctionData.norm_bid b) bids /\
  -10 # 100 <= 10 # 100 /\
  demand (10 # 100) <= demand (-10 # 100).
Proof.
  cbv zeta.
  assert (Hnb : Forall (fun b => 0 <= PIDMeanAuctionData.norm_bid b)
                       (PIDMeanAuctionData.df_bids two_auction_data)).
  { repeat constructor; unfold Qle; simpl; lia. }
  assert (Hle : -10 # 100 <= 10 # 100) by (unfold Qle; simpl; lia).
  assert (Hne : PIDMeanAuctionData.df_bids two_auction_data <> [])
    by discriminate.
  destruct (asymptotic_demand_spec
              (PIDMeanAuctionData.df_bids two_auction_data)
              [-10 # 100; 0; 10 # 100] 0 (-10 # 100) Hne eq_refl)
    as (Hentry & Hbounds & Hmono).
  split; [exact Hne|].
  split; [reflexivity|]. split; [exact Hentry|]. split; [exact Hbounds|].
  split; [exact Hnb|]. split; [exact Hle|].
  exact (Hmono Hnb (10 # 100) Hle).
Defined.

Lemma np_sum_const {A} (c : Q) (l : list A) :
  np_sum (map (fun _ => c) l) == inject_Z (Z.of_nat (length l)) * c.
Proof.
  induction l as [|x l IH]; [simpl; ring|].
  rewrite inject_length_cons. cbn [map np_sum foldr]. rewrite IH. ring.
Qed.

Lemma np_sum_absent (k : Z) (v : Q) (ks : list Z) :
  ~ In k ks ->
  np_sum (map (fun p => if (k =? p)%Z then v else 0) ks) == 0.
Proof.
  induction ks as [|x ks IH]; simpl; intros H; [reflexivity|].
  destruct (k =? x)%Z eqn:E.
  - apply Z.eqb_eq in E. exfalso. apply H. by left.
  - rewrite IH; [ring|]. intros Hin. apply H. by right.
Qed.

Lemma np_sum_indicator (k : Z) (v : Q) (ks : list Z) :
  List.NoDup ks -> In k ks ->
  np_sum (map (fun p => if (k =? p)%Z then v else 0) ks) == v.
Proof.
  induction 1 as [|x ks Hx Hnd IH]; simpl; [done|]. intros [Heq|Hin].
  - subst x. rewrite Z.eqb_refl, np_sum_absent; [ring|done].
  - destruct (k =? x)%Z eqn:E.
    + apply Z.eqb_eq in E. by subst.
    + rewrite IH; [ring|done].
Qed.

(** Summing group by group: over keys without repetition that cover the
    list, the sums of the groups add up to the sum of the list. *)
Lemma sum_by_group {A} (key : A -> Z) (f : A -> Q) (ks : list Z)
    (l : list A) :
  List.NoDup ks -> (forall x, In x l -> In (key x) ks) ->
  np_sum (map (fun p =>
                 np_sum (map f (List.filter (fun x => (key x =? p)%Z) l)))
              ks)
  == np_sum (map f l).
Proof.
  intros Hnd. induction l as [|x l IH]; intros Hks.
  - simpl. rewrite np_sum_const. ring.
  - transitivity
      (np_sum (map (fun p =>
                      (if (key x =? p)%Z then f x else 0)
                      + np_sum (map f (List.filter
                                         (fun y => (key y =? p)%Z) l)))
                   ks)).
    + apply np_sum_eq, Forall2_map_same. intros p _. simpl.
      destruct (key x =? p)%Z; simpl; ring.
    + rewrite <- np_sum_map_plus, np_sum_indicator, IH.
      * reflexivity.
      * intros y Hy. apply Hks. by right.
      * exact Hnd.
      * apply Hks. by left.
Qed.

(** Data with [m] bids in every auction hold [m] times as many bids as
    auctions. *)
Lemma balanced_size {A} (key : A -> Z) (m : nat) (l : list A) :
  (forall p, In p (map key l) ->
             length (List.filter (fun x => (key x =? p)%Z) l) = m) ->
  inject_Z (Z.of_nat (length l))
  == inject_Z (Z.of_nat m)
     * inject_Z (Z.of_nat (length (PIDMeanAuctionData.distinct
                                     (map key l)))).
Proof.
  intros Hb.
  transitivity (np_sum (map (fun _ : A => 1) l)).
  { rewrite np_sum_const. ring. }
  rewrite <- (sum_by_group key (fun _ => 1)
                (PIDMeanAuctionData.distinct (map key l)) l).
  - transitivity
      (np_sum (map (fun _ : Z => inject_Z (Z.of_nat m))
                   (PIDMeanAuctionData.distinct (map key l)))).
    + apply np_sum_eq, Forall2_map_same. intros p Hp.
      rewrite np_sum_const, (Hb p); [ring|by apply distinct_In].
    + rewrite np_sum_const. ring.
  - apply distinct_NoDup.
  - intros x Hx. apply distinct_In, in_map. exact Hx.
Qed.

Lemma zip_with_map_map {A B C D} (g : B -> C -> D) (a : A -> B)
    (b : A -> C) (l : list A) :
  zip_with g (map a l) (map b l) = map (fun x => g (a x) (b x)) l.
Proof. induction l as [|x l IH]; simpl; [done|]. by rewrite IH. Qed.

(** On balanced data, a frame with at least one bid in which every auction
    holds the same number of bids, the factor
    n_bids * num_auctions / num_bids of [AsymptoticAuctionData] is 1 for
    every auction, and its [_square_residual_to_variance] returns what the
    one of [PIDMeanAuctionData] returns: the mean over the auctions of the
    auction's mean squared residual. *)
Theorem asymptotic_variance_on_balanced_data (self : PIDMeanAuctionData.t)
    (m : nat) (square_residual : PIDMeanAuctionData.bid -> Q) :
  let bids := PIDMeanAuctionData.df_bids self in
  let win_vector :=
    map (fun b => (PIDMeanAuctionData.pid b, square_residual b)) bids in
  bids <> [] ->
  (forall p, In p (map PIDMeanAuctionData.pid bids) ->
             length (List.filter
                       (fun b => (PIDMeanAuctionData.pid b =? p)%Z) bids)
             = m) ->
  Forall (fun n =>
            inject_Z (Z.of_nat n)
            * inject_Z (Z.of_nat (PIDMeanAuctionData.num_auctions self))
            / inject_Z (Z.of_nat (AsymptoticAuctionData.num_bids self))
            == 1)
         (AsymptoticAuctionData.groupby_count win_vector) /\
  AsymptoticAuctionData._square_residual_to_variance self win_vector
  == PIDMeanAuctionData._square_residual_to_variance win_vector.
Proof.
  cbv zeta. intros Hne Hb.
  pose proof (balanced_size PIDMeanAuctionData.pid m _ Hb) as Hsize.
  assert (Hpos : 0 < inject_Z (Z.of_nat
                   (length (PIDMeanAuctionData.df_bids self)))).
  { apply inject_nat_pos.
    destruct (PIDMeanAuctionData.df_bids self); [done|simpl; lia]. }
  assert (Hone : inject_Z (Z.of_nat m)
                 * inject_Z (Z.of_nat (PIDMeanAuctionData.num_auctions self))
                 / inject_Z (Z.of_nat (AsymptoticAuctionData.num_bids self))
                 == 1).
  { unfold AsymptoticAuctionData.num_bids, PIDMeanAuctionData.num_auctions.
    rewrite <- Hsize. field. lra. }
  assert (Hcount : forall p,
             In p (PIDMeanAuctionData.distinct
                     (map fst
                        (map (fun b => (PIDMeanAuctionData.pid b,
                                        square_residual b))
                             (PIDMeanAuctionData.df_bids self)))) ->
             length (List.filter
                       (fun r : Z * Q => (fst r =? p)%Z)
                       (map (fun b => (PIDMeanAuctionData.pid b,
                                       square_residual b))
                            (PIDMeanAuctionData.df_bids self)))
             = m).
  { intros p Hp. rewrite map_map in Hp. cbn [fst] in Hp.
    apply (proj1 (distinct_In _ _)) in Hp.
    by rewrite filter_map_keyed, length_map, (Hb p Hp). }
  split.
  - unfold AsymptoticAuctionData.groupby_count.
    apply List.Forall_map, List.Forall_forall. intros p Hp.
    by rewrite (Hcount p Hp).
  - unfold AsymptoticAuctionData._square_residual_to_variance,
      PIDMeanAuctionData._square_residual_to_variance. cbv zeta.
    unfold AsymptoticAuctionData.groupby_count,
      PIDMeanAuctionData.groupby_mean.
    rewrite zip_with_map_map.
    apply mean_eq, Forall2_map_same. intros p Hp.
    rewrite (Hcount p Hp), Hone. ring.
Qed.

Lemma asymptotic_variance_on_balanced_data_witness :
  let bids := PIDMeanAuctionData.df_bids two_auction_data in
  let win_vector :=
    map (fun b => (PIDMeanAuctionData.pid b,
                   PIDMeanAuctionData.norm_bid b)) bids in
  bids <> [] /\
  (forall p, In p (map PIDMeanAuctionData.pid bids) ->
             length (List.filter
                       (fun b => (PIDMeanAuctionData.pid b =? p)%Z) bids)
             = 2%nat) /\
  AsymptoticAuctionData._square_residual_to_variance two_auction_data
    win_vector
  == PIDMeanAuctionData._square_residual_to_variance win_vector.
Proof.
  cbv zeta.
  assert (Hne : PIDMeanAuctionData.df_bids two_auction_data <> [])
    by discriminate.
  assert (Hb : forall p,
             In p (map PIDMeanAuctionData.pid
                       (PIDMeanAuctionData.df_bids two_auction_data)) ->
             length (List.filter
                       (fun b => (PIDMeanAuctionData.pid b =? p)%Z)
                       (PIDMeanAuctionData.df_bids two_auction_data))
             = 2%nat).
  { intros p Hp. simpl in Hp.
    destruct Hp as [<-|[<-|[<-|[<-|[]]]]]; reflexivity. }
  split; [exact Hne|]. split; [exact Hb|].
  exact (proj2 (asymptotic_variance_on_balanced_data two_auction_data 2
                  PIDMeanAuctionData.norm_bid Hne Hb)).
Defined.
